(** * qgss-2025: zero-noise extrapolation and zigzag layout utilities

    A shallow embedding of [lab-2/utils.py] (the ZNE fit dispatch) and of
    [lab-3/utils/utils.py] (the zigzag layout generation and the layout
    scoring), with the properties of both proved over the embedding.

    Python integers are [Z]; lists are [list]; an exception is the [Err]
    case of the result type [res]; a [while] loop that may run forever is a
    fuelled [Fixpoint] whose [None] means that the fuel ran out.  Calls into
    rustworkx, scipy and the qiskit backend are parameters. *)

From Stdlib Require Import ZArith List Bool Lia String.
From Stdlib Require Import Sorting.Sorted QArith.
From Stdlib Require Finite.
From stdpp Require Import base option list gmap strings.

Open Scope Z_scope.

(** ** Exceptions and results *)

Inductive exn : Type :=
| IndexError
| OverflowError
| TypeError
| KeyError
| ValueError (msg : string)
| LibraryError (tag : Z).

Inductive res (A : Type) : Type :=
| Ok (a : A)
| Err (e : exn).

Arguments Ok {A} a.
Arguments Err {A} e.

Definition bind {A B : Type} (r : res A) (k : A -> res B) : res B :=
  match r with
  | Ok a => k a
  | Err e => Err e
  end.

Notation "'let*' x ':=' r 'in' k" := (bind r (fun x => k))
  (at level 10, x pattern, r at level 100, k at level 200).

(** [for x in l: s = body x s], where the body may raise. *)
Fixpoint for_each {A S : Type} (l : list A) (body : A -> S -> res S) (s : S)
  : res S :=
  match l with
  | [] => Ok s
  | x :: l' => let* s' := body x s in for_each l' body s'
  end.

(** ** Python sequences *)

(** [range(lo, hi)]: empty when [hi <= lo]. *)
Definition py_range (lo hi : Z) : list Z :=
  map (fun i => lo + Z.of_nat i) (seq 0 (Z.to_nat (hi - lo))).

(** [l[i]]: a negative index counts from the end; out of range raises. *)
Definition py_index {A : Type} (l : list A) (i : Z) : res A :=
  let len := Z.of_nat (length l) in
  let j := if i <? 0 then len + i else i in
  if (0 <=? j) && (j <? len) then
    match nth_error l (Z.to_nat j) with
    | Some x => Ok x
    | None => Err IndexError
    end
  else Err IndexError.

(** [l[i] = x], same index rule as [l[i]]. *)
Definition py_setitem {A : Type} (l : list A) (i : Z) (x : A) : res (list A) :=
  let len := Z.of_nat (length l) in
  let j := if i <? 0 then len + i else i in
  if (0 <=? j) && (j <? len) then Ok (<[Z.to_nat j := x]> l)
  else Err IndexError.

(** [l[:stop]]: a negative [stop] counts from the end, and both ends clamp. *)
Definition py_slice_to {A : Type} (l : list A) (stop : Z) : list A :=
  let len := Z.of_nat (length l) in
  let j := if stop <? 0 then Z.max 0 (len + stop) else Z.min stop len in
  firstn (Z.to_nat j) l.

(** [[x] * n]: empty when [n <= 0]. *)
Definition py_repeat {A : Type} (x : A) (n : Z) : list A :=
  repeat x (Z.to_nat n).

(** ** rustworkx graphs *)

(** A [PyGraph] from which no node was removed: node [i] is the [i]-th
    payload, and the edges are kept in insertion order (edge payloads are
    always [None] here and are left out). *)
Record PyGraph : Type := {
  nodes : list Z;
  edge_list : list (Z * Z)
}.

Definition empty_graph : PyGraph := {| nodes := []; edge_list := [] |}.

Definition num_nodes (G : PyGraph) : Z := Z.of_nat (length (nodes G)).

(** [G.add_node(obj)]: the new node gets the next free index. *)
Definition add_node (G : PyGraph) (obj : Z) : PyGraph :=
  {| nodes := nodes G ++ [obj]; edge_list := edge_list G |}.

(** [G.add_edge(a, b, None)]: raises unless both endpoints are node indices
    of [G] (a negative argument does not convert to an index at all). *)
Definition add_edge (G : PyGraph) (a b : Z) : res PyGraph :=
  if (a <? 0) || (b <? 0) then Err OverflowError
  else if (a <? num_nodes G) && (b <? num_nodes G) then
    Ok {| nodes := nodes G; edge_list := edge_list G ++ [(a, b)] |}
  else Err IndexError.

Definition add_nodes (G : PyGraph) (objs : list Z) : PyGraph :=
  fold_left add_node objs G.

Definition create_linear_chains (num_orbitals : Z) : res PyGraph :=
  let G := empty_graph in
  let G := add_nodes G (py_range 0 num_orbitals) in
  let* G := for_each (py_range 0 (num_orbitals - 1))
              (fun n G => add_edge G n (n + 1)) G in
  let G := add_nodes G (py_range num_orbitals (2 * num_orbitals)) in
  let* G := for_each (py_range num_orbitals (2 * num_orbitals - 1))
              (fun n G => add_edge G n (n + 1)) G in
  Ok G.

(** The graph [create_linear_chains] builds, in closed form. *)
Definition two_chains (num_orbitals : Z) : PyGraph :=
  {| nodes :=
       py_range 0 num_orbitals ++ py_range num_orbitals (2 * num_orbitals);
     edge_list :=
       map (fun n => (n, n + 1)) (py_range 0 (num_orbitals - 1)) ++
       map (fun n => (n, n + 1))
         (py_range num_orbitals (2 * num_orbitals - 1)) |}.

(** [u] and [v] are joined by an edge, in either orientation. *)
Definition adjacent (G : PyGraph) (u v : Z) : Prop :=
  In (u, v) (edge_list G) \/ In (v, u) (edge_list G).

(** The nodes [lo .. hi-1] of [G] form a path [lo - lo+1 - ... - hi-1]: among
    them, exactly the consecutive ones are joined. *)
Definition is_path (G : PyGraph) (lo hi : Z) : Prop :=
  forall u v, lo <= u < hi -> lo <= v < hi ->
    (adjacent G u v <-> v = u + 1 \/ u = v + 1).

(** ** The zigzag pattern *)

(** The calls into rustworkx.  [is_subgraph_isomorphic first second] and
    [vf2_mapping first second] (with [subgraph=True]) are the library's; a
    mapping is the list of the [(key, value)] items of the returned
    dictionary, whose keys are nodes of [first] and values nodes of
    [second]. *)
Class Rustworkx : Type := {
  is_subgraph_isomorphic : PyGraph -> PyGraph -> bool;
  vf2_mapping : PyGraph -> PyGraph -> list (list (Z * Z))
}.

(** What the library documents for [is_subgraph_isomorphic] with its default
    [induced=True]: some injection of the nodes of [second] into the nodes
    of [first] preserves both edges and non-edges. *)
Definition subgraph_iso (first second : PyGraph) : Prop :=
  exists f : Z -> Z,
    (forall u, 0 <= u < num_nodes second -> 0 <= f u < num_nodes first) /\
    (forall u v, 0 <= u < num_nodes second -> 0 <= v < num_nodes second ->
       f u = f v -> u = v) /\
    (forall u v, 0 <= u < num_nodes second -> 0 <= v < num_nodes second ->
       (adjacent second u v <-> adjacent first (f u) (f v))).

Class RustworkxSpec `{Rustworkx} : Prop := {
  is_subgraph_isomorphic_spec : forall first second,
    is_subgraph_isomorphic first second = true <-> subgraph_iso first second
}.

(** *** A reference implementation of the two rustworkx calls

    Exhaustive search over all assignments of the nodes of [second] to nodes
    of [first].  It plays the library where a concrete one is needed. *)

Definition adjacentb (G : PyGraph) (u v : Z) : bool :=
  existsb
    (fun e => (fst e =? u) && (snd e =? v) || (fst e =? v) && (snd e =? u))
    (edge_list G).

(** All lists of [domain] elements of [codomain]. *)
Fixpoint assignments (domain : nat) (codomain : list Z) : list (list Z) :=
  match domain with
  | O => [[]]
  | S d =>
    flat_map (fun img => map (fun x => x :: img) codomain)
      (assignments d codomain)
  end.

Definition image_of (img : list Z) (u : Z) : Z := nth (Z.to_nat u) img 0.

Definition embedsb (first second : PyGraph) (img : list Z) : bool :=
  bool_decide (NoDup img) &&
  forallb (fun u =>
    forallb (fun v =>
      Bool.eqb (adjacentb second u v)
               (adjacentb first (image_of img u) (image_of img v)))
      (py_range 0 (num_nodes second)))
    (py_range 0 (num_nodes second)).

Definition embeddings (first second : PyGraph) : list (list Z) :=
  List.filter (embedsb first second)
    (assignments (length (nodes second)) (py_range 0 (num_nodes first))).

Definition exhaustive_rustworkx : Rustworkx := {|
  is_subgraph_isomorphic first second :=
    match embeddings first second with [] => false | _ :: _ => true end;
  vf2_mapping first second :=
    map (fun img => combine img (py_range 0 (num_nodes second)))
      (embeddings first second)
|}.

(** The body of [for n in range(num_iters)] in [create_lucj_zigzag_layout],
    on the pair [(G_new, num_alpha_beta_qubits)]. *)
Definition add_connecting_qubit (num_orbitals n : Z) (st : PyGraph * Z)
  : res (PyGraph * Z) :=
  let '(G_new, num_alpha_beta_qubits) := st in
  if n mod 4 =? 0 then
    let new_node := 2 * num_orbitals + num_alpha_beta_qubits in
    let G_new := add_node G_new new_node in
    let* G_new := add_edge G_new n new_node in
    let* G_new := add_edge G_new new_node (n + num_orbitals) in
    Ok (G_new, num_alpha_beta_qubits + 1)
  else Ok (G_new, num_alpha_beta_qubits).

(** One pass of the [while] body up to the isomorphism test: a copy of [G]
    with a connecting qubit at every fourth of the first [num_iters]
    positions. *)
Definition zigzag_candidate (num_orbitals : Z) (G : PyGraph) (num_iters : Z)
  : res (PyGraph * Z) :=
  for_each (py_range 0 num_iters) (add_connecting_qubit num_orbitals) (G, 0).

(** The [while not isomorphic] loop; [None] when the fuel runs out. *)
Fixpoint zigzag_search `{Rustworkx} (fuel : nat) (num_orbitals : Z)
    (backend_coupling_graph G : PyGraph) (num_iters : Z)
  : option (res (PyGraph * Z)) :=
  match fuel with
  | O => None
  | S fuel' =>
    match zigzag_candidate num_orbitals G num_iters with
    | Err e => Some (Err e)
    | Ok (G_new, num_alpha_beta_qubits) =>
      if is_subgraph_isomorphic backend_coupling_graph G_new
      then Some (Ok (G_new, num_alpha_beta_qubits))
      else zigzag_search fuel' num_orbitals backend_coupling_graph G
             (num_iters - 1)
    end
  end.

Definition create_lucj_zigzag_layout `{Rustworkx} (fuel : nat)
    (num_orbitals : Z) (backend_coupling_graph : PyGraph)
  : option (res (PyGraph * Z)) :=
  match create_linear_chains num_orbitals with
  | Err e => Some (Err e)
  | Ok G =>
    zigzag_search fuel num_orbitals backend_coupling_graph G num_orbitals
  end.

(** [G'] is [G] with further nodes, and further edges that each touch one
    of the further nodes. *)
Definition graph_extension (G G' : PyGraph) : Prop :=
  exists more_nodes more_edges,
    nodes G' = nodes G ++ more_nodes /\
    edge_list G' = edge_list G ++ more_edges /\
    (forall a b, In (a, b) more_edges -> num_nodes G <= a \/ num_nodes G <= b).

(** ** Numbers

    The error rates and the fitted values are Python floats (or whatever
    numbers the backend and scipy hand over).  The code only adds,
    multiplies and compares them, so they are kept abstract: any type with
    these operations.  [num_of_int] is the conversion of an integer literal,
    [num_pow x k] is [x ** k], [num_lt] is [<]. *)
Class Number (num : Type) : Type := {
  num_of_int : Z -> num;
  num_add : num -> num -> num;
  num_mul : num -> num -> num;
  num_neg : num -> num;
  num_pow : num -> Z -> num;
  num_exp : num -> num;
  num_lt : num -> num -> bool
}.

(** The integers are such numbers ([exp] truncated to its value at [0]);
    they serve for concrete runs. *)
Definition Z_number : Number Z := {|
  num_of_int z := z;
  num_add := Z.add;
  num_mul := Z.mul;
  num_neg := Z.opp;
  num_pow := Z.pow;
  num_exp _ := 1;
  num_lt := Z.ltb
|}.



(** [x <= y] read off [<]: not [y < x]. *)
Definition num_le {num : Type} `{Number num} (x y : num) : Prop :=
  num_lt y x = false.

(** [<] is a strict weak order, as it is on the numbers that are not NaN. *)
Class NumberOrder (num : Type) `{Number num} : Prop := {
  num_lt_asym : forall x y : num, num_lt x y = true -> num_lt y x = false;
  num_le_trans : forall x y z : num, num_le x y -> num_le y z -> num_le x z
}.

(** ** Layout scoring *)

(** The part of [backend.properties()] the scoring reads.  A lookup that
    raises is an [Err]. *)
Record BackendProperties (qubit num : Type) : Type := {
  gate_error : string -> qubit * qubit -> res num;
  readout_error : qubit -> res num
}.

Arguments gate_error {qubit num} _ _ _.
Arguments readout_error {qubit num} _ _.

(** The backend: its properties, the basis gates of its configuration, and
    its coupling map as [_make_backend_cmap_pygraph] returns it (that helper
    only symmetrises the map and drops duplicate edges through rustworkx
    calls; its result is taken as given). *)
Record BackendV2 (qubit num : Type) : Type := {
  properties : BackendProperties qubit num;
  basis_gates : list string;
  backend_cmap_pygraph : PyGraph
}.

Arguments properties {qubit num} _.
Arguments basis_gates {qubit num} _.
Arguments backend_cmap_pygraph {qubit num} _.

(** A sequence as a caller writes it, a tuple or a list.  Equality is
    Python's [==]: two tuples or two lists are equal when their items are,
    and a tuple is never equal to a list. *)
Inductive py_seq (A : Type) : Type :=
| PyTuple (items : list A)
| PyList (items : list A).

Arguments PyTuple {A} items.
Arguments PyList {A} items.

#[global] Instance py_seq_eq_dec {A : Type} `{EqDecision A}
  : EqDecision (py_seq A).
Proof. solve_decision. Defined.


(** [x in l]. *)
Definition py_in {A : Type} `{EqDecision A} (x : A) (l : list A) : bool :=
  existsb (fun y => bool_decide (x = y)) l.

(** [sorted(l, key=key)]: a stable sort that compares keys with [<] only. *)
Fixpoint insert_by_key {A num : Type} `{Number num} (key : A -> num) (x : A)
    (l : list A) : list A :=
  match l with
  | [] => [x]
  | y :: l' =>
    if num_lt (key y) (key x) then y :: insert_by_key key x l' else x :: l
  end.

Definition sorted {A num : Type} `{Number num} (key : A -> num) (l : list A)
  : list A :=
  fold_right (insert_by_key key) [] l.

Section Scoring.
Context {qubit num : Type} `{EqDecision qubit} `{Number num}.

(** [any(q in bad_readout_qubits for q in layout)]. *)
Definition has_bad_readout_qubit (layout bad_readout_qubits : list qubit)
  : bool :=
  existsb (fun q => py_in q bad_readout_qubits) layout.

(** The first [for edge in virtual_edges] loop: the value of [skip] when
    the loop ends or breaks.  [physical_edge] is a tuple, and [in] compares
    it with the entries of [bad_czgate_edges] by [==]: an entry written as a
    list is never equal to it. *)
Fixpoint uses_bad_czgate_edge (layout : list qubit)
    (bad_czgate_edges : list (py_seq qubit)) (virtual_edges : list (Z * Z))
  : res bool :=
  match virtual_edges with
  | [] => Ok false
  | edge :: rest =>
    let* p0 := py_index layout (fst edge) in
    let* p1 := py_index layout (snd edge) in
    let physical_edge := PyTuple [p0; p1] in
    if py_in physical_edge bad_czgate_edges
       || py_in (PyTuple [p1; p0]) bad_czgate_edges
    then Ok true
    else uses_bad_czgate_edge layout bad_czgate_edges rest
  end.

(** The body of the second [for edge in virtual_edges] loop, on
    [total_2q_error]. *)
Definition add_2q_error (props : BackendProperties qubit num)
    (two_q_gate_name : string) (layout : list qubit) (edge : Z * Z)
    (total_2q_error : num) : res num :=
  let* p0 := py_index layout (fst edge) in
  let* p1 := py_index layout (snd edge) in
  let physical_edge := (p0, p1) in
  let* ge :=
    match gate_error props two_q_gate_name physical_edge with
    | Ok ge => Ok ge
    | Err _ => gate_error props two_q_gate_name (p1, p0)
    end in
  Ok (num_add total_2q_error ge).

(** The body of [for qubit in layout], on [total_measurement_error]. *)
Definition add_measurement_error (props : BackendProperties qubit num)
    (q : qubit) (total_measurement_error : num) : res num :=
  let* meas_error := readout_error props q in
  Ok (num_add total_measurement_error meas_error).

(** The body of [for layout in physical_layouts], on [scores]. *)
Definition score_layout (props : BackendProperties qubit num)
    (virtual_edges : list (Z * Z)) (two_q_gate_name : string)
    (bad_readout_qubits : list qubit) (bad_czgate_edges : list (py_seq qubit))
    (layout : list qubit) (scores : list (list qubit * num))
  : res (list (list qubit * num)) :=
  if has_bad_readout_qubit layout bad_readout_qubits then Ok scores
  else
    let* skip := uses_bad_czgate_edge layout bad_czgate_edges virtual_edges in
    if skip then Ok scores
    else
      let* total_2q_error :=
        for_each virtual_edges (add_2q_error props two_q_gate_name layout)
          (num_of_int 0) in
      let* total_measurement_error :=
        for_each layout (add_measurement_error props) (num_of_int 0) in
      Ok (scores ++ [(layout, num_add total_2q_error total_measurement_error)]).

Definition lightweight_layout_error_scoring (backend : BackendV2 qubit num)
    (virtual_edges : list (Z * Z)) (physical_layouts : list (list qubit))
    (two_q_gate_name : string) (bad_readout_qubits : list qubit)
    (bad_czgate_edges : list (py_seq qubit))
  : res (list (list qubit * num)) :=
  let props := properties backend in
  let* scores :=
    for_each physical_layouts
      (score_layout props virtual_edges two_q_gate_name bad_readout_qubits
         bad_czgate_edges) [] in
  Ok (sorted snd scores).

(** The sum of a list of numbers, added from the left starting at [0], which
    is the order the accumulating loops use. *)
Definition num_sum (l : list num) : num := fold_left num_add l (num_of_int 0).

(** The two-qubit gate error the scoring charges for the virtual edge
    [edge] under [layout] is [ge]: the forward lookup on the physical edge
    when it succeeds, the reverse lookup when the forward one raises. *)
Definition edge_error_is (props : BackendProperties qubit num)
    (two_q_gate_name : string) (layout : list qubit) (edge : Z * Z) (ge : num)
  : Prop :=
  exists p0 p1,
    py_index layout (fst edge) = Ok p0 /\
    py_index layout (snd edge) = Ok p1 /\
    (gate_error props two_q_gate_name (p0, p1) = Ok ge \/
     (exists e, gate_error props two_q_gate_name (p0, p1) = Err e) /\
     gate_error props two_q_gate_name (p1, p0) = Ok ge).


(** The virtual edge [edge] lands on a physical edge of [layout] that
    [bad_czgate_edges] lists as a tuple in neither orientation. *)
Definition off_bad_czgate_edges (layout : list qubit)
    (bad_czgate_edges : list (py_seq qubit)) (edge : Z * Z) : Prop :=
  exists p0 p1,
    py_index layout (fst edge) = Ok p0 /\
    py_index layout (snd edge) = Ok p1 /\
    ~ In (PyTuple [p0; p1]) bad_czgate_edges /\
    ~ In (PyTuple [p1; p0]) bad_czgate_edges.

(** What holds of every entry the scoring loop appends. *)
Definition scored_entry (props : BackendProperties qubit num)
    (virtual_edges : list (Z * Z)) (two_q_gate_name : string)
    (bad_readout_qubits : list qubit) (bad_czgate_edges : list (py_seq qubit))
    (physical_layouts : list (list qubit)) (entry : list qubit * num) : Prop :=
  let (layout, score) := entry in
  In layout physical_layouts /\
  (forall q, In q layout -> ~ In q bad_readout_qubits) /\
  (forall edge, In edge virtual_edges ->
     off_bad_czgate_edges layout bad_czgate_edges edge) /\
  exists ges ms,
    Forall2 (edge_error_is props two_q_gate_name layout) virtual_edges ges /\
    Forall2 (fun q m => readout_error props q = Ok m) layout ms /\
    score = num_add (num_sum ges) (num_sum ms).

End Scoring.


(** A four-qubit line [0 - 1 - 2 - 3] whose gate errors are only recorded
    in the direction of increasing qubit number; error rates in thousandths. *)
Definition line4_props : BackendProperties Z Z := {|
  gate_error name e :=
    if String.eqb name "cz" then
      match e with
      | (0, 1) => Ok 5
      | (1, 2) => Ok 7
      | (2, 3) => Ok 40
      | _ => Err (LibraryError 0)
      end
    else Err (LibraryError 0);
  readout_error q :=
    if (0 <=? q) && (q <? 4) then Ok (10 + q) else Err (LibraryError 1)
|}.

Definition line4 : BackendV2 Z Z := {|
  properties := line4_props;
  basis_gates := ["cz"; "id"; "rz"; "sx"; "x"]%string;
  backend_cmap_pygraph :=
    {| nodes := [0; 1; 2; 3]; edge_list := [(0, 1); (1, 2); (2, 3)] |}
|}.


(** ** The physical zigzag layout *)

Definition IBM_TWO_Q_GATES : list string := ["cx"; "ecr"; "cz"]%string.

(** [set.pop()] returns an element of the runtime's choosing, and raises
    [KeyError] on the empty set; the choice is a parameter. *)
Class PythonRuntime : Type := {
  set_pop : list string -> res string
}.

Definition first_element_pop : PythonRuntime := {|
  set_pop l := match l with [] => Err KeyError | x :: _ => Ok x end
|}.

(** [[f(x) for x in l]] where [f] may raise. *)
Fixpoint map_res {A B : Type} (f : A -> res B) (l : list A) : res (list B) :=
  match l with
  | [] => Ok []
  | x :: l' => let* y := f x in let* ys := map_res f l' in Ok (y :: ys)
  end.

(** The body of [for mapping in isomorphic_mappings]: a list of [size]
    [None]s in which every item [(key, value)] of the mapping stores the
    physical qubit [key] at the position [value]. *)
Definition layout_of_mapping (size : Z) (mapping : list (Z * Z))
  : res (list (option Z)) :=
  for_each mapping
    (fun '(key, value) initial_layout =>
       py_setitem initial_layout value (Some key))
    (py_repeat None size).

Definition get_zigzag_physical_layout {num : Type} `{Number num}
    `{Rustworkx} `{PythonRuntime} (fuel : nat)
    (num_orbitals : Z) (backend : BackendV2 (option Z) num)
    (score_layouts : bool) (num_ancillas : Z)
    (bad_readout_qubits : list (option Z))
    (bad_czgate_edges : list (py_seq (option Z)))
  : option (res (list (option Z) * Z)) :=
  let backend_coupling_graph := backend_cmap_pygraph backend in
  match create_lucj_zigzag_layout fuel (num_orbitals + num_ancillas)
          backend_coupling_graph with
  | None => None
  | Some (Err e) => Some (Err e)
  | Some (Ok (G, num_alpha_beta_qubits)) => Some (
    let isomorphic_mappings := vf2_mapping backend_coupling_graph G in
    let edges := edge_list G in
    let* layouts :=
      map_res
        (layout_of_mapping
           (2 * (num_orbitals + num_ancillas) + num_alpha_beta_qubits))
        isomorphic_mappings in
    let* two_q_gate_name :=
      set_pop (List.filter (fun g => py_in g (basis_gates backend))
                 IBM_TWO_Q_GATES) in
    if score_layouts then
      let* scores :=
        lightweight_layout_error_scoring backend edges layouts two_q_gate_name
          bad_readout_qubits bad_czgate_edges in
      let* best := py_index scores 0 in
      Ok (py_slice_to (fst best) (- num_alpha_beta_qubits),
          num_alpha_beta_qubits)
    else
      let* first_layout := py_index layouts 0 in
      Ok (py_slice_to first_layout (- num_alpha_beta_qubits),
          num_alpha_beta_qubits))
  end.

(** ** Zero-noise extrapolation *)

(** The three model functions, as the function objects [zne_method] hands
    to [curve_fit] and returns as [fit_fn]. *)
Inductive model : Type :=
| linear_model_fn
| quadratic_model_fn
| exponential_model_fn.

(** One call [curve_fit(f, xdata, ydata, p0=..., maxfev=...)]; an absent
    keyword is [None].  The initial guess is kept as the literals written in
    the source. *)
Record curve_fit_call (num : Type) : Type := {
  cf_f : model;
  cf_xdata : list num;
  cf_ydata : list num;
  cf_p0 : option (list Q);
  cf_maxfev : option Z
}.

Arguments cf_f {num} _.
Arguments cf_xdata {num} _.
Arguments cf_ydata {num} _.
Arguments cf_p0 {num} _.
Arguments cf_maxfev {num} _.

(** scipy's [curve_fit]: the fitted parameters [popt] (the covariance is
    dropped by the caller), or the exception it raises. *)
Class Scipy (num : Type) : Type := {
  curve_fit : curve_fit_call num -> res (list num)
}.

Section ZNE.
Context {num : Type} `{Number num} `{Scipy num}.

Definition linear_model (x a b : num) : num :=
  num_add (num_mul a x) b.

Definition quadratic_model (x a b c : num) : num :=
  num_add (num_add (num_mul a (num_pow x 2)) (num_mul b x)) c.

Definition exponential_model (x a b c : num) : num :=
  num_add (num_mul a (num_exp (num_mul (num_neg b) x))) c.

(** [f(x, *popt)]: a wrong number of parameters is a [TypeError]. *)
Definition call_model (f : model) (x : num) (popt : list num) : res num :=
  match f, popt with
  | linear_model_fn, [a; b] => Ok (linear_model x a b)
  | quadratic_model_fn, [a; b; c] => Ok (quadratic_model x a b c)
  | exponential_model_fn, [a; b; c] => Ok (exponential_model x a b c)
  | _, _ => Err TypeError
  end.

Definition unknown_method_message (method : string) : string :=
  ("Unknown method '" ++ method ++
   "'. Use 'linear', 'quadratic', or 'exponential'.")%string.

(** [zne_method]: the calls it made to [curve_fit], in order, and its
    outcome [(zero_val, ydata, popt, fit_fn)]. *)
Definition zne_method (method : string) (xdata ydata : list num)
  : list (curve_fit_call num) * res (num * list num * list num * model) :=
  if String.eqb method "linear" then
    let call := {| cf_f := linear_model_fn; cf_xdata := xdata;
                   cf_ydata := ydata; cf_p0 := None; cf_maxfev := None |} in
    ([call],
     let* popt := curve_fit call in
     let* zero_val := call_model linear_model_fn (num_of_int 0) popt in
     let fit_fn := linear_model_fn in
     Ok (zero_val, ydata, popt, fit_fn))
  else if String.eqb method "quadratic" then
    let call := {| cf_f := quadratic_model_fn; cf_xdata := xdata;
                   cf_ydata := ydata; cf_p0 := None; cf_maxfev := None |} in
    ([call],
     let* popt := curve_fit call in
     let* zero_val := call_model quadratic_model_fn (num_of_int 0) popt in
     let fit_fn := quadratic_model_fn in
     Ok (zero_val, ydata, popt, fit_fn))
  else if String.eqb method "exponential" then
    let call := {| cf_f := exponential_model_fn; cf_xdata := xdata;
                   cf_ydata := ydata;
                   cf_p0 := Some [1%Q; (1 # 10)%Q; 0%Q];
                   cf_maxfev := Some 5000 |} in
    ([call],
     let* popt := curve_fit call in
     let* zero_val := call_model exponential_model_fn (num_of_int 0) popt in
     let fit_fn := exponential_model_fn in
     Ok (zero_val, ydata, popt, fit_fn))
  else ([], Err (ValueError (unknown_method_message method))).

End ZNE.

(** The methods [zne_method] knows: the model function each one fits, and
    the keywords it passes to [curve_fit]. *)
Inductive supported_method
  : string -> model -> option (list Q) -> option Z -> Prop :=
| supported_linear :
    supported_method "linear" linear_model_fn None None
| supported_quadratic :
    supported_method "quadratic" quadratic_model_fn None None
| supported_exponential :
    supported_method "exponential" exponential_model_fn
      (Some [1%Q; (1 # 10)%Q; 0%Q]) (Some 5000).

(** The number of parameters of a model function besides [x]. *)
Definition model_arity (f : model) : nat :=
  match f with
  | linear_model_fn => 2
  | quadratic_model_fn => 3
  | exponential_model_fn => 3
  end.

(** [value] is what the model function [f] gives at [x] with the parameters
    [popt]: [a * x + b], [a * x**2 + b * x + c] or [a * exp(-b * x) + c]. *)
Definition model_value_at {num : Type} `{Number num} (f : model) (x : num)
    (popt : list num) (value : num) : Prop :=
  match f, popt with
  | linear_model_fn, [a; b] => value = num_add (num_mul a x) b
  | quadratic_model_fn, [a; b; c] =>
    value = num_add (num_add (num_mul a (num_pow x 2)) (num_mul b x)) c
  | exponential_model_fn, [a; b; c] =>
    value = num_add (num_mul a (num_exp (num_mul (num_neg b) x))) c
  | _, _ => False
  end.

(** A stand-in for scipy in concrete runs over the integers: the line
    through the first two data points (as a quadratic, with no square term);
    too few points, a vertical line, a slope that is no integer, and the
    exponential model are failures. *)
Definition two_point_fit : Scipy Z := {|
  curve_fit call :=
    match cf_xdata call, cf_ydata call with
    | x0 :: x1 :: _, y0 :: y1 :: _ =>
      if (x1 =? x0) || negb ((y1 - y0) mod (x1 - x0) =? 0)
      then Err (LibraryError 2)
      else
        let a := (y1 - y0) / (x1 - x0) in
        let b := y0 - a * x0 in
        match cf_f call with
        | linear_model_fn => Ok [a; b]
        | quadratic_model_fn => Ok [0; a; b]
        | exponential_model_fn => Err (LibraryError 3)
        end
    | _, _ => Err (LibraryError 2)
    end
|}.

(** ** The object store

    The list arguments of [zne_method] and of
    [lightweight_layout_error_scoring] are mutable objects that the caller
    keeps (the default [[]] of a parameter is one such object, shared by all
    calls).  To speak of mutation the two functions are written once more
    over an explicit store: an argument is a reference, reading it is a
    lookup, [scores.append] is an update, and every list the code builds is
    a fresh allocation.  Tuples and numbers are immutable and stay values.
    [curve_fit] and the backend properties are taken not to write to their
    arguments. *)

Inductive obj (qubit num : Type) : Type :=
| Nums (l : list num)
| Qubits (l : list qubit)
| QubitSeqs (l : list (py_seq qubit))
| IntPairs (l : list (Z * Z))
| Refs (l : list positive)
| Entry (layout : positive) (score : num).

Arguments Nums {qubit num} l.
Arguments Qubits {qubit num} l.
Arguments QubitSeqs {qubit num} l.
Arguments IntPairs {qubit num} l.
Arguments Refs {qubit num} l.
Arguments Entry {qubit num} layout score.

Abbreviation heap qubit num := (gmap positive (obj qubit num)).

Section Store.
Context {qubit num : Type}.
Abbreviation loc := positive.

(** A computation on the store: the final store, and a value or an
    exception. *)
Definition M (A : Type) : Type := heap qubit num -> heap qubit num * res A.

Definition ret {A : Type} (a : A) : M A := fun h => (h, Ok a).

Definition bindM {A B : Type} (m : M A) (k : A -> M B) : M B :=
  fun h =>
    match m h with
    | (h', Ok a) => k a h'
    | (h', Err e) => (h', Err e)
    end.

Definition lift {A : Type} (r : res A) : M A := fun h => (h, r).

(** A new object, at a location the store does not use yet. *)
Definition alloc (o : obj qubit num) : M loc :=
  fun h => let l := fresh (dom h) in (<[l := o]> h, Ok l).

Definition load (l : loc) : M (obj qubit num) :=
  fun h =>
    match h !! l with
    | Some o => (h, Ok o)
    | None => (h, Err TypeError)
    end.

Definition as_nums (o : obj qubit num) : res (list num) :=
  match o with Nums l => Ok l | _ => Err TypeError end.

Definition as_qubits (o : obj qubit num) : res (list qubit) :=
  match o with Qubits l => Ok l | _ => Err TypeError end.

Definition as_qubit_seqs (o : obj qubit num) : res (list (py_seq qubit)) :=
  match o with QubitSeqs l => Ok l | _ => Err TypeError end.

Definition as_int_pairs (o : obj qubit num) : res (list (Z * Z)) :=
  match o with IntPairs l => Ok l | _ => Err TypeError end.

Definition as_refs (o : obj qubit num) : res (list loc) :=
  match o with Refs l => Ok l | _ => Err TypeError end.

Definition as_entry (o : obj qubit num) : res (loc * num) :=
  match o with
  | Entry layout score => Ok (layout, score)
  | _ => Err TypeError
  end.

(** Reading a list through a reference; an object of another kind is a
    [TypeError]. *)
Definition load_nums (l : loc) : M (list num) :=
  bindM (load l) (fun o => lift (as_nums o)).

Definition load_qubits (l : loc) : M (list qubit) :=
  bindM (load l) (fun o => lift (as_qubits o)).

Definition load_qubit_seqs (l : loc) : M (list (py_seq qubit)) :=
  bindM (load l) (fun o => lift (as_qubit_seqs o)).

Definition load_int_pairs (l : loc) : M (list (Z * Z)) :=
  bindM (load l) (fun o => lift (as_int_pairs o)).

Definition load_refs (l : loc) : M (list loc) :=
  bindM (load l) (fun o => lift (as_refs o)).

(** [l.append(r)] on a list of references. *)
Definition list_append (l r : loc) : M unit :=
  fun h =>
    match h !! l with
    | Some (Refs rs) => (<[l := Refs (rs ++ [r])]> h, Ok tt)
    | _ => (h, Err TypeError)
    end.

End Store.

Arguments M qubit num A : clear implicits.

Notation "'let!' x ':=' m 'in' k" := (bindM m (fun x => k))
  (at level 10, x pattern, m at level 100, k at level 200).

Section StoreFunctions.
Context {qubit num : Type} `{EqDecision qubit} `{Number num} `{Scipy num}.
Abbreviation loc := positive.

Fixpoint for_each_h {A : Type} (l : list A) (body : A -> M qubit num unit)
  : M qubit num unit :=
  match l with
  | [] => ret tt
  | x :: l' => let! _ := body x in for_each_h l' body
  end.

Fixpoint map_h {A B : Type} (f : A -> M qubit num B) (l : list A)
  : M qubit num (list B) :=
  match l with
  | [] => ret []
  | x :: l' => let! y := f x in let! ys := map_h f l' in ret (y :: ys)
  end.

(** One branch of [zne_method]: the fit reads [xdata] and [ydata], the
    fitted parameters are a new array, and [ydata] itself is returned. *)
Definition zne_fit_h (f : model) (p0 : option (list Q)) (maxfev : option Z)
    (xdata ydata : loc) : M qubit num (num * loc * loc * model) :=
  let! xs := load_nums xdata in
  let! ys := load_nums ydata in
  let! popt := lift (curve_fit {| cf_f := f; cf_xdata := xs; cf_ydata := ys;
                             cf_p0 := p0; cf_maxfev := maxfev |}) in
  let! popt_ref := alloc (Nums popt) in
  let! zero_val := lift (call_model f (num_of_int 0) popt) in
  ret (zero_val, ydata, popt_ref, f).

Definition zne_method_h (method : string) (xdata ydata : loc)
  : M qubit num (num * loc * loc * model) :=
  if String.eqb method "linear" then
    zne_fit_h linear_model_fn None None xdata ydata
  else if String.eqb method "quadratic" then
    zne_fit_h quadratic_model_fn None None xdata ydata
  else if String.eqb method "exponential" then
    zne_fit_h exponential_model_fn (Some [1%Q; (1 # 10)%Q; 0%Q]) (Some 5000)
      xdata ydata
  else lift (Err (ValueError (unknown_method_message method))).

(** [any(q in bad_readout_qubits for q in layout)]: the bad list is first
    touched by the first membership test, so not at all for an empty
    layout. *)
Definition any_bad_readout_h (layout : list qubit) (bad_readout_qubits : loc)
  : M qubit num bool :=
  match layout with
  | [] => ret false
  | _ :: _ =>
    let! bad_r := load_qubits bad_readout_qubits in
    ret (has_bad_readout_qubit layout bad_r)
  end.

(** The first [for edge in virtual_edges] loop: [bad_czgate_edges] is first
    touched once the first physical edge has been formed. *)
Definition skip_bad_czgate_h (layout : list qubit) (edges : list (Z * Z))
    (bad_czgate_edges : loc) : M qubit num bool :=
  match edges with
  | [] => ret false
  | edge :: _ =>
    let! _ := lift (py_index layout (fst edge)) in
    let! _ := lift (py_index layout (snd edge)) in
    let! bad_e := load_qubit_seqs bad_czgate_edges in
    lift (uses_bad_czgate_edge layout bad_e edges)
  end.

(** The body of [for layout in physical_layouts], with [scores] in the
    store. *)
Definition score_layout_h (props : BackendProperties qubit num)
    (virtual_edges : loc) (two_q_gate_name : string)
    (bad_readout_qubits bad_czgate_edges scores layout_ref : loc)
  : M qubit num unit :=
  let! layout := load_qubits layout_ref in
  let! any_bad := any_bad_readout_h layout bad_readout_qubits in
  if any_bad then ret tt
  else
    let! edges := load_int_pairs virtual_edges in
    let! skip := skip_bad_czgate_h layout edges bad_czgate_edges in
    if skip then ret tt
    else
      let! total_2q_error :=
        lift (for_each edges (add_2q_error props two_q_gate_name layout)
                (num_of_int 0)) in
      let! total_measurement_error :=
        lift (for_each layout (add_measurement_error props) (num_of_int 0)) in
      let! entry :=
        alloc (Entry layout_ref
                 (num_add total_2q_error total_measurement_error)) in
      list_append scores entry.

(** [x[1]] for an entry [x] of [scores], kept with the reference to [x]. *)
Definition entry_key (entry : loc) : M qubit num (loc * num) :=
  let! o := load entry in
  let! p := lift (as_entry o) in
  ret (entry, snd p).

Definition lightweight_layout_error_scoring_h (backend : BackendV2 qubit num)
    (virtual_edges physical_layouts : loc) (two_q_gate_name : string)
    (bad_readout_qubits bad_czgate_edges : loc) : M qubit num loc :=
  let props := properties backend in
  let! scores := alloc (Refs []) in
  let! layouts := load_refs physical_layouts in
  let! _ := for_each_h layouts
         (score_layout_h props virtual_edges two_q_gate_name
            bad_readout_qubits bad_czgate_edges scores) in
  let! entries := load_refs scores in
  let! keyed := map_h entry_key entries in
  alloc (Refs (map fst (sorted snd keyed))).

(** What a reference to a list of numbers holds. *)
Definition nums_at (h : heap qubit num) (l : loc) : option (list num) :=
  match h !! l with Some (Nums xs) => Some xs | _ => None end.

(** What a reference to a list of layouts holds. *)
Definition layouts_at (h : heap qubit num) (l : loc)
  : option (list (list qubit)) :=
  match h !! l with
  | Some (Refs rs) =>
    mapM (fun r => match h !! r with Some (Qubits q) => Some q | _ => None end)
      rs
  | _ => None
  end.

(** What a reference to a list of scored entries holds. *)
Definition scores_at (h : heap qubit num) (l : loc)
  : option (list (list qubit * num)) :=
  match h !! l with
  | Some (Refs es) =>
    mapM (fun e =>
            match h !! e with
            | Some (Entry r score) =>
              match h !! r with
              | Some (Qubits q) => Some (q, score)
              | _ => None
              end
            | _ => None
            end) es
  | _ => None
  end.

(** The outcome of a run of [zne_method_h], read back from the final
    store. *)
Definition zne_outcome (out : heap qubit num * res (num * loc * loc * model))
  : res (num * option (list num) * option (list num) * model) :=
  let (h, r) := out in
  let* v := r in
  let '(zero_val, ydata, popt, fit_fn) := v in
  Ok (zero_val, nums_at h ydata, nums_at h popt, fit_fn).

(** The outcome of a run of [lightweight_layout_error_scoring_h], read back
    from the final store. *)
Definition scoring_outcome (out : heap qubit num * res loc)
  : res (option (list (list qubit * num))) :=
  let (h, r) := out in
  let* l := r in Ok (scores_at h l).

End StoreFunctions.

(** The computation [m] leaves every object of [h0] as it is, whatever else
    the store it starts from holds. *)
Definition frames {qubit num A : Type} (h0 : heap qubit num)
    (m : M qubit num A) : Prop :=
  forall h, h0 ⊆ h -> h0 ⊆ fst (m h).

(** The entry references [es] of the store [h] hold the scored layouts
    [acc], each through a layout reference that [h0] already had. *)
Definition entries_hold {qubit num : Type} (h0 h : heap qubit num)
    (es : list positive) (acc : list (list qubit * num)) : Prop :=
  Forall2 (fun e p => exists r,
             h !! e = Some (Entry r (snd p)) /\
             h0 !! r = Some (Qubits (fst p))) es acc.

(** Two stores holding the same fit data at different places. *)
Definition zne_store_a : heap Z Z :=
  list_to_map [(1%positive, Nums [1; 2; 3]); (2%positive, Nums [7; 9; 11])].

Definition zne_store_b : heap Z Z :=
  list_to_map [(3%positive, Nums [0]); (5%positive, Nums [7; 9; 11]);
               (9%positive, Nums [1; 2; 3])].

(** Two stores holding the same scoring arguments at different places; in
    the first the list of layouts mentions one layout object twice, and the
    empty list is shared by both bad lists. *)
Definition scoring_store_a : heap Z Z :=
  list_to_map
    [(1%positive, IntPairs [(0, 1)]);
     (2%positive, Refs [5; 6; 7; 6]%positive);
     (3%positive, Qubits []); (4%positive, QubitSeqs []);
     (5%positive, Qubits [2; 3]); (6%positive, Qubits [1; 0]);
     (7%positive, Qubits [1; 2])].

Definition scoring_store_b : heap Z Z :=
  list_to_map
    [(10%positive, Qubits [1; 0]); (11%positive, Qubits [1; 2]);
     (12%positive, Qubits [2; 3]); (13%positive, Qubits [1; 0]);
     (20%positive, Refs [12; 10; 11; 13]%positive);
     (21%positive, IntPairs [(0, 1)]);
     (22%positive, Qubits []); (23%positive, QubitSeqs [])].

(** Two small coupling graphs for concrete runs: a path of three qubits, and
    a single coupling. *)
Definition path3 : PyGraph :=
  {| nodes := [0; 1; 2]; edge_list := [(0, 1); (1, 2)] |}.

Definition single_coupling : PyGraph :=
  {| nodes := [0; 1]; edge_list := [(0, 1)] |}.

(** The four-qubit line with its qubits as layout entries ([None] is no
    qubit). *)
Definition line4_layout_backend : BackendV2 (option Z) Z := {|
  properties := {|
    gate_error name e :=
      match e with
      | (Some a, Some b) => gate_error line4_props name (a, b)
      | _ => Err TypeError
      end;
    readout_error q :=
      match q with
      | Some a => readout_error line4_props a
      | None => Err TypeError
      end |};
  basis_gates := basis_gates line4;
  backend_cmap_pygraph := backend_cmap_pygraph line4
|}.

(** Three qubits of which only the first two are coupled. *)
Definition sparse3_layout_backend : BackendV2 (option Z) Z := {|
  properties := properties line4_layout_backend;
  basis_gates := basis_gates line4;
  backend_cmap_pygraph := {| nodes := [0; 1; 2]; edge_list := [(0, 1)] |}
|}.

(** ** The zigzag pattern in closed form *)

(** The number of connecting qubits after [num_iters >= 0] positions: one
    at every position that is a multiple of four. *)
Definition num_connecting (num_iters : Z) : Z := (num_iters + 3) / 4.

(** The two edges of each of the first [k] connecting qubits: the [j]-th one,
    node [2 * num_orbitals + j], joins position [4 * j] of the first chain
    to position [4 * j] of the second. *)
Definition connecting_edges (num_orbitals k : Z) : list (Z * Z) :=
  flat_map
    (fun j => [(4 * j, 2 * num_orbitals + j);
               (2 * num_orbitals + j, 4 * j + num_orbitals)])
    (py_range 0 k).

(** The two chains with [k] connecting qubits. *)
Definition zigzag_graph (num_orbitals k : Z) : PyGraph :=
  {| nodes :=
       nodes (two_chains num_orbitals) ++
       py_range (2 * num_orbitals) (2 * num_orbitals + k);
     edge_list :=
       edge_list (two_chains num_orbitals) ++
       connecting_edges num_orbitals k |}.

(** ** Which layouts the scoring keeps *)

(** The layout gets past both filters of the scoring loop: no bad readout
    qubit, and the first edge loop ends with [skip] false. *)
Definition passes_filters {qubit : Type} `{EqDecision qubit}
    (virtual_edges : list (Z * Z)) (bad_readout_qubits : list qubit)
    (bad_czgate_edges : list (py_seq qubit)) (layout : list qubit) : bool :=
  negb (has_bad_readout_qubit layout bad_readout_qubits) &&
  match uses_bad_czgate_edge layout bad_czgate_edges virtual_edges with
  | Ok false => true
  | _ => false
  end.

(** Neither number is below the other: they tie under [<]. *)
Definition num_tie {num : Type} `{Number num} (x y : num) : bool :=
  negb (num_lt x y) && negb (num_lt y x).

(** A lookup the scoring of [layout] needs raises: the gate error of some
    virtual edge in both directions, or the readout error of some qubit. *)
Definition lookup_raises {qubit num : Type}
    (props : BackendProperties qubit num) (two_q_gate_name : string)
    (virtual_edges : list (Z * Z)) (layout : list qubit) : Prop :=
  (exists edge p0 p1 e1 e2,
     In edge virtual_edges /\
     py_index layout (fst edge) = Ok p0 /\
     py_index layout (snd edge) = Ok p1 /\
     gate_error props two_q_gate_name (p0, p1) = Err e1 /\
     gate_error props two_q_gate_name (p1, p0) = Err e2) \/
  (exists q e, In q layout /\ readout_error props q = Err e).

(** ** What the library and the runtime document *)

(** What the library documents for [vf2_mapping first second] with
    [subgraph=True] and its default [induced=True]: every mapping it yields
    is an isomorphism between [second] and a node-induced subgraph of
    [first], as a dictionary from the nodes of [first] it uses to all the
    nodes of [second]. *)
Class VF2MappingSpec `{Rustworkx} : Prop := {
  vf2_mapping_spec : forall first second mapping,
    In mapping (vf2_mapping first second) ->
    NoDup (map fst mapping) /\
    NoDup (map snd mapping) /\
    (forall key, In key (map fst mapping) -> 0 <= key < num_nodes first) /\
    (forall value,
       In value (map snd mapping) <-> 0 <= value < num_nodes second) /\
    (forall k1 v1 k2 v2, In (k1, v1) mapping -> In (k2, v2) mapping ->
       (adjacent second v1 v2 <-> adjacent first k1 k2))
}.

(** [set.pop()] returns an element of the set, and raises [KeyError] on the
    empty set only. *)
Class PythonRuntimeSpec `{PythonRuntime} : Prop := {
  set_pop_empty : set_pop [] = Err KeyError;
  set_pop_member : forall l x, set_pop l = Ok x -> In x l;
  set_pop_nonempty : forall l, l <> [] -> exists x, set_pop l = Ok x
}.

(** The four-qubit line on a backend that offers no two-qubit gate of
    [IBM_TWO_Q_GATES]. *)
Definition line4_no_two_q_backend : BackendV2 (option Z) Z := {|
  properties := properties line4_layout_backend;
  basis_gates := ["id"; "rz"; "sx"; "x"]%string;
  backend_cmap_pygraph := backend_cmap_pygraph line4
|}.

(** ** Arithmetic at zero *)

(** The identities at [0] and [1] that the zero-noise value rests on; they
    hold of the integers and of every finite float. *)
Class NumberLaws (num : Type) `{Number num} : Prop := {
  num_mul_zero : forall a : num, num_mul a (num_of_int 0) = num_of_int 0;
  num_mul_one : forall a : num, num_mul a (num_of_int 1) = a;
  num_add_zero : forall b : num, num_add (num_of_int 0) b = b;
  num_pow_zero : num_pow (num_of_int 0) 2 = num_of_int 0;
  num_exp_zero : num_exp (num_of_int 0) = num_of_int 1
}.

(** A computation that only reads the store. *)
Definition reads {qubit num A : Type} (m : M qubit num A) : Prop :=
  forall h, fst (m h) = h.

(** The entry references [es] are objects that [h0] did not have, each an
    entry of [h] whose layout is one of the references [refs]. *)
Definition entries_point_to {qubit num : Type} (refs : list positive)
    (h0 h : heap qubit num) (es : list positive) : Prop :=
  forall e, In e es ->
    h0 !! e = None /\
    exists r score, h !! e = Some (Entry r score) /\ In r refs.

(** ** The counts drawn by [plot_counts_barplot]

    The data part of the function: which bitstrings are drawn, in which
    order, how high and how opaque.  The drawing itself is matplotlib's. *)

(** [sorted(l, key=key, reverse=True)]: the list is reversed, sorted and
    reversed again, so that items with equal keys keep their order. *)
Definition sorted_reverse {A num : Type} `{Number num} (key : A -> num)
    (l : list A) : list A :=
  rev (sorted key (rev l)).

(** [d[k] = v] on a dict kept as its items in insertion order: a key that is
    there keeps its place and takes the new value. *)
Fixpoint dict_setitem {K V : Type} `{EqDecision K} (d : list (K * V))
    (k : K) (v : V) : list (K * V) :=
  match d with
  | [] => [(k, v)]
  | (k', v') :: d' =>
    if bool_decide (k' = k) then (k', v) :: d'
    else (k', v') :: dict_setitem d' k v
  end.

(** [dict(items)]. *)
Definition py_dict {K V : Type} `{EqDecision K} (items : list (K * V))
  : list (K * V) :=
  fold_left (fun d item => dict_setitem d (fst item) (snd item)) items [].

Section CountsBarplot.
Context {num : Type} `{Number num}.

(** [dict(sorted(counts_dict.items(), key=lambda item: item[1],
    reverse=True)[:top_n])]. *)
Definition sorted_counts (counts_dict : list (string * num)) (top_n : Z)
  : list (string * num) :=
  py_dict (py_slice_to (sorted_reverse snd counts_dict) top_n).

(** [optimal_solutions and state in optimal_solutions], as a truth value. *)
Definition is_optimal (optimal_solutions : option (list string))
    (state : string) : bool :=
  match optimal_solutions with
  | None => false
  | Some solutions => py_in state solutions
  end.

(** One call of [ax.bar]: position, height and opacity. *)
Record Bar : Type := { bar_x : Z; bar_height : num; bar_alpha : Q }.

(** The bars of [for i, state in enumerate(states)]. *)
Definition counts_bars (counts_dict : list (string * num))
    (optimal_solutions : option (list string)) (top_n : Z) : res (list Bar) :=
  let sorted_counts := sorted_counts counts_dict top_n in
  let states := map fst sorted_counts in
  let values := map snd sorted_counts in
  map_res (fun '(i, state) =>
             let* value := py_index values i in
             Ok {| bar_x := i; bar_height := value;
                   bar_alpha := if is_optimal optimal_solutions state
                                then 1%Q else (1 # 2)%Q |})
    (combine (py_range 0 (Z.of_nat (length states))) states).

End CountsBarplot.

(** The counts of four bitstrings, two of them equally frequent. *)
Definition four_counts : list (string * Z) :=
  [("00", 5); ("01", 9); ("10", 5); ("11", 1)].

(** * Properties *)

(** ** Loops and ranges *)

Lemma py_range_length lo hi : length (py_range lo hi) = Z.to_nat (hi - lo).
Proof. unfold py_range. by rewrite length_map, length_seq. Qed.

Lemma py_range_In lo hi x : In x (py_range lo hi) <-> lo <= x < hi.
Proof.
  unfold py_range. rewrite in_map_iff. split.
  - intros (i & <- & Hi). apply in_seq in Hi. lia.
  - intros H. exists (Z.to_nat (x - lo)). split; [lia|]. apply in_seq. lia.
Qed.

Lemma py_range_empty lo hi : hi <= lo -> py_range lo hi = [].
Proof.
  intros H. unfold py_range. replace (Z.to_nat (hi - lo)) with 0%nat by lia.
  reflexivity.
Qed.

Lemma map_seq_from_0 {A : Type} (f : nat -> A) s len :
  map f (seq s len) = map (fun i => f (s + i)%nat) (seq 0 len).
Proof.
  revert f s. induction len as [|len IH]; intros f s; simpl; [reflexivity|].
  rewrite Nat.add_0_r. f_equal.
  rewrite (IH f (S s)), (IH (fun i => f (s + i)%nat) 1%nat).
  apply map_ext. intros i. f_equal. lia.
Qed.

Lemma py_range_app lo mid hi :
  lo <= mid <= hi -> py_range lo hi = py_range lo mid ++ py_range mid hi.
Proof.
  intros H. unfold py_range.
  replace (Z.to_nat (hi - lo))
    with (Z.to_nat (mid - lo) + Z.to_nat (hi - mid))%nat by lia.
  rewrite seq_app, map_app. f_equal.
  rewrite map_seq_from_0. apply map_ext. intros i. lia.
Qed.

(** ** The two linear chains *)

Example create_linear_chains_3 :
  create_linear_chains 3 =
  Ok {| nodes := [0; 1; 2; 3; 4; 5];
        edge_list := [(0, 1); (1, 2); (3, 4); (4, 5)] |}.
Proof. reflexivity. Qed.

Example create_linear_chains_neg : create_linear_chains (-2) = Ok empty_graph.
Proof. reflexivity. Qed.

Lemma add_nodes_spec G objs :
  add_nodes G objs = {| nodes := nodes G ++ objs; edge_list := edge_list G |}.
Proof.
  unfold add_nodes. revert G. induction objs as [|x objs IH]; intros G; simpl.
  - rewrite app_nil_r. by destruct G.
  - rewrite IH. simpl. by rewrite <- app_assoc.
Qed.

Lemma add_edge_ok G a b :
  0 <= a < num_nodes G -> 0 <= b < num_nodes G ->
  add_edge G a b =
  Ok {| nodes := nodes G; edge_list := edge_list G ++ [(a, b)] |}.
Proof.
  intros Ha Hb. unfold add_edge.
  replace (a <? 0) with false by lia. replace (b <? 0) with false by lia.
  replace (a <? num_nodes G) with true by lia.
  replace (b <? num_nodes G) with true by lia. reflexivity.
Qed.

(** A run of [add_edge(n, n + 1)] over valid indices never raises and
    appends the edges in order. *)
Lemma add_chain_edges_ok l G :
  (forall n, In n l -> 0 <= n /\ n + 1 < num_nodes G) ->
  for_each l (fun n G => add_edge G n (n + 1)) G =
  Ok {| nodes := nodes G;
        edge_list := edge_list G ++ map (fun n => (n, n + 1)) l |}.
Proof.
  revert G. induction l as [|x l IH]; intros G Hl; simpl.
  - rewrite app_nil_r. by destruct G.
  - destruct (Hl x (or_introl eq_refl)) as [Hx0 Hx1].
    rewrite add_edge_ok by lia. simpl. rewrite IH.
    + simpl. by rewrite <- app_assoc.
    + intros n Hn. unfold num_nodes; simpl. apply Hl. by right.
Qed.

Lemma create_linear_chains_closed num_orbitals :
  create_linear_chains num_orbitals = Ok (two_chains num_orbitals).
Proof.
  unfold create_linear_chains, two_chains.
  rewrite add_nodes_spec. simpl.
  rewrite add_chain_edges_ok.
  2:{ intros n Hn. apply py_range_In in Hn. unfold num_nodes. simpl.
      rewrite py_range_length. lia. }
  simpl. rewrite add_nodes_spec. simpl.
  rewrite add_chain_edges_ok.
  2:{ intros n Hn. apply py_range_In in Hn. unfold num_nodes. simpl.
      rewrite length_app, !py_range_length. lia. }
  reflexivity.
Qed.

Lemma two_chains_edge n u v :
  In (u, v) (edge_list (two_chains n)) <->
  v = u + 1 /\ (0 <= u < n - 1 \/ n <= u < 2 * n - 1).
Proof.
  unfold two_chains; simpl. rewrite in_app_iff, !in_map_iff. split.
  - intros [(x & Hx & Hin)|(x & Hx & Hin)]; apply py_range_In in Hin;
      inversion Hx; subst; lia.
  - intros [-> [H|H]]; [left|right]; exists u; split; auto;
      apply py_range_In; lia.
Qed.

Lemma two_chains_adjacent n u v :
  adjacent (two_chains n) u v <->
  (v = u + 1 /\ (0 <= u < n - 1 \/ n <= u < 2 * n - 1)) \/
  (u = v + 1 /\ (0 <= v < n - 1 \/ n <= v < 2 * n - 1)).
Proof. unfold adjacent. by rewrite !two_chains_edge. Qed.

(** C6: for [num_orbitals >= 1] the graph of [create_linear_chains] has
    [2 * num_orbitals] nodes (node [i] carrying the payload [i]) and
    [2 * (num_orbitals - 1)] edges; the nodes [0 .. num_orbitals-1] form a
    path, the nodes [num_orbitals .. 2*num_orbitals-1] form a path, and no
    edge joins a node of the first chain to a node of the second. *)
Theorem create_linear_chains_two_disconnected_paths (num_orbitals : Z) :
  1 <= num_orbitals ->
  exists G,
    create_linear_chains num_orbitals = Ok G /\
    nodes G = py_range 0 (2 * num_orbitals) /\
    num_nodes G = 2 * num_orbitals /\
    Z.of_nat (length (edge_list G)) = 2 * (num_orbitals - 1) /\
    is_path G 0 num_orbitals /\
    is_path G num_orbitals (2 * num_orbitals) /\
    (forall u v, adjacent G u v ->
       0 <= u < 2 * num_orbitals /\ 0 <= v < 2 * num_orbitals /\
       (u < num_orbitals <-> v < num_orbitals)).
Proof.
  intros Hn. exists (two_chains num_orbitals).
  split; [apply create_linear_chains_closed|].
  assert (Hnodes : nodes (two_chains num_orbitals)
                   = py_range 0 (2 * num_orbitals)).
  { unfold two_chains; simpl. symmetry. apply py_range_app. lia. }
  split; [exact Hnodes|].
  split. { unfold num_nodes. rewrite Hnodes, py_range_length. lia. }
  split. { unfold two_chains; simpl.
           rewrite length_app, !length_map, !py_range_length. lia. }
  split; [|split].
  - intros u v Hu Hv. rewrite two_chains_adjacent. lia.
  - intros u v Hu Hv. rewrite two_chains_adjacent. lia.
  - intros u v. rewrite two_chains_adjacent. lia.
Qed.

Lemma create_linear_chains_two_disconnected_paths_witness :
  exists G,
    create_linear_chains 3 = Ok G /\
    nodes G = py_range 0 (2 * 3) /\
    num_nodes G = 2 * 3 /\
    Z.of_nat (length (edge_list G)) = 2 * (3 - 1) /\
    is_path G 0 3 /\
    is_path G 3 (2 * 3) /\
    (forall u v, adjacent G u v ->
       0 <= u < 2 * 3 /\ 0 <= v < 2 * 3 /\ (u < 3 <-> v < 3)).
Proof. apply (create_linear_chains_two_disconnected_paths 3). lia. Defined.

(** ** The zigzag search *)

Lemma for_each_invariant {A S : Type} (P : S -> Prop) (l : list A)
    (body : A -> S -> res S) (s : S) :
  P s ->
  (forall x s, In x l -> P s -> exists s', body x s = Ok s' /\ P s') ->
  exists s', for_each l body s = Ok s' /\ P s'.
Proof.
  revert s. induction l as [|x l IH]; intros s Hs Hbody; simpl.
  - eauto.
  - destruct (Hbody x s (or_introl eq_refl) Hs) as (s1 & -> & Hs1). simpl.
    apply IH; [exact Hs1|]. intros y t Hy. apply Hbody. by right.
Qed.

Lemma graph_extension_refl G : graph_extension G G.
Proof.
  exists [], []. rewrite !app_nil_r. repeat split; auto. intros a b [].
Qed.

Lemma num_nodes_add_node G obj : num_nodes (add_node G obj) = num_nodes G + 1.
Proof. unfold num_nodes, add_node; simpl. rewrite length_app; simpl. lia. Qed.

(** Below one iteration the candidate is the unchanged graph. *)
Lemma zigzag_candidate_bare num_orbitals G num_iters :
  num_iters < 1 -> zigzag_candidate num_orbitals G num_iters = Ok (G, 0).
Proof.
  intros H. unfold zigzag_candidate. rewrite py_range_empty by lia. reflexivity.
Qed.

(** On the two chains the candidate never raises; it extends the chains by
    [num_alpha_beta_qubits] nodes. *)
Lemma zigzag_candidate_extension num_orbitals G num_iters :
  num_nodes G = 2 * num_orbitals -> num_iters <= num_orbitals ->
  exists G_new k,
    zigzag_candidate num_orbitals G num_iters = Ok (G_new, k) /\
    graph_extension G G_new /\ num_nodes G_new = 2 * num_orbitals + k /\ 0 <= k.
Proof.
  intros HG Hit. unfold zigzag_candidate.
  destruct (for_each_invariant
    (fun st : PyGraph * Z => graph_extension G (fst st) /\
       num_nodes (fst st) = 2 * num_orbitals + snd st /\ 0 <= snd st)
    (py_range 0 num_iters) (add_connecting_qubit num_orbitals) (G, 0))
    as ([G_new k] & Heq & Hext & Hn & Hk).
  - simpl. split; [apply graph_extension_refl|lia].
  - intros n [G1 k1] Hn (Hext & Hnum & Hk). simpl in *.
    apply py_range_In in Hn.
    destruct (n mod 4 =? 0); [|eexists; split; [reflexivity|]; simpl; auto].
    rewrite add_edge_ok by (rewrite ?num_nodes_add_node; lia). simpl.
    rewrite add_edge_ok
      by (unfold num_nodes in *; simpl; rewrite length_app; simpl; lia).
    simpl. eexists; split; [reflexivity|]. simpl. split; [|split].
    + destruct Hext as (mn & me & Hmn & Hme & Htouch).
      exists (mn ++ [2 * num_orbitals + k1]),
        ((me ++ [(n, 2 * num_orbitals + k1)]) ++
         [(2 * num_orbitals + k1, n + num_orbitals)]).
      rewrite Hmn, Hme, <- !app_assoc. repeat split; auto.
      intros a b Hin. rewrite !in_app_iff in Hin; simpl in Hin.
      destruct Hin as [Hin|[[Hin|[]]|[Hin|[]]]]; [eauto|..];
        inversion Hin; subst; lia.
    + unfold num_nodes in *; simpl. rewrite length_app; simpl. lia.
    + lia.
  - exists G_new, k. auto.
Qed.

(** An embedding of an extension restricts to an embedding of the graph. *)
Lemma subgraph_iso_extension first G G' :
  graph_extension G G' -> subgraph_iso first G' -> subgraph_iso first G.
Proof.
  intros (mn & me & Hmn & Hme & Htouch) (f & Hrange & Hinj & Hadj).
  assert (Hle : num_nodes G <= num_nodes G').
  { unfold num_nodes. rewrite Hmn, length_app. lia. }
  assert (Hsame : forall u v, 0 <= u < num_nodes G -> 0 <= v < num_nodes G ->
            (adjacent G' u v <-> adjacent G u v)).
  { intros u v Hu Hv. unfold adjacent. rewrite Hme, !in_app_iff. split.
    - intros [[H|H]|[H|H]]; auto; apply Htouch in H; lia.
    - tauto. }
  exists f. split; [|split].
  - intros u Hu. apply Hrange. lia.
  - intros u v Hu Hv. apply Hinj; lia.
  - intros u v Hu Hv. rewrite <- Hsame by lia. apply Hadj; lia.
Qed.

Lemma num_nodes_two_chains n : 0 <= n -> num_nodes (two_chains n) = 2 * n.
Proof.
  intros H. unfold num_nodes, two_chains; simpl.
  rewrite length_app, !py_range_length. lia.
Qed.

Lemma zigzag_candidate_two_chains num_orbitals num_iters :
  num_iters <= num_orbitals ->
  exists G_new k,
    zigzag_candidate num_orbitals (two_chains num_orbitals) num_iters
      = Ok (G_new, k) /\
    graph_extension (two_chains num_orbitals) G_new /\ 0 <= k /\
    (0 < k -> num_nodes G_new = 2 * num_orbitals + k /\ 1 <= num_orbitals).
Proof.
  intros Hit. destruct (Z_lt_le_dec num_iters 1) as [Hlt|Hge].
  - exists (two_chains num_orbitals), 0.
    split; [by apply zigzag_candidate_bare|].
    split; [apply graph_extension_refl|lia].
  - destruct (zigzag_candidate_extension num_orbitals (two_chains num_orbitals)
                num_iters) as (G_new & k & Heq & Hext & Hn & Hk); auto.
    { apply num_nodes_two_chains. lia. }
    exists G_new, k. repeat split; auto. lia.
Qed.

(** What a finished search returns: the candidate of some iteration, which
    the library accepted. *)
Lemma zigzag_search_result `{Rustworkx} fuel num_orbitals backend G num_iters
    G_new k :
  zigzag_search fuel num_orbitals backend G num_iters = Some (Ok (G_new, k)) ->
  exists i, i <= num_iters /\
    zigzag_candidate num_orbitals G i = Ok (G_new, k) /\
    is_subgraph_isomorphic backend G_new = true.
Proof.
  revert num_iters. induction fuel as [|fuel IH]; intros num_iters; simpl.
  - discriminate.
  - destruct (zigzag_candidate num_orbitals G num_iters) as [[G1 k1]|e] eqn:Hc;
      [|discriminate].
    destruct (is_subgraph_isomorphic backend G1) eqn:Hiso.
    + intros [= <- <-]. exists num_iters. split; [lia|]. auto.
    + intros Hs. destruct (IH _ Hs) as (i & Hi & Hci & Hisoi).
      exists i. split; [lia|]. auto.
Qed.

Lemma zigzag_search_terminates `{Rustworkx} num_orbitals backend (m : nat) :
  is_subgraph_isomorphic backend (two_chains num_orbitals) = true ->
  forall num_iters, num_iters <= num_orbitals -> num_iters <= Z.of_nat m ->
  exists G_new k,
    zigzag_search (S m) num_orbitals backend (two_chains num_orbitals) num_iters
    = Some (Ok (G_new, k)).
Proof.
  intros Hbare. induction m as [|m IH]; intros num_iters Hno Hm.
  - simpl. rewrite zigzag_candidate_bare by lia. rewrite Hbare. eauto.
  - destruct (zigzag_candidate_two_chains num_orbitals num_iters Hno)
      as (G1 & k1 & Hc & _).
    cbn [zigzag_search]. rewrite Hc.
    destruct (is_subgraph_isomorphic backend G1); [eauto|].
    apply IH; lia.
Qed.

Lemma zigzag_search_diverges `{RustworkxSpec} num_orbitals backend :
  is_subgraph_isomorphic backend (two_chains num_orbitals) = false ->
  forall fuel num_iters, num_iters <= num_orbitals ->
    zigzag_search fuel num_orbitals backend (two_chains num_orbitals) num_iters
    = None.
Proof.
  intros Hbare. induction fuel as [|fuel IH]; intros num_iters Hno; simpl.
  - reflexivity.
  - destruct (zigzag_candidate_two_chains num_orbitals num_iters Hno)
      as (G1 & k1 & -> & Hext & _).
    destruct (is_subgraph_isomorphic backend G1) eqn:Hiso.
    + apply is_subgraph_isomorphic_spec in Hiso.
      apply (subgraph_iso_extension _ _ _ Hext) in Hiso.
      apply is_subgraph_isomorphic_spec in Hiso. congruence.
    + apply IH. lia.
Qed.

(** C3: whenever [create_lucj_zigzag_layout] returns a graph, that graph is
    the candidate of one of the loop's iterations and the library's
    [is_subgraph_isomorphic] answered [True] for it against the backend
    coupling graph; with the library meeting its documentation, the graph
    embeds into the coupling graph.  The test itself is the [Rustworkx]
    parameter: no definition of this development decides it. *)
Theorem create_lucj_zigzag_layout_isomorphic `{RustworkxSpec}
    (fuel : nat) (num_orbitals : Z) (backend_coupling_graph G_new : PyGraph)
    (num_alpha_beta_qubits : Z) :
  create_lucj_zigzag_layout fuel num_orbitals backend_coupling_graph
    = Some (Ok (G_new, num_alpha_beta_qubits)) ->
  is_subgraph_isomorphic backend_coupling_graph G_new = true /\
  subgraph_iso backend_coupling_graph G_new /\
  exists G num_iters,
    create_linear_chains num_orbitals = Ok G /\ num_iters <= num_orbitals /\
    zigzag_candidate num_orbitals G num_iters
      = Ok (G_new, num_alpha_beta_qubits).
Proof.
  unfold create_lucj_zigzag_layout.
  destruct (create_linear_chains num_orbitals) as [G|e] eqn:HG; [|discriminate].
  intros Hs. apply zigzag_search_result in Hs as (i & Hi & Hc & Hiso).
  split; [exact Hiso|]. split; [by apply is_subgraph_isomorphic_spec|].
  exists G, i. auto.
Qed.

(** C10: when the bare two chains embed into the backend coupling graph,
    the search returns, on any fuel above [max 0 num_orbitals]; when they do
    not, the search returns for no amount of fuel; and every iteration with
    [num_iters < 1] tests the bare two chains again.  The library is taken
    to decide the embedding as it documents. *)
Theorem create_lucj_zigzag_layout_termination `{RustworkxSpec}
    (num_orbitals : Z) (backend_coupling_graph G : PyGraph) :
  create_linear_chains num_orbitals = Ok G ->
  (subgraph_iso backend_coupling_graph G ->
   forall fuel, (Z.to_nat num_orbitals < fuel)%nat ->
   exists G_new k,
     create_lucj_zigzag_layout fuel num_orbitals backend_coupling_graph
     = Some (Ok (G_new, k))) /\
  (~ subgraph_iso backend_coupling_graph G ->
   forall fuel,
     create_lucj_zigzag_layout fuel num_orbitals backend_coupling_graph
     = None) /\
  (forall num_iters, num_iters < 1 ->
     zigzag_candidate num_orbitals G num_iters = Ok (G, 0)).
Proof.
  rewrite create_linear_chains_closed. intros [= <-].
  unfold create_lucj_zigzag_layout. rewrite create_linear_chains_closed.
  split; [|split].
  - intros Hbare%is_subgraph_isomorphic_spec fuel Hfuel.
    destruct fuel as [|m]; [lia|].
    apply zigzag_search_terminates; auto; lia.
  - intros Hbare fuel. apply zigzag_search_diverges; [|lia].
    destruct (is_subgraph_isomorphic _ _) eqn:Hiso; [|reflexivity].
    by apply is_subgraph_isomorphic_spec in Hiso.
  - intros num_iters Hlt. by apply zigzag_candidate_bare.
Qed.

(** ** The reference search meets the library's documentation *)

Lemma adjacentb_spec G u v : adjacentb G u v = true <-> adjacent G u v.
Proof.
  unfold adjacentb, adjacent. rewrite existsb_exists. split.
  - intros ([a b] & Hin & Hab). simpl in Hab.
    apply orb_prop in Hab as [Hab|Hab]; apply andb_prop in Hab as [Ha Hb];
      apply Z.eqb_eq in Ha, Hb; subst; auto.
  - intros [Hin|Hin]; eexists; (split; [exact Hin|]); simpl;
      rewrite !Z.eqb_refl; simpl; auto using orb_true_r.
Qed.

Lemma assignments_spec domain codomain img :
  In img (assignments domain codomain) <->
  length img = domain /\ (forall x, In x img -> In x codomain).
Proof.
  revert img. induction domain as [|d IH]; intros img; simpl.
  - split.
    + intros [<-|[]]. split; [reflexivity|intros x []].
    + intros [Hlen _]. destruct img; [auto|discriminate].
  - rewrite in_flat_map. split.
    + intros (tl & Htl & Hin). apply in_map_iff in Hin as (x & <- & Hx).
      apply IH in Htl as [Hlen Hall]. simpl. split; [lia|].
      intros y [<-|Hy]; auto.
    + intros [Hlen Hall]. destruct img as [|x tl]; [discriminate|].
      exists tl. split.
      * apply IH. split; [simpl in Hlen; lia|]. intros y Hy. apply Hall. by right.
      * apply in_map_iff. exists x. split; auto. apply Hall. by left.
Qed.

Lemma py_range_NoDup lo hi : NoDup (py_range lo hi).
Proof.
  unfold py_range. change (map ?f ?l) with (f <$> l).
  apply NoDup_fmap_2; [|apply NoDup_seq]. intros i j Hij. lia.
Qed.

Lemma image_of_map (f : Z -> Z) m u :
  0 <= u < m -> image_of (map f (py_range 0 m)) u = f u.
Proof.
  intros Hu. unfold image_of, py_range.
  rewrite map_map. rewrite (nth_indep _ 0 (f (0 + Z.of_nat 0))).
  2:{ rewrite length_map, length_seq. lia. }
  rewrite (map_nth (fun i => f (0 + Z.of_nat i))), seq_nth by lia.
  f_equal. lia.
Qed.

Lemma NoDup_image_of img :
  NoDup img <->
  (forall u v, 0 <= u < Z.of_nat (length img) ->
     0 <= v < Z.of_nat (length img) ->
     image_of img u = image_of img v -> u = v).
Proof.
  rewrite NoDup_alt. unfold image_of. split.
  - intros Hnd u v Hu Hv Huv.
    destruct (lookup_lt_is_Some_2 img (Z.to_nat u)) as [x Hx]; [lia|].
    destruct (lookup_lt_is_Some_2 img (Z.to_nat v)) as [y Hy]; [lia|].
    rewrite (nth_lookup_Some _ _ _ _ Hx), (nth_lookup_Some _ _ _ _ Hy) in Huv.
    subst y. specialize (Hnd _ _ _ Hx Hy). lia.
  - intros Hinj i j x Hi Hj.
    pose proof (lookup_lt_Some _ _ _ Hi). pose proof (lookup_lt_Some _ _ _ Hj).
    apply Nat2Z.inj. apply Hinj; [lia|lia|].
    rewrite !Nat2Z.id.
    by rewrite (nth_lookup_Some _ _ _ _ Hi), (nth_lookup_Some _ _ _ _ Hj).
Qed.

Lemma embedsb_spec first second img :
  length img = length (nodes second) ->
  embedsb first second img = true <->
  (forall u v, 0 <= u < num_nodes second -> 0 <= v < num_nodes second ->
     image_of img u = image_of img v -> u = v) /\
  (forall u v, 0 <= u < num_nodes second -> 0 <= v < num_nodes second ->
     (adjacent second u v <-> adjacent first (image_of img u) (image_of img v))).
Proof.
  intros Hlen. unfold embedsb, num_nodes.
  rewrite andb_true_iff, bool_decide_eq_true, NoDup_image_of, Hlen.
  apply and_iff_compat_l.
  assert (Hadj : forall u v,
    Bool.eqb (adjacentb second u v)
      (adjacentb first (image_of img u) (image_of img v)) = true <->
    (adjacent second u v <-> adjacent first (image_of img u) (image_of img v))).
  { intros u v. rewrite eqb_true_iff, <- !adjacentb_spec.
    destruct (adjacentb second u v), (adjacentb first _ _); intuition congruence. }
  rewrite forallb_forall. split.
  - intros Hall u v Hu Hv. apply Hadj.
    assert (Hin : In u (py_range 0 (Z.of_nat (length (nodes second)))))
      by (apply py_range_In; lia).
    specialize (Hall u Hin). rewrite forallb_forall in Hall.
    apply Hall. apply py_range_In; lia.
  - intros Hall u Hu. apply py_range_In in Hu. apply forallb_forall.
    intros v Hv. apply py_range_In in Hv. apply Hadj. apply Hall; lia.
Qed.

Lemma embeddings_spec first second img :
  In img (embeddings first second) <->
  length img = length (nodes second) /\
  (forall x, In x img -> 0 <= x < num_nodes first) /\
  embedsb first second img = true.
Proof.
  unfold embeddings. rewrite filter_In, assignments_spec.
  setoid_rewrite py_range_In. tauto.
Qed.

Lemma exhaustive_rustworkx_spec : @RustworkxSpec exhaustive_rustworkx.
Proof.
  constructor. intros first second. simpl. split.
  - destruct (embeddings first second) as [|img rest] eqn:Hemb; [discriminate|].
    intros _.
    assert (Hin : In img (embeddings first second)) by (rewrite Hemb; by left).
    apply embeddings_spec in Hin as (Hlen & Hcod & Hemb').
    apply embedsb_spec in Hemb' as [Hinj Hadj]; [|exact Hlen].
    exists (image_of img). repeat split; auto; try (apply Hadj; auto).
    + apply Hcod. apply nth_In. unfold num_nodes in *. lia.
    + apply Hcod. apply nth_In. unfold num_nodes in *. lia.
  - intros (f & Hrange & Hinj & Hadj).
    assert (Hin : In (map f (py_range 0 (num_nodes second)))
                    (embeddings first second)).
    { apply embeddings_spec.
      assert (Hlen : length (map f (py_range 0 (num_nodes second)))
                     = length (nodes second)).
      { rewrite length_map, py_range_length. unfold num_nodes. lia. }
      split; [exact Hlen|]. split.
      - intros x Hx. apply in_map_iff in Hx as (u & <- & Hu).
        apply py_range_In in Hu. by apply Hrange.
      - apply embedsb_spec; [exact Hlen|]. split.
        + intros u v Hu Hv. rewrite !image_of_map by lia. by apply Hinj.
        + intros u v Hu Hv. rewrite !image_of_map by lia. by apply Hadj. }
    destruct (embeddings first second); [destruct Hin|reflexivity].
Qed.

Example path3_accepts_zigzag_1 :
  @create_lucj_zigzag_layout exhaustive_rustworkx 1 1 path3 =
  Some (Ok ({| nodes := [0; 1; 2]; edge_list := [(0, 2); (2, 1)] |}, 1)).
Proof. vm_compute. reflexivity. Qed.

Lemma create_lucj_zigzag_layout_isomorphic_witness :
  let G_new := {| nodes := [0; 1; 2]; edge_list := [(0, 2); (2, 1)] |} in
  @is_subgraph_isomorphic exhaustive_rustworkx path3 G_new = true /\
  subgraph_iso path3 G_new /\
  exists G num_iters,
    create_linear_chains 1 = Ok G /\ num_iters <= 1 /\
    zigzag_candidate 1 G num_iters = Ok (G_new, 1).
Proof.
  apply (@create_lucj_zigzag_layout_isomorphic exhaustive_rustworkx
           exhaustive_rustworkx_spec 1%nat 1 path3).
  vm_compute. reflexivity.
Defined.

Lemma create_lucj_zigzag_layout_termination_witness :
  (forall fuel, (Z.to_nat 1 < fuel)%nat ->
   exists G_new k,
     @create_lucj_zigzag_layout exhaustive_rustworkx fuel 1 path3
     = Some (Ok (G_new, k))) /\
  (forall fuel,
     @create_lucj_zigzag_layout exhaustive_rustworkx fuel 1 single_coupling
     = None).
Proof.
  split.
  - apply (@create_lucj_zigzag_layout_termination exhaustive_rustworkx
             exhaustive_rustworkx_spec 1 path3 (two_chains 1) eq_refl).
    apply (@is_subgraph_isomorphic_spec _ exhaustive_rustworkx_spec).
    vm_compute. reflexivity.
  - apply (@create_lucj_zigzag_layout_termination exhaustive_rustworkx
             exhaustive_rustworkx_spec 1 single_coupling (two_chains 1)
             eq_refl).
    intros Hiso.
    apply (@is_subgraph_isomorphic_spec _ exhaustive_rustworkx_spec) in Hiso.
    vm_compute in Hiso. discriminate Hiso.
Defined.

(** ** Layout scoring *)

Lemma for_each_ok_invariant {A S : Type} (P : S -> Prop) (l : list A)
    (body : A -> S -> res S) (s s' : S) :
  P s ->
  (forall x t t', In x l -> P t -> body x t = Ok t' -> P t') ->
  for_each l body s = Ok s' -> P s'.
Proof.
  revert s. induction l as [|x l IH]; intros s Hs Hbody; simpl.
  - by intros [= <-].
  - destruct (body x s) as [t|e] eqn:Hb; simpl; [|discriminate].
    apply IH.
    + eapply Hbody; eauto. by left.
    + intros y u u' Hy. apply Hbody. by right.
Qed.

Lemma py_in_spec {A : Type} `{EqDecision A} (x : A) (l : list A) :
  py_in x l = true <-> In x l.
Proof.
  unfold py_in. rewrite existsb_exists. split.
  - intros (y & Hy & Heq). apply bool_decide_eq_true in Heq. by subst.
  - intros Hin. exists x. split; [exact Hin|]. by apply bool_decide_eq_true.
Qed.

Lemma In_insert_by_key {A num : Type} `{Number num} (key : A -> num) x y l :
  In y (insert_by_key key x l) <-> y = x \/ In y l.
Proof.
  induction l as [|z l IH]; simpl.
  - intuition congruence.
  - destruct (num_lt (key z) (key x)); simpl; rewrite ?IH; intuition congruence.
Qed.

Lemma In_sorted {A num : Type} `{Number num} (key : A -> num) y l :
  In y (sorted key l) <-> In y l.
Proof.
  induction l as [|x l IH]; simpl; [tauto|].
  rewrite In_insert_by_key, IH. intuition congruence.
Qed.

Lemma insert_by_key_sorted {A num : Type} `{NumberOrder num} (key : A -> num)
    x l :
  StronglySorted (fun a b => num_le (key a) (key b)) l ->
  StronglySorted (fun a b => num_le (key a) (key b)) (insert_by_key key x l).
Proof.
  induction 1 as [|y l Hl IH Hy]; simpl.
  - constructor; constructor.
  - destruct (num_lt (key y) (key x)) eqn:Hlt.
    + constructor; [exact IH|]. apply List.Forall_forall. intros z Hz.
      apply In_insert_by_key in Hz as [->|Hz].
      * by apply num_lt_asym.
      * rewrite List.Forall_forall in Hy. by apply Hy.
    + constructor; [by constructor|]. constructor; [exact Hlt|].
      apply List.Forall_forall. intros z Hz. rewrite List.Forall_forall in Hy.
      apply (num_le_trans _ (key y)); [exact Hlt|by apply Hy].
Qed.

Lemma sorted_sorted {A num : Type} `{NumberOrder num} (key : A -> num) l :
  StronglySorted (fun a b => num_le (key a) (key b)) (sorted key l).
Proof.
  induction l as [|x l IH]; simpl; [constructor|].
  by apply insert_by_key_sorted.
Qed.

Section ScoringFacts.
Context {qubit num : Type} `{EqDecision qubit} `{Number num}.
Implicit Types (layout : list qubit) (props : BackendProperties qubit num).
Implicit Types (backend : BackendV2 qubit num).

Lemma has_bad_readout_qubit_false layout bad_readout_qubits :
  has_bad_readout_qubit layout bad_readout_qubits = false ->
  forall q, In q layout -> ~ In q bad_readout_qubits.
Proof.
  unfold has_bad_readout_qubit. intros Hno q Hq Hbad.
  assert (existsb (fun q => py_in q bad_readout_qubits) layout = true);
    [|congruence].
  apply existsb_exists. exists q. split; [exact Hq|]. by apply py_in_spec.
Qed.

Lemma uses_bad_czgate_edge_false layout bad_czgate_edges virtual_edges :
  uses_bad_czgate_edge layout bad_czgate_edges virtual_edges = Ok false ->
  forall edge, In edge virtual_edges ->
    off_bad_czgate_edges layout bad_czgate_edges edge.
Proof.
  induction virtual_edges as [|e0 rest IH]; simpl; [intros _ edge []|].
  destruct (py_index layout (fst e0)) as [p0|] eqn:H0; simpl; [|discriminate].
  destruct (py_index layout (snd e0)) as [p1|] eqn:H1; simpl; [|discriminate].
  destruct (py_in (PyTuple [p0; p1]) bad_czgate_edges) eqn:Hf; simpl; [discriminate|].
  destruct (py_in (PyTuple [p1; p0]) bad_czgate_edges) eqn:Hr; simpl; [discriminate|].
  intros Hrest edge [<-|Hin]; [|by apply IH].
  exists p0, p1. rewrite <- !py_in_spec. repeat split; congruence.
Qed.


Lemma total_2q_error_sum props two_q_gate_name layout virtual_edges t0 t :
  for_each virtual_edges (add_2q_error props two_q_gate_name layout) t0 = Ok t ->
  exists ges,
    Forall2 (edge_error_is props two_q_gate_name layout) virtual_edges ges /\
    t = fold_left num_add ges t0.
Proof.
  revert t0. induction virtual_edges as [|edge rest IH]; intros t0; simpl.
  - intros [= <-]. exists []. split; [constructor|reflexivity].
  - unfold add_2q_error at 1.
    destruct (py_index layout (fst edge)) as [p0|] eqn:H0; simpl; [|discriminate].
    destruct (py_index layout (snd edge)) as [p1|] eqn:H1; simpl; [|discriminate].
    destruct (gate_error props two_q_gate_name (p0, p1)) as [ge|e] eqn:Hf; simpl.
    + intros Hrest. destruct (IH _ Hrest) as (ges & Hges & ->).
      exists (ge :: ges). split; [|reflexivity].
      constructor; [|exact Hges]. exists p0, p1. auto.
    + destruct (gate_error props two_q_gate_name (p1, p0)) as [ge|e'] eqn:Hr;
        simpl; [|discriminate].
      intros Hrest. destruct (IH _ Hrest) as (ges & Hges & ->).
      exists (ge :: ges). split; [|reflexivity].
      constructor; [|exact Hges]. exists p0, p1. eauto 6.
Qed.

Lemma total_measurement_error_sum props layout t0 t :
  for_each layout (add_measurement_error props) t0 = Ok t ->
  exists ms,
    Forall2 (fun q m => readout_error props q = Ok m) layout ms /\
    t = fold_left num_add ms t0.
Proof.
  revert t0. induction layout as [|q rest IH]; intros t0; simpl.
  - intros [= <-]. exists []. split; [constructor|reflexivity].
  - unfold add_measurement_error at 1.
    destruct (readout_error props q) as [m|e] eqn:Hm; simpl; [|discriminate].
    intros Hrest. destruct (IH _ Hrest) as (ms & Hms & ->).
    exists (m :: ms). split; [|reflexivity]. by constructor.
Qed.

Lemma scoring_entries backend virtual_edges physical_layouts two_q_gate_name
    bad_readout_qubits bad_czgate_edges scores :
  lightweight_layout_error_scoring backend virtual_edges physical_layouts
    two_q_gate_name bad_readout_qubits bad_czgate_edges = Ok scores ->
  forall entry, In entry scores ->
    scored_entry (properties backend) virtual_edges two_q_gate_name
      bad_readout_qubits bad_czgate_edges physical_layouts entry.
Proof.
  unfold lightweight_layout_error_scoring.
  destruct (for_each physical_layouts _ []) as [unsorted|e] eqn:Hloop;
    simpl; [|discriminate].
  intros [= <-] entry Hentry. apply In_sorted in Hentry.
  revert entry Hentry.
  eapply (for_each_ok_invariant
    (fun acc => forall entry, In entry acc ->
       scored_entry (properties backend) virtual_edges two_q_gate_name
         bad_readout_qubits bad_czgate_edges physical_layouts entry));
    [|intros layout acc acc' Hlayout Hacc|exact Hloop];
    [intros entry Hnil; destruct Hnil|].
  unfold score_layout.
  destruct (has_bad_readout_qubit layout bad_readout_qubits) eqn:Hbr;
    [by intros [= <-]|].
  destruct (uses_bad_czgate_edge layout bad_czgate_edges virtual_edges)
    as [[|]|] eqn:Hbe; simpl; [by intros [= <-]| |discriminate].
  destruct (for_each virtual_edges _ _) as [t2|] eqn:H2; simpl; [|discriminate].
  destruct (for_each layout _ _) as [tm|] eqn:Hm; simpl; [|discriminate].
  intros [= <-] entry Hentry. apply in_app_or in Hentry as [Hentry|[<-|[]]];
    [by apply Hacc|].
  apply total_2q_error_sum in H2 as (ges & Hges & ->).
  apply total_measurement_error_sum in Hm as (ms & Hms & ->).
  split; [exact Hlayout|].
  split; [by apply has_bad_readout_qubit_false|].
  split; [by apply uses_bad_czgate_edge_false|].
  exists ges, ms. auto.
Qed.

End ScoringFacts.

Example line4_scoring :
  @lightweight_layout_error_scoring Z Z _ Z_number line4 [(0, 1)]
    [[2; 3]; [1; 0]; [1; 2]; [3; 0]] "cz" [3] [PyTuple [2; 1]]
  = Ok [([1; 0], 26)].
Proof. reflexivity. Qed.

Example line4_scoring_sorted :
  @lightweight_layout_error_scoring Z Z _ Z_number line4 [(0, 1)]
    [[2; 3]; [1; 0]; [1; 2]] "cz" [] []
  = Ok [([1; 0], 26); ([1; 2], 30); ([2; 3], 65)].
Proof. reflexivity. Qed.

Example line4_scoring_raises :
  @lightweight_layout_error_scoring Z Z _ Z_number line4 [(0, 1)]
    [[0; 2]] "cz" [] []
  = Err (LibraryError 0).
Proof. reflexivity. Qed.

(** C1: every layout in the result of [lightweight_layout_error_scoring] is
    paired with the sum of the two-qubit gate errors of the physical edges
    under the virtual edges (forward lookup, or reverse lookup when the
    forward one raises) plus the sum of the readout errors of its qubits.
    Each sum is taken from the left starting at [0]. *)
Theorem lightweight_layout_error_scoring_error_sum
    {qubit num : Type} `{EqDecision qubit} `{Number num}
    (backend : BackendV2 qubit num) (virtual_edges : list (Z * Z))
    (physical_layouts : list (list qubit)) (two_q_gate_name : string)
    (bad_readout_qubits : list qubit) (bad_czgate_edges : list (py_seq qubit))
    (scores : list (list qubit * num)) (layout : list qubit) (score : num) :
  lightweight_layout_error_scoring backend virtual_edges physical_layouts
    two_q_gate_name bad_readout_qubits bad_czgate_edges = Ok scores ->
  In (layout, score) scores ->
  In layout physical_layouts /\
  exists ges ms,
    Forall2 (edge_error_is (properties backend) two_q_gate_name layout)
      virtual_edges ges /\
    Forall2 (fun q m => readout_error (properties backend) q = Ok m)
      layout ms /\
    score = num_add (num_sum ges) (num_sum ms).
Proof.
  intros Hrun Hin.
  destruct (scoring_entries _ _ _ _ _ _ _ Hrun _ Hin) as (Hl & _ & _ & Hsum).
  auto.
Qed.

Lemma lightweight_layout_error_scoring_error_sum_witness :
  In [1; 0] [[2; 3]; [1; 0]; [1; 2]] /\
  exists ges ms,
    Forall2 (edge_error_is line4_props "cz" [1; 0]) [(0, 1)] ges /\
    Forall2 (fun q m => readout_error line4_props q = Ok m) [1; 0] ms /\
    26 = @num_add Z Z_number (@num_sum Z Z_number ges) (@num_sum Z Z_number ms).
Proof.
  apply (@lightweight_layout_error_scoring_error_sum Z Z _ Z_number line4
           [(0, 1)] [[2; 3]; [1; 0]; [1; 2]] "cz" [] []
           [([1; 0], 26); ([1; 2], 30); ([2; 3], 65)]).
  - reflexivity.
  - simpl. auto.
Defined.


Lemma Z_number_order : @NumberOrder Z Z_number.
Proof.
  constructor; unfold num_le; simpl; intros; lia.
Qed.






(** ** The physical zigzag layout *)

Lemma map_res_In {A B : Type} (f : A -> res B) l ys :
  map_res f l = Ok ys -> forall y, In y ys -> exists x, In x l /\ f x = Ok y.
Proof.
  revert ys. induction l as [|x l IH]; intros ys; simpl.
  - intros [= <-] y [].
  - destruct (f x) as [y0|] eqn:Hx; simpl; [|discriminate].
    destruct (map_res f l) as [ys0|]; simpl; [|discriminate].
    intros [= <-] y [<-|Hy]; [eauto|].
    destruct (IH _ eq_refl y Hy) as (x' & Hin & Hf). eauto.
Qed.

Lemma py_index_In {A : Type} (l : list A) i x : py_index l i = Ok x -> In x l.
Proof.
  unfold py_index. destruct (_ && _); [|discriminate].
  destruct (nth_error l _) eqn:Hn; [|discriminate].
  intros [= <-]. eapply nth_error_In; eauto.
Qed.

Lemma py_setitem_length {A : Type} (l l' : list A) i x :
  py_setitem l i x = Ok l' -> length l' = length l.
Proof.
  unfold py_setitem. destruct (_ && _); [|discriminate].
  intros [= <-]. apply length_insert.
Qed.

Lemma layout_of_mapping_length size mapping layout :
  layout_of_mapping size mapping = Ok layout ->
  length layout = Z.to_nat size.
Proof.
  unfold layout_of_mapping. intros Hrun.
  eapply (for_each_ok_invariant
            (fun l : list (option Z) => length l = Z.to_nat size));
    [| |exact Hrun].
  - unfold py_repeat. apply repeat_length.
  - intros [key value] l l' _ Hl Hset.
    apply py_setitem_length in Hset. congruence.
Qed.

(** [l[:-k]] for [0 < k <= len(l)] removes the last [k] entries. *)
Lemma py_slice_to_neg {A : Type} (l : list A) k :
  0 < k <= Z.of_nat (length l) ->
  exists dropped,
    l = py_slice_to l (- k) ++ dropped /\ Z.of_nat (length dropped) = k.
Proof.
  intros Hk. unfold py_slice_to.
  replace (- k <? 0) with true by lia.
  exists (skipn (Z.to_nat (Z.max 0 (Z.of_nat (length l) + - k))) l).
  split; [symmetry; apply firstn_skipn|].
  rewrite length_skipn. lia.
Qed.

(** [l[:-0]] is [l[:0]]: the empty list. *)
Lemma py_slice_to_neg_0 {A : Type} (l : list A) : py_slice_to l (- 0) = [].
Proof.
  unfold py_slice_to. simpl. rewrite Z.min_l by lia. reflexivity.
Qed.

(** C8: with [num_alpha_beta_qubits > 0] the layout returned by
    [get_zigzag_physical_layout] is the selected layout (the best scored one,
    or the first one) without its last [num_alpha_beta_qubits] entries, and
    has [2 * (num_orbitals + num_ancillas)] entries; with
    [num_alpha_beta_qubits = 0] it is the empty list, whatever the selected
    layout is. *)
Theorem get_zigzag_physical_layout_slice
    {num : Type} `{Number num} `{Rustworkx} `{PythonRuntime}
    (fuel : nat) (num_orbitals : Z) (backend : BackendV2 (option Z) num)
    (score_layouts : bool) (num_ancillas : Z)
    (bad_readout_qubits : list (option Z))
    (bad_czgate_edges : list (py_seq (option Z)))
    (layout : list (option Z)) (num_alpha_beta_qubits : Z) :
  get_zigzag_physical_layout fuel num_orbitals backend score_layouts
    num_ancillas bad_readout_qubits bad_czgate_edges
    = Some (Ok (layout, num_alpha_beta_qubits)) ->
  exists G layouts selected,
    create_lucj_zigzag_layout fuel (num_orbitals + num_ancillas)
      (backend_cmap_pygraph backend) = Some (Ok (G, num_alpha_beta_qubits)) /\
    map_res
      (layout_of_mapping
         (2 * (num_orbitals + num_ancillas) + num_alpha_beta_qubits))
      (vf2_mapping (backend_cmap_pygraph backend) G) = Ok layouts /\
    In selected layouts /\
    (score_layouts = false -> py_index layouts 0 = Ok selected) /\
    (score_layouts = true -> exists two_q_gate_name scores score,
       lightweight_layout_error_scoring backend (edge_list G) layouts
         two_q_gate_name bad_readout_qubits bad_czgate_edges = Ok scores /\
       py_index scores 0 = Ok (selected, score)) /\
    0 <= num_alpha_beta_qubits /\
    (0 < num_alpha_beta_qubits ->
       (exists dropped,
          selected = layout ++ dropped /\
          Z.of_nat (length dropped) = num_alpha_beta_qubits) /\
       Z.of_nat (length layout) = 2 * (num_orbitals + num_ancillas)) /\
    (num_alpha_beta_qubits = 0 -> layout = []).
Proof.
  unfold get_zigzag_physical_layout.
  destruct (create_lucj_zigzag_layout _ _ _) as [[[G k]|e]|] eqn:Hlucj;
    [|discriminate..].
  destruct (map_res _ _) as [layouts|] eqn:Hlayouts; simpl; [|discriminate].
  destruct (set_pop _) as [two_q_gate_name|] eqn:Hpop; simpl; [|discriminate].
  assert (Hk : 0 <= k /\ (0 < k -> 1 <= num_orbitals + num_ancillas)).
  { unfold create_lucj_zigzag_layout in Hlucj.
    rewrite create_linear_chains_closed in Hlucj.
    apply zigzag_search_result in Hlucj as (i & Hi & Hc & _).
    destruct (zigzag_candidate_two_chains _ _ Hi)
      as (G' & k' & Hc' & _ & Hk0 & Hk1).
    rewrite Hc in Hc'. injection Hc' as <- <-. split; [lia|]. apply Hk1. }
  assert (Hsel : forall selected, In selected layouts ->
    (0 < k ->
       (exists dropped,
          selected = py_slice_to selected (- k) ++ dropped /\
          Z.of_nat (length dropped) = k) /\
       Z.of_nat (length (py_slice_to selected (- k)))
         = 2 * (num_orbitals + num_ancillas)) /\
    (k = 0 -> py_slice_to selected (- k) = [])).
  { intros selected Hin.
    destruct (map_res_In _ _ _ Hlayouts _ Hin) as (mapping & _ & Hmap).
    apply layout_of_mapping_length in Hmap. split.
    - intros Hpos. destruct Hk as [_ Hk]. specialize (Hk Hpos).
      destruct (py_slice_to_neg selected k) as (dropped & Heq & Hlen); [lia|].
      split; [eauto|].
      apply (f_equal (@length _)) in Heq. rewrite length_app in Heq. lia.
    - intros ->. apply py_slice_to_neg_0. }
  destruct score_layouts.
  - destruct (lightweight_layout_error_scoring _ _ _ _ _ _) as [scores|]
      eqn:Hscores; simpl; [|discriminate].
    destruct (py_index scores 0) as [[selected score]|] eqn:Hbest; simpl;
      [|discriminate].
    intros [= <- <-].
    assert (Hin : In selected layouts).
    { apply py_index_In in Hbest.
      by destruct (scoring_entries _ _ _ _ _ _ _ Hscores _ Hbest) as [? _]. }
    destruct (Hsel _ Hin) as [Hpos Hzero].
    exists G, layouts, selected. repeat split; auto; try discriminate;
      try (by apply Hpos); [|lia].
    intros _. eauto.
  - destruct (py_index layouts 0) as [selected|] eqn:Hfirst; simpl;
      [|discriminate].
    intros [= <- <-].
    assert (Hin : In selected layouts) by (by apply py_index_In in Hfirst).
    destruct (Hsel _ Hin) as [Hpos Hzero].
    exists G, layouts, selected. repeat split; auto; try discriminate;
      try (by apply Hpos). lia.
Qed.

Example get_zigzag_physical_layout_line4 :
  @get_zigzag_physical_layout Z Z_number exhaustive_rustworkx
    first_element_pop 3 1 line4_layout_backend true 0 [] []
  = Some (Ok ([Some 2; Some 0], 1)).
Proof. vm_compute. reflexivity. Qed.

(** Without connecting qubits the returned layout is empty although the
    selected layout has two entries. *)
Example get_zigzag_physical_layout_sparse3 :
  @get_zigzag_physical_layout Z Z_number exhaustive_rustworkx
    first_element_pop 3 1 sparse3_layout_backend false 0 [] []
  = Some (Ok ([], 0)) /\
  (let* layouts :=
     map_res (layout_of_mapping 2)
       (@vf2_mapping exhaustive_rustworkx
          (backend_cmap_pygraph sparse3_layout_backend) (two_chains 1)) in
   py_index layouts 0) = Ok [Some 2; Some 0].
Proof. vm_compute. split; reflexivity. Qed.

Lemma get_zigzag_physical_layout_slice_witness :
  let layout := [Some 2; Some 0] in
  let backend := line4_layout_backend in
  exists G layouts selected,
    @create_lucj_zigzag_layout exhaustive_rustworkx 3 (1 + 0)
      (backend_cmap_pygraph backend) = Some (Ok (G, 1)) /\
    map_res (layout_of_mapping (2 * (1 + 0) + 1))
      (@vf2_mapping exhaustive_rustworkx (backend_cmap_pygraph backend) G)
      = Ok layouts /\
    In selected layouts /\
    (true = false -> py_index layouts 0 = Ok selected) /\
    (true = true -> exists two_q_gate_name scores score,
       @lightweight_layout_error_scoring _ Z _ Z_number backend (edge_list G)
         layouts two_q_gate_name [] [] = Ok scores /\
       py_index scores 0 = Ok (selected, score)) /\
    0 <= 1 /\
    (0 < 1 ->
       (exists dropped,
          selected = layout ++ dropped /\ Z.of_nat (length dropped) = 1) /\
       Z.of_nat (length layout) = 2 * (1 + 0)) /\
    (1 = 0 -> layout = []).
Proof.
  apply (@get_zigzag_physical_layout_slice Z Z_number exhaustive_rustworkx
           first_element_pop 3 1 line4_layout_backend true 0 [] []).
  vm_compute. reflexivity.
Defined.

(** ** Zero-noise extrapolation *)

Example zne_method_linear_run :
  @zne_method Z Z_number two_point_fit "linear" [1; 2; 3] [7; 9; 11]
  = ([{| cf_f := linear_model_fn; cf_xdata := [1; 2; 3];
         cf_ydata := [7; 9; 11]; cf_p0 := None; cf_maxfev := None |}],
     Ok (5, [7; 9; 11], [2; 5], linear_model_fn)).
Proof. reflexivity. Qed.

Example zne_method_fit_fails :
  snd (@zne_method Z Z_number two_point_fit "exponential" [1; 2; 3] [7; 9; 11])
  = Err (LibraryError 3).
Proof. reflexivity. Qed.

(** C4: for each of the three methods, when [curve_fit] accepts the data
    and returns the parameters [popt], one for each parameter of the model
    function [f] of the method, [zne_method] makes that one fit and returns
    [(zero_val, ydata, popt, f)], where [zero_val] is the value of the
    model at noise scale [0]: [a * 0 + b] for the linear method,
    [a * 0**2 + b * 0 + c] for the quadratic one and
    [a * exp(-b * 0) + c] for the exponential one. *)
Theorem zne_method_zero_noise_value
    {num : Type} `{Number num} `{Scipy num}
    (method : string) (xdata ydata : list num) (f : model)
    (p0 : option (list Q)) (maxfev : option Z) (popt : list num) :
  supported_method method f p0 maxfev ->
  let call := {| cf_f := f; cf_xdata := xdata; cf_ydata := ydata;
                 cf_p0 := p0; cf_maxfev := maxfev |} in
  curve_fit call = Ok popt ->
  length popt = model_arity f ->
  exists zero_val,
    zne_method method xdata ydata = ([call], Ok (zero_val, ydata, popt, f)) /\
    model_value_at f (num_of_int 0) popt zero_val.
Proof.
  intros Hm call Hfit Hlen. subst call.
  destruct Hm; simpl in Hlen;
    repeat (destruct popt as [|? popt]; try discriminate Hlen);
    unfold zne_method; cbn [String.eqb Ascii.eqb Bool.eqb];
    rewrite Hfit; eexists; split; reflexivity.
Qed.

Lemma zne_method_zero_noise_value_witness :
  let call := {| cf_f := linear_model_fn; cf_xdata := [1; 2; 3];
                 cf_ydata := [7; 9; 11]; cf_p0 := None; cf_maxfev := None |} in
  exists zero_val,
    @zne_method Z Z_number two_point_fit "linear" [1; 2; 3] [7; 9; 11]
    = ([call], Ok (zero_val, [7; 9; 11], [2; 5], linear_model_fn)) /\
    @model_value_at Z Z_number linear_model_fn 0 [2; 5] zero_val.
Proof.
  apply (@zne_method_zero_noise_value Z Z_number two_point_fit
           "linear" [1; 2; 3] [7; 9; 11] linear_model_fn None None [2; 5]).
  - constructor.
  - reflexivity.
  - reflexivity.
Defined.

(** C5: [zne_method] returns only for the methods ["linear"],
    ["quadratic"] and ["exponential"]; for every other method it raises
    [ValueError] and has made no call to [curve_fit]. *)
Theorem zne_method_supported_methods
    {num : Type} `{Number num} `{Scipy num}
    (method : string) (xdata ydata : list num) :
  (forall calls result,
     zne_method method xdata ydata = (calls, Ok result) ->
     method = "linear"%string \/ method = "quadratic"%string \/
     method = "exponential"%string) /\
  (method <> "linear"%string -> method <> "quadratic"%string ->
   method <> "exponential"%string ->
   zne_method method xdata ydata
   = ([], Err (ValueError (unknown_method_message method)))).
Proof.
  unfold zne_method.
  destruct (String.eqb_spec method "linear");
    [split; [auto|intros; congruence]|].
  destruct (String.eqb_spec method "quadratic");
    [split; [auto|intros; congruence]|].
  destruct (String.eqb_spec method "exponential");
    [split; [auto|intros; congruence]|].
  split; [intros calls result [=]|reflexivity].
Qed.

Lemma zne_method_supported_methods_witness :
  (forall calls result,
     @zne_method Z Z_number two_point_fit "cubic" [1; 2; 3] [7; 9; 11]
     = (calls, Ok result) ->
     "cubic"%string = "linear"%string \/ "cubic"%string = "quadratic"%string \/
     "cubic"%string = "exponential"%string) /\
  @zne_method Z Z_number two_point_fit "cubic" [1; 2; 3] [7; 9; 11]
  = ([], Err (ValueError
       "Unknown method 'cubic'. Use 'linear', 'quadratic', or 'exponential'.")).
Proof.
  destruct (@zne_method_supported_methods Z Z_number two_point_fit
              "cubic" [1; 2; 3] [7; 9; 11]) as [Honly Hother].
  split; [exact Honly|].
  apply Hother; discriminate.
Defined.

(** ** The object store: what a run leaves untouched *)

Section StoreFacts.
Context {qubit num : Type} `{EqDecision qubit} `{Number num} `{Scipy num}.
Implicit Types (h : heap qubit num) (l : positive).

Lemma frames_ret h0 {A : Type} (a : A) : frames h0 (ret a).
Proof. by intros h Hh. Qed.

Lemma frames_lift h0 {A : Type} (r : res A) : frames h0 (lift r).
Proof. by intros h Hh. Qed.

Lemma frames_load h0 l : frames h0 (load l).
Proof. intros h Hh. unfold load. by destruct (h !! l). Qed.

Lemma fresh_not_bound h0 h : h0 ⊆ h -> h0 !! fresh (dom h) = None.
Proof.
  intros Hh. apply not_elem_of_dom. intros Hin.
  apply (is_fresh (dom h)). revert Hin. by apply subseteq_dom.
Qed.

Lemma frames_alloc h0 (o : obj qubit num) : frames h0 (alloc o).
Proof.
  intros h Hh. unfold alloc; simpl.
  apply insert_subseteq_r; [by apply fresh_not_bound|exact Hh].
Qed.

Lemma frames_list_append h0 l r :
  h0 !! l = None -> frames h0 (list_append l r).
Proof.
  intros Hl h Hh. unfold list_append.
  destruct (h !! l) as [[]|]; simpl; try exact Hh.
  by apply insert_subseteq_r.
Qed.

Lemma frames_bind h0 {A B : Type} (m : M qubit num A) (k : A -> M qubit num B) :
  frames h0 m -> (forall a, frames h0 (k a)) -> frames h0 (bindM m k).
Proof.
  intros Hm Hk h Hh. unfold bindM. specialize (Hm h Hh).
  destruct (m h) as [h' [a|e]]; simpl in *; [by apply Hk|exact Hm].
Qed.

Lemma frames_for_each_h h0 {A : Type} (xs : list A)
    (body : A -> M qubit num unit) :
  (forall x, frames h0 (body x)) -> frames h0 (for_each_h xs body).
Proof.
  intros Hbody. induction xs as [|x xs IH]; simpl.
  - apply frames_ret.
  - apply frames_bind; [apply Hbody|intros _; exact IH].
Qed.

Lemma frames_map_h h0 {A B : Type} (f : A -> M qubit num B) (xs : list A) :
  (forall x, frames h0 (f x)) -> frames h0 (map_h f xs).
Proof.
  intros Hf. induction xs as [|x xs IH]; simpl.
  - apply frames_ret.
  - apply frames_bind; [apply Hf|intros y].
    apply frames_bind; [exact IH|intros ys; apply frames_ret].
Qed.

Lemma frames_load_as h0 {A : Type} (f : obj qubit num -> res A) l :
  frames h0 (bindM (load l) (fun o => lift (f o))).
Proof.
  apply frames_bind; [apply frames_load|intros o; apply frames_lift].
Qed.

Ltac frames_step :=
  first [ apply frames_ret | apply frames_lift | apply frames_load
        | apply frames_alloc | apply frames_load_as
        | apply frames_bind; [|intros ?] ].

Lemma frames_zne_method_h h0 method xdata ydata :
  frames h0 (zne_method_h method xdata ydata).
Proof.
  unfold zne_method_h.
  repeat match goal with |- context [String.eqb ?a ?b] =>
    destruct (String.eqb a b) end;
    try apply frames_lift; unfold zne_fit_h; repeat frames_step.
Qed.

Lemma frames_score_layout_h h0 props virtual_edges two_q_gate_name
    bad_readout_qubits bad_czgate_edges scores layout_ref :
  h0 !! scores = None ->
  frames h0 (score_layout_h props virtual_edges two_q_gate_name
               bad_readout_qubits bad_czgate_edges scores layout_ref).
Proof.
  intros Hs.
  unfold score_layout_h, any_bad_readout_h, skip_bad_czgate_h.
  repeat (frames_step;
          try match goal with
              | |- frames _ (if ?b then _ else _) => destruct b
              | |- frames _ (match ?l with [] => _ | _ :: _ => _ end) =>
                destruct l
              end).
  by apply frames_list_append.
Qed.

Lemma frames_lightweight_layout_error_scoring_h h backend virtual_edges
    physical_layouts two_q_gate_name bad_readout_qubits bad_czgate_edges :
  h ⊆ fst (lightweight_layout_error_scoring_h backend virtual_edges
             physical_layouts two_q_gate_name bad_readout_qubits
             bad_czgate_edges h).
Proof.
  unfold lightweight_layout_error_scoring_h.
  unfold bindM at 1. unfold alloc at 1.
  match goal with |- _ ⊆ fst (?k ?s ?h1) =>
    assert (Hk : frames h (k s)); [|apply Hk] end.
  - assert (Hs : h !! fresh (dom h) = None) by (by apply fresh_not_bound).
    repeat frames_step.
    + apply frames_for_each_h. intros r. by apply frames_score_layout_h.
    + apply frames_map_h. intros e. unfold entry_key. repeat frames_step.
  - apply insert_subseteq. by apply fresh_not_bound.
Qed.

(** *** The store functions compute what the pure ones compute *)

Lemma nums_at_Some h l xs : nums_at h l = Some xs -> h !! l = Some (Nums xs).
Proof.
  unfold nums_at. destruct (h !! l) as [[]|]; try discriminate.
  by intros [= ->].
Qed.

Lemma zne_fit_h_outcome h f p0 maxfev xdata ydata xs ys :
  nums_at h xdata = Some xs -> nums_at h ydata = Some ys ->
  zne_outcome (zne_fit_h f p0 maxfev xdata ydata h) =
  (let* popt := curve_fit {| cf_f := f; cf_xdata := xs; cf_ydata := ys;
                             cf_p0 := p0; cf_maxfev := maxfev |} in
   let* zero_val := call_model f (num_of_int 0) popt in
   Ok (zero_val, Some ys, Some popt, f)).
Proof.
  intros Hx%nums_at_Some Hy%nums_at_Some.
  unfold zne_fit_h, load_nums, bindM, load, lift, alloc, ret.
  rewrite Hx, Hy. simpl.
  destruct (curve_fit _) as [popt|e]; simpl; [|reflexivity].
  destruct (call_model f (num_of_int 0) popt) as [zero_val|e]; simpl;
    [|reflexivity].
  unfold nums_at. rewrite lookup_insert_eq, lookup_insert_ne, Hy; [done|].
  intros Heq. pose proof (is_fresh (dom h)) as Hfresh.
  rewrite Heq in Hfresh. apply Hfresh. apply elem_of_dom. eauto.
Qed.

Lemma zne_method_h_outcome h method xdata ydata xs ys :
  nums_at h xdata = Some xs -> nums_at h ydata = Some ys ->
  zne_outcome (zne_method_h method xdata ydata h) =
  (let* v := snd (zne_method method xs ys) in
   let '(zero_val, ys', popt, fit_fn) := v in
   Ok (zero_val, Some ys', Some popt, fit_fn)).
Proof.
  intros Hx Hy. unfold zne_method_h, zne_method.
  assert (Hbranch : forall f p0 maxfev,
    zne_outcome (zne_fit_h f p0 maxfev xdata ydata h) =
    (let* v :=
       (let* popt := curve_fit {| cf_f := f; cf_xdata := xs; cf_ydata := ys;
                                  cf_p0 := p0; cf_maxfev := maxfev |} in
        let* zero_val := call_model f (num_of_int 0) popt in
        Ok (zero_val, ys, popt, f)) in
     let '(zero_val, ys', popt, fit_fn) := v in
     Ok (zero_val, Some ys', Some popt, fit_fn))).
  { intros f p0 maxfev. rewrite (zne_fit_h_outcome _ _ _ _ _ _ _ _ Hx Hy).
    destruct (curve_fit _) as [popt|e]; [|reflexivity]. cbn [bind].
    destruct (call_model f (num_of_int 0) popt); reflexivity. }
  destruct (String.eqb method "linear"); [apply Hbranch|].
  destruct (String.eqb method "quadratic"); [apply Hbranch|].
  destruct (String.eqb method "exponential"); [apply Hbranch|].
  reflexivity.
Qed.

Lemma bindM_Ok {A B : Type} (m : M qubit num A) (k : A -> M qubit num B)
    h h' a :
  m h = (h', Ok a) -> bindM m k h = k a h'.
Proof. intros Hm. unfold bindM. by rewrite Hm. Qed.

Lemma bindM_Err {A B : Type} (m : M qubit num A) (k : A -> M qubit num B)
    h h' e :
  m h = (h', Err e) -> bindM m k h = (h', Err e).
Proof. intros Hm. unfold bindM. by rewrite Hm. Qed.

Lemma load_refs_Ok h l rs :
  h !! l = Some (Refs rs) -> load_refs l h = (h, Ok rs).
Proof. intros Hl. unfold load_refs, bindM, load, lift. by rewrite Hl. Qed.

Lemma load_qubits_Ok h l qs :
  h !! l = Some (Qubits qs) -> load_qubits l h = (h, Ok qs).
Proof. intros Hl. unfold load_qubits, bindM, load, lift. by rewrite Hl. Qed.

Lemma load_qubit_seqs_Ok h l ps :
  h !! l = Some (QubitSeqs ps) -> load_qubit_seqs l h = (h, Ok ps).
Proof.
  intros Hl. unfold load_qubit_seqs, bindM, load, lift. by rewrite Hl.
Qed.

Lemma load_int_pairs_Ok h l ps :
  h !! l = Some (IntPairs ps) -> load_int_pairs l h = (h, Ok ps).
Proof. intros Hl. unfold load_int_pairs, bindM, load, lift. by rewrite Hl. Qed.

Lemma any_bad_readout_h_run h layout bad_readout_qubits bad_r :
  h !! bad_readout_qubits = Some (Qubits bad_r) ->
  any_bad_readout_h layout bad_readout_qubits h
  = (h, Ok (has_bad_readout_qubit layout bad_r)).
Proof.
  intros Hbr. unfold any_bad_readout_h. destruct layout; [reflexivity|].
  by rewrite (bindM_Ok _ _ _ _ _ (load_qubits_Ok _ _ _ Hbr)).
Qed.

Lemma skip_bad_czgate_h_run h layout edges bad_czgate_edges bad_e :
  h !! bad_czgate_edges = Some (QubitSeqs bad_e) ->
  skip_bad_czgate_h layout edges bad_czgate_edges h
  = (h, uses_bad_czgate_edge layout bad_e edges).
Proof.
  intros Hbe. unfold skip_bad_czgate_h.
  destruct edges as [|edge rest]; [reflexivity|].
  cbn [uses_bad_czgate_edge]. unfold bindM at 1, lift at 1.
  destruct (py_index layout (fst edge)); [|reflexivity].
  unfold bindM at 1, lift at 1.
  destruct (py_index layout (snd edge)); [|reflexivity].
  by rewrite (bindM_Ok _ _ _ _ _ (load_qubit_seqs_Ok _ _ _ Hbe)).
Qed.

Lemma fresh_ne h l (o : obj qubit num) :
  h !! l = Some o -> fresh (dom h) <> l.
Proof.
  intros Hl Heq. apply (is_fresh (dom h)). rewrite Heq.
  apply elem_of_dom. eauto.
Qed.

Lemma entries_hold_insert h0 h es acc l (o : obj qubit num) :
  entries_hold h0 h es acc ->
  (forall e, In e es -> e <> l) ->
  entries_hold h0 (<[l := o]> h) es acc.
Proof.
  unfold entries_hold. induction 1 as [|e p es acc (r & He & Hr) Hrest IH];
    intros Hne; constructor.
  - exists r. split; [|exact Hr]. rewrite lookup_insert_ne; [exact He|].
    intros Heq. apply (Hne e); [by left|done].
  - apply IH. intros e' He'. apply Hne. by right.
Qed.

Lemma entries_hold_bound h0 h es acc e :
  entries_hold h0 h es acc -> In e es ->
  exists r score, h !! e = Some (Entry r score).
Proof.
  unfold entries_hold. induction 1 as [|e0 p es acc (r & He & Hr) Hrest IH].
  - intros [].
  - intros [<-|Hin]; [eauto|by apply IH].
Qed.

(** One iteration of the scoring loop in the store does what the pure body
    does to the accumulated scores. *)
Lemma score_layout_h_step h0 h props two_q_gate_name
    virtual_edges bad_readout_qubits bad_czgate_edges scores layout_ref
    edges bad_r bad_e layout es acc :
  h0 ⊆ h -> h0 !! scores = None -> h !! scores = Some (Refs es) ->
  entries_hold h0 h es acc ->
  h0 !! virtual_edges = Some (IntPairs edges) ->
  h0 !! bad_readout_qubits = Some (Qubits bad_r) ->
  h0 !! bad_czgate_edges = Some (QubitSeqs bad_e) ->
  h0 !! layout_ref = Some (Qubits layout) ->
  match score_layout props edges two_q_gate_name bad_r bad_e layout acc with
  | Ok acc' =>
    exists h' es',
      score_layout_h props virtual_edges two_q_gate_name bad_readout_qubits
        bad_czgate_edges scores layout_ref h = (h', Ok tt) /\
      h0 ⊆ h' /\ h' !! scores = Some (Refs es') /\
      entries_hold h0 h' es' acc'
  | Err e =>
    exists h',
      score_layout_h props virtual_edges two_q_gate_name bad_readout_qubits
        bad_czgate_edges scores layout_ref h = (h', Err e)
  end.
Proof.
  intros Hh Hs0 Hs Hes Hve Hbr Hbe Hl.
  unfold score_layout_h, score_layout.
  rewrite (bindM_Ok _ _ _ _ _
             (load_qubits_Ok _ _ _ (lookup_weaken _ _ _ _ Hl Hh))).
  rewrite (bindM_Ok _ _ _ _ _
             (any_bad_readout_h_run _ layout _ _
                (lookup_weaken _ _ _ _ Hbr Hh))).
  destruct (has_bad_readout_qubit layout bad_r); [by eauto 6|].
  rewrite (bindM_Ok _ _ _ _ _
             (load_int_pairs_Ok _ _ _ (lookup_weaken _ _ _ _ Hve Hh))).
  pose proof (skip_bad_czgate_h_run _ layout edges _ _
                (lookup_weaken _ _ _ _ Hbe Hh)) as Hskip.
  destruct (uses_bad_czgate_edge layout bad_e edges) as [skip|e]; simpl;
    [|exists h; by apply bindM_Err].
  rewrite (bindM_Ok _ _ _ _ _ Hskip).
  destruct skip; [by eauto 6|].
  unfold bindM, lift.
  destruct (for_each edges _ _) as [t2|e]; simpl; [|by eauto].
  destruct (for_each layout _ _) as [tm|e]; simpl; [|by eauto].
  unfold alloc, list_append.
  assert (Hne : fresh (dom h) <> scores) by (by eapply fresh_ne).
  rewrite lookup_insert_ne, Hs by exact Hne.
  eexists _, _. split; [reflexivity|]. split; [|split].
  - apply insert_subseteq_r; [exact Hs0|].
    apply insert_subseteq_r; [by apply fresh_not_bound|exact Hh].
  - apply lookup_insert_eq.
  - apply Forall2_app.
    + apply entries_hold_insert.
      * apply entries_hold_insert; [exact Hes|].
        intros e He. destruct (entries_hold_bound _ _ _ _ _ Hes He)
          as (r & sc & Hb). symmetry. by eapply fresh_ne.
      * intros e He ->. destruct (entries_hold_bound _ _ _ _ _ Hes He)
          as (r & sc & Hb). congruence.
    + constructor; [|constructor]. exists layout_ref. simpl. split; [|exact Hl].
      rewrite lookup_insert_ne by (by apply not_eq_sym).
      apply lookup_insert_eq.
Qed.

Lemma for_each_h_scoring h0 props two_q_gate_name virtual_edges
    bad_readout_qubits bad_czgate_edges scores edges bad_r bad_e refs layouts :
  h0 !! scores = None ->
  h0 !! virtual_edges = Some (IntPairs edges) ->
  h0 !! bad_readout_qubits = Some (Qubits bad_r) ->
  h0 !! bad_czgate_edges = Some (QubitSeqs bad_e) ->
  Forall2 (fun r layout => h0 !! r = Some (Qubits layout)) refs layouts ->
  forall h es acc,
    h0 ⊆ h -> h !! scores = Some (Refs es) -> entries_hold h0 h es acc ->
    match for_each layouts
            (score_layout props edges two_q_gate_name bad_r bad_e) acc with
    | Ok acc' =>
      exists h' es',
        for_each_h refs
          (score_layout_h props virtual_edges two_q_gate_name
             bad_readout_qubits bad_czgate_edges scores) h = (h', Ok tt) /\
        h0 ⊆ h' /\ h' !! scores = Some (Refs es') /\
        entries_hold h0 h' es' acc'
    | Err e =>
      exists h',
        for_each_h refs
          (score_layout_h props virtual_edges two_q_gate_name
             bad_readout_qubits bad_czgate_edges scores) h = (h', Err e)
    end.
Proof.
  intros Hs0 Hve Hbr Hbe. induction 1 as [|r layout refs layouts Hr Hrest IH];
    intros h es acc Hh Hs Hes; simpl.
  - exists h, es. auto.
  - pose proof (score_layout_h_step h0 h props two_q_gate_name virtual_edges
      bad_readout_qubits bad_czgate_edges scores r edges bad_r bad_e layout
      es acc Hh Hs0 Hs Hes Hve Hbr Hbe Hr) as Hstep.
    destruct (score_layout props edges two_q_gate_name bad_r bad_e layout acc)
      as [acc1|e]; simpl.
    + destruct Hstep as (h1 & es1 & Hrun & Hh1 & Hs1 & Hes1).
      rewrite (bindM_Ok _ _ _ _ _ Hrun). by apply (IH h1 es1).
    + destruct Hstep as (h1 & Hrun). exists h1. by apply bindM_Err.
Qed.

Lemma map_h_entry_key h0 h es acc :
  entries_hold h0 h es acc ->
  exists keyed,
    map_h entry_key es h = (h, Ok keyed) /\
    Forall2 (fun (k : positive * num) (p : list qubit * num) =>
               snd k = snd p /\
               exists r, h !! fst k = Some (Entry r (snd p)) /\
                         h0 !! r = Some (Qubits (fst p))) keyed acc.
Proof.
  unfold entries_hold. induction 1 as [|e p es acc (r & He & Hr) Hrest IH];
    simpl.
  - exists []. split; [reflexivity|constructor].
  - destruct IH as (keyed & Hrun & Hkeyed).
    exists ((e, snd p) :: keyed). split.
    + assert (Hkey : entry_key e h = (h, Ok (e, snd p))).
      { unfold entry_key, bindM, load, lift, ret. by rewrite He. }
      rewrite (bindM_Ok _ _ _ _ _ Hkey), (bindM_Ok _ _ _ _ _ Hrun).
      reflexivity.
    + constructor; [|exact Hkeyed]. simpl. eauto.
Qed.

(** Sorting by key treats two lists with the same keys alike. *)
Lemma insert_by_key_Forall2 {A B : Type} (R : A -> B -> Prop)
    (keyA : A -> num) (keyB : B -> num) x y xs ys :
  (forall a b, R a b -> keyA a = keyB b) ->
  R x y -> Forall2 R xs ys ->
  Forall2 R (insert_by_key keyA x xs) (insert_by_key keyB y ys).
Proof.
  intros Hkey Hxy. induction 1 as [|a b xs ys Hab Hrest IH]; simpl.
  - by repeat constructor.
  - rewrite (Hkey _ _ Hab), (Hkey _ _ Hxy).
    destruct (num_lt (keyB b) (keyB y)); by repeat constructor.
Qed.

Lemma sorted_Forall2 {A B : Type} (R : A -> B -> Prop)
    (keyA : A -> num) (keyB : B -> num) xs ys :
  (forall a b, R a b -> keyA a = keyB b) ->
  Forall2 R xs ys -> Forall2 R (sorted keyA xs) (sorted keyB ys).
Proof.
  intros Hkey. induction 1 as [|a b xs ys Hab Hrest IH]; simpl.
  - constructor.
  - by apply insert_by_key_Forall2.
Qed.

Lemma layouts_at_Some h l layouts :
  layouts_at h l = Some layouts ->
  exists refs,
    h !! l = Some (Refs refs) /\
    Forall2 (fun r layout => h !! r = Some (Qubits layout)) refs layouts.
Proof.
  unfold layouts_at. destruct (h !! l) as [[| | | |refs|]|]; try discriminate.
  intros Hm. exists refs. split; [reflexivity|].
  apply mapM_Some in Hm. eapply Forall2_impl; [exact Hm|].
  intros r layout. simpl. destruct (h !! r) as [[]|]; try discriminate.
  by intros [= ->].
Qed.

(** The store run of the scoring returns what the pure scoring returns on
    the contents of its arguments. *)
Lemma lightweight_layout_error_scoring_h_outcome h backend virtual_edges
    physical_layouts two_q_gate_name bad_readout_qubits bad_czgate_edges
    edges layouts bad_r bad_e :
  h !! virtual_edges = Some (IntPairs edges) ->
  layouts_at h physical_layouts = Some layouts ->
  h !! bad_readout_qubits = Some (Qubits bad_r) ->
  h !! bad_czgate_edges = Some (QubitSeqs bad_e) ->
  scoring_outcome
    (lightweight_layout_error_scoring_h backend virtual_edges physical_layouts
       two_q_gate_name bad_readout_qubits bad_czgate_edges h) =
  (let* scores :=
     lightweight_layout_error_scoring backend edges layouts two_q_gate_name
       bad_r bad_e in
   Ok (Some scores)).
Proof.
  intros Hve Hpl Hbr Hbe.
  apply layouts_at_Some in Hpl as (refs & Hpl & Hrefs).
  unfold lightweight_layout_error_scoring_h, lightweight_layout_error_scoring.
  set (s := fresh (dom h)). set (h1 := <[s := Refs []]> h).
  assert (Hs0 : h !! s = None) by (by apply fresh_not_bound).
  assert (Hh1 : h ⊆ h1) by (by apply insert_subseteq).
  assert (Halloc : alloc (Refs []) h = (h1, Ok s)) by reflexivity.
  rewrite (bindM_Ok _ _ _ _ _ Halloc).
  rewrite (bindM_Ok _ _ _ _ _
             (load_refs_Ok h1 _ _ (lookup_weaken _ _ _ _ Hpl Hh1))).
  pose proof (for_each_h_scoring h (properties backend) two_q_gate_name
    virtual_edges bad_readout_qubits bad_czgate_edges s edges bad_r bad_e
    refs layouts Hs0 Hve Hbr Hbe Hrefs h1 [] [] Hh1
    (lookup_insert_eq _ _ _) (List.Forall2_nil _)) as Hloop.
  destruct (for_each layouts _ []) as [acc|e]; simpl.
  - destruct Hloop as (h2 & es & Hrun & Hh2 & Hs & Hes).
    rewrite (bindM_Ok _ _ _ _ _ Hrun).
    rewrite (bindM_Ok _ _ _ _ _ (load_refs_Ok h2 _ _ Hs)).
    destruct (map_h_entry_key _ _ _ _ Hes) as (keyed & Hkeys & Hkeyed).
    rewrite (bindM_Ok _ _ _ _ _ Hkeys).
    unfold alloc, scoring_outcome, scores_at; simpl.
    rewrite lookup_insert_eq. f_equal.
    apply mapM_Some. apply Forall2_fmap_l.
    apply (sorted_Forall2 _ snd snd) in Hkeyed; [|by intros ? ? [? _]].
    eapply Forall2_impl; [exact Hkeyed|].
    intros [e sc] [layout score]; simpl. intros (-> & r & He & Hr).
    rewrite lookup_insert_ne by (by eapply fresh_ne).
    rewrite He.
    rewrite lookup_insert_ne
      by (eapply fresh_ne; eapply lookup_weaken; [exact Hr|exact Hh2]).
    by rewrite (lookup_weaken _ _ _ _ Hr Hh2).
  - destruct Hloop as (h2 & Hrun).
    by rewrite (bindM_Err _ _ _ _ _ Hrun).
Qed.

End StoreFacts.

Example zne_method_h_run :
  zne_outcome (@zne_method_h Z Z Z_number two_point_fit "linear" 1%positive
                 2%positive zne_store_a)
  = Ok (5, Some [7; 9; 11], Some [2; 5], linear_model_fn).
Proof. vm_compute. reflexivity. Qed.

Example lightweight_layout_error_scoring_h_run :
  scoring_outcome
    (@lightweight_layout_error_scoring_h Z Z _ Z_number line4 1%positive
       2%positive "cz" 3%positive 4%positive scoring_store_a)
  = Ok (Some [([1; 0], 26); ([1; 0], 26); ([1; 2], 30); ([2; 3], 65)]).
Proof. vm_compute. reflexivity. Qed.

(** C7: a run of [zne_method] or of [lightweight_layout_error_scoring]
    leaves every object of the store it starts from as it was, its
    arguments among them; and two runs on arguments with equal contents,
    with the same method or the same backend and gate name, in whatever
    stores and at whatever places, have equal outcomes.  The outcome depends
    on nothing but the contents of the arguments. *)
Theorem zne_method_and_scoring_stateless
    {qubit num : Type} `{EqDecision qubit} `{Number num} `{Scipy num}
    (method : string) (backend : BackendV2 qubit num)
    (two_q_gate_name : string) :
  (forall (h : heap qubit num) xdata ydata,
     h ⊆ fst (zne_method_h method xdata ydata h)) /\
  (forall (h1 h2 : heap qubit num) x1 y1 x2 y2 xs ys,
     nums_at h1 x1 = Some xs -> nums_at h1 y1 = Some ys ->
     nums_at h2 x2 = Some xs -> nums_at h2 y2 = Some ys ->
     zne_outcome (zne_method_h method x1 y1 h1)
     = zne_outcome (zne_method_h method x2 y2 h2)) /\
  (forall (h : heap qubit num) virtual_edges physical_layouts
          bad_readout_qubits bad_czgate_edges,
     h ⊆ fst (lightweight_layout_error_scoring_h backend virtual_edges
                physical_layouts two_q_gate_name bad_readout_qubits
                bad_czgate_edges h)) /\
  (forall (h1 h2 : heap qubit num) ve1 pl1 br1 be1 ve2 pl2 br2 be2
          edges layouts bad_r bad_e,
     h1 !! ve1 = Some (IntPairs edges) -> h2 !! ve2 = Some (IntPairs edges) ->
     layouts_at h1 pl1 = Some layouts -> layouts_at h2 pl2 = Some layouts ->
     h1 !! br1 = Some (Qubits bad_r) -> h2 !! br2 = Some (Qubits bad_r) ->
     h1 !! be1 = Some (QubitSeqs bad_e) ->
     h2 !! be2 = Some (QubitSeqs bad_e) ->
     scoring_outcome
       (lightweight_layout_error_scoring_h backend ve1 pl1 two_q_gate_name
          br1 be1 h1)
     = scoring_outcome
         (lightweight_layout_error_scoring_h backend ve2 pl2 two_q_gate_name
            br2 be2 h2)).
Proof.
  split; [|split; [|split]].
  - intros h xdata ydata. by apply frames_zne_method_h.
  - intros h1 h2 x1 y1 x2 y2 xs ys Hx1 Hy1 Hx2 Hy2.
    rewrite (zne_method_h_outcome _ _ _ _ _ _ Hx1 Hy1).
    by rewrite (zne_method_h_outcome _ _ _ _ _ _ Hx2 Hy2).
  - intros h ve pl br be. apply frames_lightweight_layout_error_scoring_h.
  - intros h1 h2 ve1 pl1 br1 be1 ve2 pl2 br2 be2 edges layouts bad_r bad_e
      Hve1 Hve2 Hpl1 Hpl2 Hbr1 Hbr2 Hbe1 Hbe2.
    rewrite (lightweight_layout_error_scoring_h_outcome _ _ _ _ _ _ _ _ _ _ _
               Hve1 Hpl1 Hbr1 Hbe1).
    by rewrite (lightweight_layout_error_scoring_h_outcome _ _ _ _ _ _ _ _ _ _ _
                  Hve2 Hpl2 Hbr2 Hbe2).
Qed.

Lemma zne_method_and_scoring_stateless_witness :
  zne_store_a ⊆
    fst (@zne_method_h Z Z Z_number two_point_fit "linear" 1%positive
           2%positive zne_store_a) /\
  zne_outcome (@zne_method_h Z Z Z_number two_point_fit "linear" 1%positive
                 2%positive zne_store_a)
  = zne_outcome (@zne_method_h Z Z Z_number two_point_fit "linear" 9%positive
                   5%positive zne_store_b) /\
  scoring_store_a ⊆
    fst (@lightweight_layout_error_scoring_h Z Z _ Z_number line4 1%positive
           2%positive "cz" 3%positive 4%positive scoring_store_a) /\
  scoring_outcome
    (@lightweight_layout_error_scoring_h Z Z _ Z_number line4 1%positive
       2%positive "cz" 3%positive 4%positive scoring_store_a)
  = scoring_outcome
      (@lightweight_layout_error_scoring_h Z Z _ Z_number line4 21%positive
         20%positive "cz" 22%positive 23%positive scoring_store_b).
Proof.
  destruct (@zne_method_and_scoring_stateless Z Z _ Z_number two_point_fit
              "linear" line4 "cz") as (Hz1 & Hz2 & Hs1 & Hs2).
  split; [apply Hz1|]. split.
  - apply (Hz2 _ _ _ _ _ _ [1; 2; 3] [7; 9; 11]); vm_compute; reflexivity.
  - split; [apply Hs1|].
    apply (Hs2 _ _ _ _ _ _ _ _ _ _ [(0, 1)]
             [[2; 3]; [1; 0]; [1; 2]; [1; 0]] [] []);
      vm_compute; reflexivity.
Defined.

(** ** The zigzag pattern in closed form *)

Lemma for_each_app {A S : Type} (l1 l2 : list A) (body : A -> S -> res S) s :
  for_each (l1 ++ l2) body s =
  (let* s' := for_each l1 body s in for_each l2 body s').
Proof.
  revert s; induction l1 as [|x l1 IH]; intros s; simpl; [reflexivity|].
  destruct (body x s); simpl; auto.
Qed.

Lemma py_range_snoc lo hi :
  lo <= hi -> py_range lo (hi + 1) = py_range lo hi ++ [hi].
Proof.
  intros H. rewrite (py_range_app lo hi (hi + 1)) by lia. f_equal.
  unfold py_range. replace (Z.to_nat (hi + 1 - hi)) with 1%nat by lia.
  simpl. f_equal. lia.
Qed.

Lemma num_connecting_step i :
  0 <= i ->
  num_connecting (i + 1)
  = if i mod 4 =? 0 then num_connecting i + 1 else num_connecting i.
Proof.
  intros Hi. unfold num_connecting.
  destruct (Z.eqb_spec (i mod 4) 0) as [Hm|Hm];
    Z.div_mod_to_equations; lia.
Qed.

Lemma num_connecting_multiple i :
  0 <= i -> i mod 4 = 0 -> i = 4 * num_connecting i.
Proof. intros Hi Hm. unfold num_connecting. Z.div_mod_to_equations. lia. Qed.

Lemma num_connecting_bounds i :
  0 <= i -> 0 <= num_connecting i /\
            4 * (num_connecting i - 1) < i <= 4 * num_connecting i.
Proof. intros Hi. unfold num_connecting. Z.div_mod_to_equations. lia. Qed.

Lemma num_connecting_mono i j :
  i <= j -> num_connecting i <= num_connecting j.
Proof. intros H. unfold num_connecting. Z.div_mod_to_equations. lia. Qed.

Lemma connecting_edges_snoc num_orbitals k :
  0 <= k ->
  connecting_edges num_orbitals (k + 1)
  = connecting_edges num_orbitals k ++
    [(4 * k, 2 * num_orbitals + k);
     (2 * num_orbitals + k, 4 * k + num_orbitals)].
Proof.
  intros Hk. unfold connecting_edges.
  rewrite py_range_snoc, flat_map_app by lia. reflexivity.
Qed.

(** On the two chains, the candidate of [num_iters] positions is the zigzag
    graph with [ceil(num_iters / 4)] connecting qubits. *)
Lemma zigzag_candidate_closed num_orbitals num_iters :
  0 <= num_iters <= num_orbitals ->
  zigzag_candidate num_orbitals (two_chains num_orbitals) num_iters
  = Ok (zigzag_graph num_orbitals (num_connecting num_iters),
        num_connecting num_iters).
Proof.
  intros [H0 Hno]. unfold zigzag_candidate.
  rewrite <- (Z2Nat.id num_iters) in * by lia.
  induction (Z.to_nat num_iters) as [|m IH].
  - change (Z.of_nat 0) with 0. change (num_connecting 0) with 0.
    unfold zigzag_graph, connecting_edges.
    rewrite (py_range_empty 0 0), (py_range_empty (2 * num_orbitals)) by lia.
    simpl. by rewrite !app_nil_r.
  - rewrite Nat2Z.inj_succ, <- Z.add_1_r in *.
    rewrite py_range_snoc, for_each_app, IH by lia. simpl.
    rewrite num_connecting_step by lia.
    pose proof (num_connecting_bounds (Z.of_nat m) ltac:(lia)) as Hk.
    destruct (Z.eqb_spec (Z.of_nat m mod 4) 0) as [Hm|Hm]; [|reflexivity].
    pose proof (num_connecting_multiple (Z.of_nat m) ltac:(lia) Hm) as H4.
    set (k := num_connecting (Z.of_nat m)) in *.
    assert (Hnum : num_nodes (zigzag_graph num_orbitals k)
                   = 2 * num_orbitals + k).
    { unfold num_nodes, zigzag_graph. simpl.
      rewrite !length_app, !py_range_length. lia. }
    rewrite add_edge_ok by (rewrite ?num_nodes_add_node, ?Hnum; lia). simpl.
    rewrite add_edge_ok
      by (unfold num_nodes in *; simpl in *; rewrite !length_app in *;
          simpl; lia).
    simpl. f_equal. f_equal. unfold zigzag_graph. simpl. f_equal.
    + rewrite <- !app_assoc. f_equal. f_equal.
      replace (2 * num_orbitals + (k + 1)) with (2 * num_orbitals + k + 1)
        by lia.
      by rewrite (py_range_snoc (2 * num_orbitals)) by lia.
    + rewrite connecting_edges_snoc by lia. rewrite <- !app_assoc. simpl.
      rewrite <- H4. reflexivity.
Qed.

Lemma zigzag_graph_0 num_orbitals :
  zigzag_graph num_orbitals 0 = two_chains num_orbitals.
Proof.
  unfold zigzag_graph, connecting_edges.
  rewrite (py_range_empty 0 0), (py_range_empty (2 * num_orbitals)) by lia.
  simpl. by rewrite !app_nil_r.
Qed.

Lemma connecting_edges_In num_orbitals k a b :
  In (a, b) (connecting_edges num_orbitals k) <->
  exists j, 0 <= j < k /\
    ((a = 4 * j /\ b = 2 * num_orbitals + j) \/
     (a = 2 * num_orbitals + j /\ b = 4 * j + num_orbitals)).
Proof.
  unfold connecting_edges. rewrite in_flat_map. split.
  - intros (j & Hj & Hin). apply py_range_In in Hj. exists j.
    split; [lia|]. simpl in Hin.
    destruct Hin as [Hin|[Hin|[]]]; inversion Hin; subst; auto.
  - intros (j & Hj & Hab). exists j. split; [apply py_range_In; lia|].
    simpl. destruct Hab as [[-> ->]|[-> ->]]; auto.
Qed.

(** X1: for [num_orbitals <= 0] every range of [create_linear_chains] is
    empty: it returns the graph without nodes and edges, and raises
    nothing. *)
Theorem create_linear_chains_nonpositive (num_orbitals : Z) :
  num_orbitals <= 0 -> create_linear_chains num_orbitals = Ok empty_graph.
Proof.
  intros Hn. rewrite create_linear_chains_closed. f_equal.
  unfold two_chains. by rewrite !py_range_empty by lia.
Qed.

Lemma create_linear_chains_nonpositive_witness :
  create_linear_chains (-3) = Ok empty_graph.
Proof. apply create_linear_chains_nonpositive. lia. Defined.

(** X2: on the two chains, the pass over [num_iters] positions
    ([0 <= num_iters <= num_orbitals]) never raises and adds
    [k = ceil(num_iters / 4)] connecting qubits: [k] nodes and [2 * k]
    edges.  The edges among the chain nodes are unchanged, and the [j]-th
    connecting qubit, node [2 * num_orbitals + j], is joined to exactly two
    nodes: position [4 * j] of the first chain and position [4 * j] of the
    second. *)
Theorem zigzag_candidate_structure (num_orbitals num_iters : Z) (G : PyGraph) :
  create_linear_chains num_orbitals = Ok G ->
  0 <= num_iters <= num_orbitals ->
  exists G_new k,
    zigzag_candidate num_orbitals G num_iters = Ok (G_new, k) /\
    4 * (k - 1) < num_iters <= 4 * k /\
    num_nodes G_new = 2 * num_orbitals + k /\
    length (edge_list G_new) = (length (edge_list G) + 2 * Z.to_nat k)%nat /\
    (forall u v, 0 <= u < 2 * num_orbitals -> 0 <= v < 2 * num_orbitals ->
       (adjacent G_new u v <-> adjacent G u v)) /\
    (forall j v, 0 <= j < k ->
       (adjacent G_new (2 * num_orbitals + j) v <->
        v = 4 * j \/ v = 4 * j + num_orbitals)).
Proof.
  rewrite create_linear_chains_closed. intros [= <-] Hit.
  exists (zigzag_graph num_orbitals (num_connecting num_iters)),
    (num_connecting num_iters).
  split; [by apply zigzag_candidate_closed|].
  assert (Hk : 4 * (num_connecting num_iters - 1) < num_iters
               <= 4 * num_connecting num_iters).
  { unfold num_connecting. Z.div_mod_to_equations. lia. }
  set (k := num_connecting num_iters) in *.
  split; [exact Hk|]. split; [|split; [|split]].
  - unfold num_nodes, zigzag_graph. simpl.
    rewrite !length_app, !py_range_length. lia.
  - unfold zigzag_graph. simpl. rewrite length_app. f_equal.
    unfold connecting_edges. generalize (py_range_length 0 k).
    generalize (py_range 0 k). intros l. rewrite Z.sub_0_r. intros <-.
    induction l as [|x l IH]; simpl; [reflexivity|lia].
  - intros u v Hu Hv. unfold adjacent, zigzag_graph. simpl.
    rewrite !in_app_iff, !connecting_edges_In. split; [|tauto].
    intros [[H|(j & Hj & H)]|[H|(j & Hj & H)]]; auto; lia.
  - intros j v Hj. unfold adjacent, zigzag_graph. cbn [edge_list].
    rewrite !in_app_iff, !two_chains_edge, !connecting_edges_In. split.
    + intros [[H|(j' & Hj' & H)]|[H|(j' & Hj' & H)]]; lia.
    + intros [->| ->]; [right|left]; right; exists j; split; auto.
Qed.

Lemma zigzag_candidate_structure_witness :
  exists G_new k,
    zigzag_candidate 5 (two_chains 5) 5 = Ok (G_new, k) /\
    4 * (k - 1) < 5 <= 4 * k /\
    num_nodes G_new = 2 * 5 + k /\
    length (edge_list G_new)
    = (length (edge_list (two_chains 5)) + 2 * Z.to_nat k)%nat /\
    (forall u v, 0 <= u < 2 * 5 -> 0 <= v < 2 * 5 ->
       (adjacent G_new u v <-> adjacent (two_chains 5) u v)) /\
    (forall j v, 0 <= j < k ->
       (adjacent G_new (2 * 5 + j) v <-> v = 4 * j \/ v = 4 * j + 5)).
Proof.
  apply (zigzag_candidate_structure 5 5 (two_chains 5)); [reflexivity|lia].
Defined.

Example zigzag_candidate_5 :
  zigzag_candidate 5 (two_chains 5) 5
  = Ok ({| nodes := [0; 1; 2; 3; 4; 5; 6; 7; 8; 9; 10; 11];
           edge_list := [(0, 1); (1, 2); (2, 3); (3, 4);
                         (5, 6); (6, 7); (7, 8); (8, 9);
                         (0, 10); (10, 5); (4, 11); (11, 9)] |}, 2).
Proof. reflexivity. Qed.

(** The search returns the first candidate the library accepts, going down
    from [num_iters]: every candidate before it was built and rejected. *)
Lemma zigzag_search_first_accepted `{Rustworkx} fuel num_orbitals backend G
    num_iters G_new k :
  zigzag_search fuel num_orbitals backend G num_iters = Some (Ok (G_new, k)) ->
  exists i, i <= num_iters /\
    zigzag_candidate num_orbitals G i = Ok (G_new, k) /\
    is_subgraph_isomorphic backend G_new = true /\
    (forall i', i < i' <= num_iters ->
       exists G' k', zigzag_candidate num_orbitals G i' = Ok (G', k') /\
                     is_subgraph_isomorphic backend G' = false).
Proof.
  revert num_iters. induction fuel as [|fuel IH]; intros num_iters; simpl.
  - discriminate.
  - destruct (zigzag_candidate num_orbitals G num_iters) as [[G1 k1]|e] eqn:Hc;
      [|discriminate].
    destruct (is_subgraph_isomorphic backend G1) eqn:Hiso.
    + intros [= <- <-]. exists num_iters. repeat split; auto; lia.
    + intros Hs. destruct (IH _ Hs) as (i & Hi & Hci & Hisoi & Hrej).
      exists i. repeat split; auto; [lia|]. intros i' Hi'.
      destruct (Z.eq_dec i' num_iters) as [->|Hne]; [eauto|].
      apply Hrej. lia.
Qed.

(** The candidate of any [num_iters <= num_orbitals], also a negative
    one, in closed form. *)
Lemma zigzag_candidate_any num_orbitals num_iters :
  num_iters <= num_orbitals ->
  zigzag_candidate num_orbitals (two_chains num_orbitals) num_iters
  = Ok (zigzag_graph num_orbitals (num_connecting (Z.max 0 num_iters)),
        num_connecting (Z.max 0 num_iters)).
Proof.
  intros Hi. destruct (Z_lt_le_dec num_iters 1) as [Hlt|Hge].
  - rewrite zigzag_candidate_bare by lia.
    replace (Z.max 0 num_iters) with 0 by lia.
    change (num_connecting 0) with 0. by rewrite zigzag_graph_0.
  - replace (Z.max 0 num_iters) with num_iters by lia.
    apply zigzag_candidate_closed. lia.
Qed.

Lemma num_nodes_zigzag_graph num_orbitals k :
  0 <= k -> num_nodes (zigzag_graph num_orbitals k)
            = 2 * Z.max 0 num_orbitals + k.
Proof.
  intros Hk. unfold num_nodes, zigzag_graph, two_chains. simpl.
  rewrite !length_app, !py_range_length. lia.
Qed.

(** The graph a finished search returns. *)
Lemma create_lucj_zigzag_layout_graph `{Rustworkx} fuel num_orbitals backend
    G_new k :
  create_lucj_zigzag_layout fuel num_orbitals backend
    = Some (Ok (G_new, k)) ->
  G_new = zigzag_graph num_orbitals k /\ 0 <= k /\
  (0 < k -> 4 * (k - 1) < num_orbitals) /\
  num_nodes G_new = 2 * Z.max 0 num_orbitals + k.
Proof.
  unfold create_lucj_zigzag_layout. rewrite create_linear_chains_closed.
  intros Hs. apply zigzag_search_result in Hs as (i & Hi & Hc & _).
  rewrite (zigzag_candidate_any _ _ Hi) in Hc. injection Hc as <- <-.
  pose proof (num_connecting_bounds (Z.max 0 i) ltac:(lia)) as Hb.
  split; [reflexivity|]. split; [lia|]. split; [lia|].
  apply num_nodes_zigzag_graph. lia.
Qed.

(** X3: the graph [create_lucj_zigzag_layout] returns is the zigzag graph
    with the returned number [k] of connecting qubits,
    [0 <= k <= ceil(num_orbitals / 4)], and [k] is the largest number that
    can be had: no zigzag graph with more connecting qubits, up to
    [ceil(num_orbitals / 4)], embeds into the backend coupling graph. *)
Theorem create_lucj_zigzag_layout_maximal `{RustworkxSpec}
    (fuel : nat) (num_orbitals : Z) (backend_coupling_graph G_new : PyGraph)
    (k : Z) :
  create_lucj_zigzag_layout fuel num_orbitals backend_coupling_graph
    = Some (Ok (G_new, k)) ->
  G_new = zigzag_graph num_orbitals k /\
  0 <= k <= num_connecting (Z.max 0 num_orbitals) /\
  (forall k', k < k' <= num_connecting num_orbitals ->
     ~ subgraph_iso backend_coupling_graph (zigzag_graph num_orbitals k')).
Proof.
  unfold create_lucj_zigzag_layout. rewrite create_linear_chains_closed.
  intros Hs.
  apply zigzag_search_first_accepted in Hs as (i & Hi & Hc & _ & Hrej).
  rewrite (zigzag_candidate_any _ _ Hi) in Hc. injection Hc as <- <-.
  split; [reflexivity|]. split.
  - split; [apply num_connecting_bounds; lia|].
    apply num_connecting_mono. lia.
  - intros k' Hk' Hemb.
    assert (Hi' : i < 4 * (k' - 1) + 1 <= num_orbitals).
    { unfold num_connecting in *. Z.div_mod_to_equations. lia. }
    destruct (Hrej _ Hi') as (G' & k1 & Hc' & Hiso).
    rewrite (zigzag_candidate_any _ _ (proj2 Hi')) in Hc'.
    injection Hc' as <- <-.
    replace (num_connecting (Z.max 0 (4 * (k' - 1) + 1))) with k' in Hiso.
    + apply is_subgraph_isomorphic_spec in Hemb. congruence.
    + unfold num_connecting in *. Z.div_mod_to_equations. lia.
Qed.

Lemma create_lucj_zigzag_layout_maximal_witness :
  let cmap := {| nodes := [0; 1; 2]; edge_list := [(0, 1)] |} in
  two_chains 1 = zigzag_graph 1 0 /\
  0 <= 0 <= num_connecting (Z.max 0 1) /\
  (forall k', 0 < k' <= num_connecting 1 ->
     ~ subgraph_iso cmap (zigzag_graph 1 k')).
Proof.
  apply (@create_lucj_zigzag_layout_maximal exhaustive_rustworkx
           exhaustive_rustworkx_spec 3 1).
  vm_compute. reflexivity.
Defined.

(** ** Which layouts the scoring keeps *)

Section ScoringCoverage.
Context {qubit num : Type} `{EqDecision qubit} `{Number num}.
Implicit Types (layout : list qubit) (props : BackendProperties qubit num).
Implicit Types (backend : BackendV2 qubit num).

Lemma has_bad_readout_qubit_true layout bad_readout_qubits :
  has_bad_readout_qubit layout bad_readout_qubits = true <->
  exists q, In q layout /\ In q bad_readout_qubits.
Proof.
  unfold has_bad_readout_qubit. rewrite existsb_exists.
  by setoid_rewrite py_in_spec.
Qed.

Lemma uses_bad_czgate_edge_off layout bad_czgate_edges virtual_edges :
  (forall edge, In edge virtual_edges ->
     off_bad_czgate_edges layout bad_czgate_edges edge) ->
  uses_bad_czgate_edge layout bad_czgate_edges virtual_edges = Ok false.
Proof.
  induction virtual_edges as [|e0 rest IH]; intros Hoff; simpl; [reflexivity|].
  destruct (Hoff e0 (or_introl eq_refl)) as (p0 & p1 & -> & -> & Hf & Hr).
  simpl. rewrite <- py_in_spec in Hf, Hr.
  destruct (py_in (PyTuple [p0; p1]) bad_czgate_edges); [congruence|].
  destruct (py_in (PyTuple [p1; p0]) bad_czgate_edges); [congruence|]. simpl.
  apply IH. intros edge Hin. apply Hoff. by right.
Qed.

Lemma passes_filters_spec virtual_edges bad_readout_qubits bad_czgate_edges
    layout :
  passes_filters virtual_edges bad_readout_qubits bad_czgate_edges layout
    = true <->
  (forall q, In q layout -> ~ In q bad_readout_qubits) /\
  (forall edge, In edge virtual_edges ->
     off_bad_czgate_edges layout bad_czgate_edges edge).
Proof.
  unfold passes_filters. rewrite andb_true_iff, negb_true_iff. split.
  - intros [Hbr Hbe]. split; [by apply has_bad_readout_qubit_false|].
    apply uses_bad_czgate_edge_false.
    by destruct (uses_bad_czgate_edge _ _ _) as [[|]|].
  - intros [Hq He]. split.
    + destruct (has_bad_readout_qubit layout bad_readout_qubits) eqn:Hb;
        [|reflexivity].
      apply has_bad_readout_qubit_true in Hb as (q & Hql & Hqb).
      by destruct (Hq q Hql).
    + by rewrite uses_bad_czgate_edge_off.
Qed.

(** The scoring loop appends an entry for exactly the layouts that pass the
    filters, in the order of [physical_layouts]. *)
Lemma scoring_loop_layouts props virtual_edges two_q_gate_name
    bad_readout_qubits bad_czgate_edges physical_layouts acc acc' :
  for_each physical_layouts
    (score_layout props virtual_edges two_q_gate_name bad_readout_qubits
       bad_czgate_edges) acc = Ok acc' ->
  map fst acc'
  = map fst acc ++
    List.filter
      (passes_filters virtual_edges bad_readout_qubits bad_czgate_edges)
      physical_layouts.
Proof.
  revert acc. induction physical_layouts as [|layout rest IH]; intros acc;
    simpl.
  - intros [= <-]. by rewrite app_nil_r.
  - unfold score_layout at 1, passes_filters at 1.
    destruct (has_bad_readout_qubit layout bad_readout_qubits); simpl;
      [by apply IH|].
    destruct (uses_bad_czgate_edge layout bad_czgate_edges virtual_edges)
      as [[|]|]; simpl; [by apply IH| |discriminate].
    destruct (for_each virtual_edges _ _); simpl; [|discriminate].
    destruct (for_each layout _ _); simpl; [|discriminate].
    intros Hrest. rewrite (IH _ Hrest), map_app. simpl.
    by rewrite <- app_assoc.
Qed.

Lemma insert_by_key_Permutation {A : Type} (key : A -> num) x (xs : list A) :
  Permutation (insert_by_key key x xs) (x :: xs).
Proof.
  induction xs as [|y xs IH]; simpl; [reflexivity|].
  destruct (num_lt (key y) (key x)); [|reflexivity].
  rewrite IH. apply perm_swap.
Qed.

Lemma sorted_Permutation {A : Type} (key : A -> num) (xs : list A) :
  Permutation (sorted key xs) xs.
Proof.
  induction xs as [|x xs IH]; simpl; [reflexivity|].
  rewrite insert_by_key_Permutation. by constructor.
Qed.

End ScoringCoverage.

(** X4: when [lightweight_layout_error_scoring] returns, its result holds
    exactly the layouts of [physical_layouts] that have no bad readout qubit
    and no virtual edge on a coupling that [bad_czgate_edges] lists as a
    tuple, each as often as it occurs there: the sort drops and repeats
    nothing, and a coupling listed as a list excludes no layout. *)
Theorem lightweight_layout_error_scoring_keeps_all
    {qubit num : Type} `{EqDecision qubit} `{Number num}
    (backend : BackendV2 qubit num) (virtual_edges : list (Z * Z))
    (physical_layouts : list (list qubit)) (two_q_gate_name : string)
    (bad_readout_qubits : list qubit) (bad_czgate_edges : list (py_seq qubit))
    (scores : list (list qubit * num)) :
  lightweight_layout_error_scoring backend virtual_edges physical_layouts
    two_q_gate_name bad_readout_qubits bad_czgate_edges = Ok scores ->
  Permutation (map fst scores)
    (List.filter
       (passes_filters virtual_edges bad_readout_qubits bad_czgate_edges)
       physical_layouts) /\
  (forall layout,
     passes_filters virtual_edges bad_readout_qubits bad_czgate_edges layout
       = true <->
     (forall q, In q layout -> ~ In q bad_readout_qubits) /\
     (forall edge, In edge virtual_edges ->
        off_bad_czgate_edges layout bad_czgate_edges edge)).
Proof.
  unfold lightweight_layout_error_scoring.
  destruct (for_each physical_layouts _ []) as [unsorted|e] eqn:Hloop;
    simpl; [|discriminate].
  intros [= <-]. split; [|intros layout; apply passes_filters_spec].
  apply scoring_loop_layouts in Hloop. simpl in Hloop. rewrite <- Hloop.
  apply Permutation_map. apply sorted_Permutation.
Qed.

Lemma lightweight_layout_error_scoring_keeps_all_witness :
  Permutation (map fst [([1; 0], 26); ([1; 2], 30); ([2; 1], 30)])
    (List.filter
       (passes_filters [(0, 1)] [3] [PyTuple [0; 3]; PyList [2; 1]])
       [[2; 3]; [1; 2]; [1; 0]; [3; 0]; [2; 1]]) /\
  (forall layout,
     passes_filters [(0, 1)] [3] [PyTuple [0; 3]; PyList [2; 1]] layout
       = true <->
     (forall q, In q layout -> ~ In q [3]) /\
     (forall edge, In edge [(0, 1)] ->
        off_bad_czgate_edges layout [PyTuple [0; 3]; PyList [2; 1]] edge)).
Proof.
  apply (@lightweight_layout_error_scoring_keeps_all Z Z _ Z_number line4
           [(0, 1)] [[2; 3]; [1; 2]; [1; 0]; [3; 0]; [2; 1]] "cz" [3]
           [PyTuple [0; 3]; PyList [2; 1]]).
  reflexivity.
Defined.

Lemma insert_by_key_ties {A num : Type} `{NumberOrder num} (key : A -> num)
    (v : num) x (xs : list A) :
  List.filter (fun a => num_tie (key a) v) (insert_by_key key x xs)
  = List.filter (fun a => num_tie (key a) v) (x :: xs).
Proof.
  induction xs as [|y xs IH]; [reflexivity|]. cbn [insert_by_key].
  destruct (num_lt (key y) (key x)) eqn:Hlt; [|reflexivity].
  cbn [List.filter] in *. rewrite IH.
  destruct (num_tie (key x) v) eqn:Hx; [|reflexivity].
  destruct (num_tie (key y) v) eqn:Hy; [|reflexivity].
  unfold num_tie in Hx, Hy.
  apply andb_prop in Hx as [Hx1 Hx2]. apply andb_prop in Hy as [Hy1 Hy2].
  apply negb_true_iff in Hx1, Hx2, Hy1, Hy2.
  assert (num_le (key x) (key y)) as Hle
    by (apply (num_le_trans _ v); assumption).
  unfold num_le in Hle. congruence.
Qed.

Lemma sorted_ties {A num : Type} `{NumberOrder num} (key : A -> num)
    (v : num) (xs : list A) :
  List.filter (fun a => num_tie (key a) v) (sorted key xs)
  = List.filter (fun a => num_tie (key a) v) xs.
Proof.
  induction xs as [|x xs IH]; [reflexivity|]. cbn [sorted fold_right].
  rewrite insert_by_key_ties. cbn [List.filter].
  fold (sorted key xs). by rewrite IH.
Qed.

(** X5: the sort is stable.  The result of
    [lightweight_layout_error_scoring] is a rearrangement of the entries in
    loop order (the layouts that pass the filters, in the order of
    [physical_layouts]) in which the entries whose scores tie keep that
    order; so among the best layouts the first listed is the head. *)
Theorem lightweight_layout_error_scoring_stable
    {qubit num : Type} `{EqDecision qubit} `{NumberOrder num}
    (backend : BackendV2 qubit num) (virtual_edges : list (Z * Z))
    (physical_layouts : list (list qubit)) (two_q_gate_name : string)
    (bad_readout_qubits : list qubit) (bad_czgate_edges : list (py_seq qubit))
    (scores : list (list qubit * num)) :
  lightweight_layout_error_scoring backend virtual_edges physical_layouts
    two_q_gate_name bad_readout_qubits bad_czgate_edges = Ok scores ->
  exists unsorted,
    map fst unsorted
    = List.filter
        (passes_filters virtual_edges bad_readout_qubits bad_czgate_edges)
        physical_layouts /\
    Permutation scores unsorted /\
    (forall v,
       List.filter (fun entry => num_tie (snd entry) v) scores
       = List.filter (fun entry => num_tie (snd entry) v) unsorted).
Proof.
  unfold lightweight_layout_error_scoring.
  destruct (for_each physical_layouts _ []) as [unsorted|e] eqn:Hloop;
    simpl; [|discriminate].
  intros [= <-]. exists unsorted. split; [|split].
  - by apply scoring_loop_layouts in Hloop.
  - apply sorted_Permutation.
  - intros v. apply sorted_ties.
Qed.

Lemma lightweight_layout_error_scoring_stable_witness :
  exists unsorted,
    map fst unsorted
    = List.filter (passes_filters [(0, 1)] [3] [PyTuple [0; 3]])
        [[2; 3]; [2; 1]; [1; 0]; [3; 0]; [1; 2]] /\
    Permutation [([1; 0], 26); ([2; 1], 30); ([1; 2], 30)] unsorted /\
    (forall v,
       List.filter (fun entry => @num_tie Z Z_number (snd entry) v)
         [([1; 0], 26); ([2; 1], 30); ([1; 2], 30)]
       = List.filter (fun entry => @num_tie Z Z_number (snd entry) v)
           unsorted).
Proof.
  apply (@lightweight_layout_error_scoring_stable Z Z _ Z_number
           Z_number_order line4 [(0, 1)]
           [[2; 3]; [2; 1]; [1; 0]; [3; 0]; [1; 2]] "cz" [3] [PyTuple [0; 3]]).
  reflexivity.
Defined.

Lemma for_each_raises {A S : Type} (l : list A) (body : A -> S -> res S) x :
  In x l -> (forall s, exists e, body x s = Err e) ->
  forall s, exists e, for_each l body s = Err e.
Proof.
  intros Hin Hx. induction l as [|y l IH]; [destruct Hin|]. intros s. simpl.
  destruct (body y s) as [s'|e] eqn:Hy; simpl; [|eauto].
  destruct Hin as [->|Hin]; [|by apply IH].
  destruct (Hx s) as (e & He). congruence.
Qed.

(** X6: a layout with missing data is not skipped.  If a layout of
    [physical_layouts] passes both filters and a lookup its scoring needs
    raises (the gate error of a virtual edge in both directions, or the
    readout error of one of its qubits), the whole call raises and no score
    list is returned. *)
Theorem lightweight_layout_error_scoring_raises
    {qubit num : Type} `{EqDecision qubit} `{Number num}
    (backend : BackendV2 qubit num) (virtual_edges : list (Z * Z))
    (physical_layouts : list (list qubit)) (two_q_gate_name : string)
    (bad_readout_qubits : list qubit) (bad_czgate_edges : list (py_seq qubit))
    (layout : list qubit) :
  In layout physical_layouts ->
  passes_filters virtual_edges bad_readout_qubits bad_czgate_edges layout
    = true ->
  lookup_raises (properties backend) two_q_gate_name virtual_edges layout ->
  exists e,
    lightweight_layout_error_scoring backend virtual_edges physical_layouts
      two_q_gate_name bad_readout_qubits bad_czgate_edges = Err e.
Proof.
  intros Hin Hpass Hraise. unfold lightweight_layout_error_scoring.
  assert (Hbody : forall acc, exists e,
    score_layout (properties backend) virtual_edges two_q_gate_name
      bad_readout_qubits bad_czgate_edges layout acc = Err e).
  { intros acc. unfold score_layout, passes_filters in *.
    apply andb_prop in Hpass as [Hbr Hbe]. apply negb_true_iff in Hbr.
    rewrite Hbr.
    destruct (uses_bad_czgate_edge layout bad_czgate_edges virtual_edges)
      as [[|]|]; try discriminate. simpl.
    destruct Hraise as [(edge & p0 & p1 & e1 & e2 & He & H0 & H1 & Hf & Hr)
                       |(q & e & Hq & Hread)].
    - assert (Hedge : forall t, exists e,
        add_2q_error (properties backend) two_q_gate_name layout edge t
        = Err e).
      { intros t. unfold add_2q_error. rewrite H0, H1. simpl.
        rewrite Hf, Hr. simpl. eauto. }
      destruct (for_each_raises _ _ _ He Hedge (num_of_int 0)) as (e & ->).
      simpl. eauto.
    - destruct (for_each virtual_edges _ _); simpl; [|eauto].
      assert (Hqubit : forall t, exists e',
        add_measurement_error (properties backend) q t = Err e').
      { intros t. unfold add_measurement_error. rewrite Hread. simpl. eauto. }
      destruct (for_each_raises _ _ _ Hq Hqubit (num_of_int 0)) as (e' & ->).
      simpl. eauto. }
  destruct (for_each_raises _ _ _ Hin Hbody []) as (e & ->).
  simpl. eauto.
Qed.

Lemma lightweight_layout_error_scoring_raises_witness :
  exists e,
    @lightweight_layout_error_scoring Z Z _ Z_number line4 [(0, 1)]
      [[1; 0]; [0; 2]; [3; 0]] "cz" [3] [] = Err e.
Proof.
  apply (@lightweight_layout_error_scoring_raises Z Z _ Z_number line4
           [(0, 1)] [[1; 0]; [0; 2]; [3; 0]] "cz" [3] [] [0; 2]).
  - simpl. auto.
  - reflexivity.
  - left. exists (0, 1), 0, 2, (LibraryError 0), (LibraryError 0).
    repeat split; simpl; auto.
Defined.

(** ** Layouts from mappings *)

Lemma nth_error_lookup {A : Type} (l : list A) (i : nat) :
  nth_error l i = l !! i.
Proof. revert i. induction l as [|x l IH]; intros [|i]; simpl; auto. Qed.

Lemma py_index_lookup {A : Type} (l : list A) (i : Z) (x : A) :
  0 <= i -> l !! Z.to_nat i = Some x -> py_index l i = Ok x.
Proof.
  intros Hi Hx. pose proof (lookup_lt_Some _ _ _ Hx) as Hlt.
  unfold py_index. replace (i <? 0) with false by lia.
  replace ((0 <=? i) && (i <? Z.of_nat (length l))) with true by lia.
  by rewrite nth_error_lookup, Hx.
Qed.

Lemma py_setitem_in_range {A : Type} (l : list A) (i : Z) (x : A) :
  0 <= i < Z.of_nat (length l) ->
  py_setitem l i x = Ok (<[Z.to_nat i := x]> l).
Proof.
  intros Hi. unfold py_setitem. replace (i <? 0) with false by lia.
  by replace ((0 <=? i) && (i <? Z.of_nat (length l))) with true by lia.
Qed.

Lemma py_setitem_Ok_iff {A : Type} (l : list A) (i : Z) (x : A) :
  (- Z.of_nat (length l) <= i < Z.of_nat (length l) ->
   exists l', py_setitem l i x = Ok l' /\ length l' = length l) /\
  (~ - Z.of_nat (length l) <= i < Z.of_nat (length l) ->
   py_setitem l i x = Err IndexError).
Proof.
  unfold py_setitem. split; intros Hi.
  - destruct (i <? 0) eqn:Hneg.
    + replace ((0 <=? Z.of_nat (length l) + i) &&
               (Z.of_nat (length l) + i <? Z.of_nat (length l)))
        with true by lia.
      eexists. split; [reflexivity|apply length_insert].
    + replace ((0 <=? i) && (i <? Z.of_nat (length l))) with true by lia.
      eexists. split; [reflexivity|apply length_insert].
  - destruct (i <? 0) eqn:Hneg.
    + by replace ((0 <=? Z.of_nat (length l) + i) &&
                  (Z.of_nat (length l) + i <? Z.of_nat (length l)))
        with false by lia.
    + by replace ((0 <=? i) && (i <? Z.of_nat (length l))) with false by lia.
Qed.

Lemma fill_layout_bounds (mapping : list (Z * Z)) (l : list (option Z)) :
  ((forall key value, In (key, value) mapping ->
      - Z.of_nat (length l) <= value < Z.of_nat (length l)) ->
   exists layout,
     for_each mapping
       (fun '(key, value) initial_layout =>
          py_setitem initial_layout value (Some key)) l = Ok layout /\
     length layout = length l) /\
  ((exists key value, In (key, value) mapping /\
      ~ - Z.of_nat (length l) <= value < Z.of_nat (length l)) ->
   for_each mapping
     (fun '(key, value) initial_layout =>
        py_setitem initial_layout value (Some key)) l = Err IndexError).
Proof.
  revert l. induction mapping as [|[k v] rest IH]; intros l.
  - split; [by eauto|]. intros (key & value & [] & _).
  - destruct (py_setitem_Ok_iff l v (Some k)) as [Hok Herr]. split.
    + intros Hall. destruct (Hok (Hall k v (or_introl eq_refl)))
        as (l' & Hset & Hlen).
      simpl. rewrite Hset. simpl.
      destruct (proj1 (IH l')) as (layout & Hrun & Hlen').
      { rewrite Hlen. intros key value Hin. apply (Hall key value). by right. }
      exists layout. split; [exact Hrun|congruence].
    + intros (key & value & Hin & Hout). simpl.
      destruct (decide (- Z.of_nat (length l) <= v < Z.of_nat (length l)))
        as [Hv|Hv]; [|by rewrite (Herr Hv)].
      destruct (Hok Hv) as (l' & -> & Hlen). simpl.
      destruct Hin as [[= <- <-]|Hin]; [contradiction|].
      apply (proj2 (IH l')). rewrite Hlen. exists key, value. auto.
Qed.

Lemma layout_of_mapping_bounds_aux (size : Z) (mapping : list (Z * Z)) :
  ((forall key value, In (key, value) mapping ->
      - Z.max 0 size <= value < Z.max 0 size) ->
   exists layout,
     layout_of_mapping size mapping = Ok layout /\
     Z.of_nat (length layout) = Z.max 0 size) /\
  ((exists key value, In (key, value) mapping /\
      ~ - Z.max 0 size <= value < Z.max 0 size) ->
   layout_of_mapping size mapping = Err IndexError).
Proof.
  unfold layout_of_mapping.
  assert (Hlen : Z.of_nat (length (py_repeat (@None Z) size)) = Z.max 0 size).
  { unfold py_repeat. rewrite repeat_length. lia. }
  destruct (fill_layout_bounds mapping (py_repeat None size)) as [Hok Herr].
  rewrite Hlen in Hok, Herr. split; [|exact Herr].
  intros Hall. destruct (Hok Hall) as (layout & Hrun & Hl).
  exists layout. split; [exact Hrun|]. by rewrite Hl.
Qed.

(** X7: [layout_of_mapping] raises [IndexError] exactly when some value of
    the mapping lies outside [-n .. n-1] for [n = max 0 size]; otherwise it
    returns a layout of [n] entries.  A negative value within the bounds
    does not raise: it counts from the end. *)
Theorem layout_of_mapping_bounds (size : Z) (mapping : list (Z * Z)) :
  ((forall key value, In (key, value) mapping ->
      - Z.max 0 size <= value < Z.max 0 size) ->
   exists layout,
     layout_of_mapping size mapping = Ok layout /\
     Z.of_nat (length layout) = Z.max 0 size) /\
  ((exists key value, In (key, value) mapping /\
      ~ - Z.max 0 size <= value < Z.max 0 size) ->
   layout_of_mapping size mapping = Err IndexError).
Proof. apply layout_of_mapping_bounds_aux. Qed.

Lemma layout_of_mapping_bounds_witness :
  (exists layout,
     layout_of_mapping 3 [(7, 0); (5, -1); (9, 1)] = Ok layout /\
     Z.of_nat (length layout) = Z.max 0 3) /\
  layout_of_mapping 3 [(7, 0); (5, 3)] = Err IndexError.
Proof.
  split.
  - apply (layout_of_mapping_bounds 3 [(7, 0); (5, -1); (9, 1)]).
    intros key value Hin. simpl in Hin.
    destruct Hin as [Hin|[Hin|[Hin|[]]]]; inversion Hin; lia.
  - apply (layout_of_mapping_bounds 3 [(7, 0); (5, 3)]).
    exists 5, 3. split; [simpl; auto|lia].
Defined.

Example layout_of_mapping_wraps :
  layout_of_mapping 3 [(7, 0); (5, -1); (9, 1)]
  = Ok [Some 7; Some 9; Some 5].
Proof. reflexivity. Qed.

Lemma fill_layout_lookup (mapping : list (Z * Z)) (l : list (option Z)) :
  NoDup (map snd mapping) ->
  (forall key value, In (key, value) mapping ->
     0 <= value < Z.of_nat (length l)) ->
  exists layout,
    for_each mapping
      (fun '(key, value) initial_layout =>
         py_setitem initial_layout value (Some key)) l = Ok layout /\
    length layout = length l /\
    (forall key value, In (key, value) mapping ->
       layout !! Z.to_nat value = Some (Some key)) /\
    (forall i, ~ In (Z.of_nat i) (map snd mapping) -> layout !! i = l !! i).
Proof.
  revert l. induction mapping as [|[k v] rest IH]; intros l Hnd Hall.
  - exists l. repeat split; auto. intros key value [].
  - simpl in Hnd. apply NoDup_cons in Hnd as [Hv Hnd].
    rewrite list_elem_of_In in Hv.
    pose proof (Hall k v (or_introl eq_refl)) as Hrange.
    simpl. rewrite py_setitem_in_range by lia. simpl.
    destruct (IH (<[Z.to_nat v := Some k]> l) Hnd)
      as (layout & Hrun & Hlen & Hitems & Hother).
    { rewrite length_insert. intros key value Hin.
      apply (Hall key value). by right. }
    exists layout. split; [exact Hrun|]. split; [|split].
    + by rewrite Hlen, length_insert.
    + intros key value [[= -> ->]|Hin]; [|by apply Hitems].
      rewrite Hother by (by rewrite Z2Nat.id by lia).
      apply list_lookup_insert_eq. lia.
    + intros i Hi. simpl in Hi.
      rewrite Hother by tauto. apply list_lookup_insert_ne. lia.
Qed.

Lemma layout_of_mapping_items (size : Z) (mapping : list (Z * Z)) :
  NoDup (map snd mapping) ->
  (forall key value, In (key, value) mapping -> 0 <= value < size) ->
  exists layout,
    layout_of_mapping size mapping = Ok layout /\
    Z.of_nat (length layout) = Z.max 0 size /\
    (forall key value, In (key, value) mapping ->
       py_index layout value = Ok (Some key)) /\
    (forall position, 0 <= position < size ->
       ~ In position (map snd mapping) -> py_index layout position = Ok None).
Proof.
  intros Hnd Hall. unfold layout_of_mapping.
  assert (Hlen : Z.of_nat (length (py_repeat (@None Z) size)) = Z.max 0 size).
  { unfold py_repeat. rewrite repeat_length. lia. }
  destruct (fill_layout_lookup mapping (py_repeat None size) Hnd)
    as (layout & Hrun & Hl & Hitems & Hother).
  { intros key value Hin. specialize (Hall key value Hin). lia. }
  exists layout. split; [exact Hrun|]. split; [by rewrite Hl|]. split.
  - intros key value Hin. apply py_index_lookup; [|by apply Hitems].
    specialize (Hall key value Hin). lia.
  - intros position Hpos Hno. apply py_index_lookup; [lia|].
    rewrite Hother by (by rewrite Z2Nat.id by lia).
    unfold py_repeat. rewrite <- nth_error_lookup.
    apply nth_error_repeat. lia.
Qed.

(** X8: a mapping with pairwise distinct values in [0 .. size-1] is read
    back from its layout: the layout has [size] entries, [layout[value]] is
    [key] for every item [(key, value)], and every position that is no
    value is still [None]. *)
Theorem layout_of_mapping_lookup (size : Z) (mapping : list (Z * Z)) :
  NoDup (map snd mapping) ->
  (forall key value, In (key, value) mapping -> 0 <= value < size) ->
  exists layout,
    layout_of_mapping size mapping = Ok layout /\
    Z.of_nat (length layout) = Z.max 0 size /\
    (forall key value, In (key, value) mapping ->
       py_index layout value = Ok (Some key)) /\
    (forall position, 0 <= position < size ->
       ~ In position (map snd mapping) -> py_index layout position = Ok None).
Proof. apply layout_of_mapping_items. Qed.

Lemma layout_of_mapping_lookup_witness :
  exists layout,
    layout_of_mapping 4 [(7, 2); (5, 0); (9, 3)] = Ok layout /\
    Z.of_nat (length layout) = Z.max 0 4 /\
    (forall key value, In (key, value) [(7, 2); (5, 0); (9, 3)] ->
       py_index layout value = Ok (Some key)) /\
    (forall position, 0 <= position < 4 ->
       ~ In position (map snd [(7, 2); (5, 0); (9, 3)]) ->
       py_index layout position = Ok None).
Proof.
  apply (layout_of_mapping_lookup 4 [(7, 2); (5, 0); (9, 3)]).
  - apply (bool_decide_unpack _). vm_compute. exact I.
  - intros key value Hin. simpl in Hin.
    destruct Hin as [Hin|[Hin|[Hin|[]]]]; inversion Hin; lia.
Defined.

(** ** The reference search and the first-element pop meet the documentation *)

Lemma py_range_cons lo hi :
  lo < hi -> py_range lo hi = lo :: py_range (lo + 1) hi.
Proof.
  intros H. rewrite (py_range_app lo (lo + 1) hi) by lia.
  unfold py_range at 1. replace (Z.to_nat (lo + 1 - lo)) with 1%nat by lia.
  simpl. f_equal. f_equal. lia.
Qed.

Lemma In_combine_py_range (img : list Z) lo key value :
  In (key, value) (combine img (py_range lo (lo + Z.of_nat (length img)))) <->
  lo <= value < lo + Z.of_nat (length img) /\
  img !! Z.to_nat (value - lo) = Some key.
Proof.
  revert lo. induction img as [|x img IH]; intros lo.
  - simpl. split; [intros []|lia].
  - rewrite py_range_cons by (simpl; lia). cbn [combine In length].
    replace (lo + Z.of_nat (S (length img)))
      with (lo + 1 + Z.of_nat (length img)) by lia.
    rewrite IH. split.
    + intros [[= <- <-]|[Hv Hl]].
      * split; [lia|]. by rewrite Z.sub_diag.
      * split; [lia|].
        replace (Z.to_nat (value - lo)) with (S (Z.to_nat (value - (lo + 1))))
          by lia. exact Hl.
    + intros [Hv Hl]. destruct (decide (value = lo)) as [->|Hne].
      * left. rewrite Z.sub_diag in Hl. simpl in Hl. congruence.
      * right. split; [lia|].
        replace (Z.to_nat (value - lo)) with (S (Z.to_nat (value - (lo + 1))))
          in Hl by lia. exact Hl.
Qed.

Lemma map_fst_combine_range (img : list Z) :
  map fst (combine img (py_range 0 (Z.of_nat (length img)))) = img.
Proof.
  generalize (py_range_length 0 (Z.of_nat (length img))).
  rewrite Z.sub_0_r, Nat2Z.id. generalize (py_range 0 (Z.of_nat (length img))).
  induction img as [|x img IH]; intros [|y r] Hlen; simpl in *;
    try discriminate; [reflexivity|]. f_equal. apply IH. lia.
Qed.

Lemma map_snd_combine_range (img : list Z) :
  map snd (combine img (py_range 0 (Z.of_nat (length img))))
  = py_range 0 (Z.of_nat (length img)).
Proof.
  generalize (py_range_length 0 (Z.of_nat (length img))).
  rewrite Z.sub_0_r, Nat2Z.id. generalize (py_range 0 (Z.of_nat (length img))).
  induction img as [|x img IH]; intros [|y r] Hlen; simpl in *;
    try discriminate; [reflexivity|]. f_equal. apply IH. lia.
Qed.

Lemma exhaustive_vf2_mapping_spec : @VF2MappingSpec exhaustive_rustworkx.
Proof.
  constructor. intros first second mapping. simpl. rewrite in_map_iff.
  intros (img & <- & Himg).
  apply embeddings_spec in Himg as (Hlen & Hcod & Hemb).
  apply embedsb_spec in Hemb as [Hinj Hadj]; [|exact Hlen].
  assert (Hnd : NoDup img).
  { apply NoDup_image_of. intros u v Hu Hv. apply Hinj; unfold num_nodes; lia. }
  unfold num_nodes in *. rewrite <- Hlen in *.
  rewrite map_fst_combine_range, map_snd_combine_range.
  split; [exact Hnd|]. split; [apply py_range_NoDup|].
  split; [exact Hcod|]. split; [intros value; apply py_range_In|].
  intros k1 v1 k2 v2 H1 H2.
  apply (In_combine_py_range img 0) in H1 as [Hv1 Hk1].
  apply (In_combine_py_range img 0) in H2 as [Hv2 Hk2].
  rewrite Z.sub_0_r in Hk1, Hk2.
  rewrite (Hadj v1 v2) by lia. unfold image_of.
  by rewrite (nth_lookup_Some _ _ _ _ Hk1), (nth_lookup_Some _ _ _ _ Hk2).
Qed.

Lemma first_element_pop_spec : @PythonRuntimeSpec first_element_pop.
Proof.
  constructor; simpl.
  - reflexivity.
  - intros [|y l] x; [discriminate|]. intros [= <-]. by left.
  - intros [|y l] Hne; [done|eauto].
Qed.

(** ** The physical zigzag layout: what it is made of *)

Lemma map_res_Ok {A B : Type} (f : A -> res B) (l : list A) :
  (forall x, In x l -> exists y, f x = Ok y) -> exists ys, map_res f l = Ok ys.
Proof.
  induction l as [|x l IH]; intros Hall; simpl; [eauto|].
  destruct (Hall x (or_introl eq_refl)) as (y & ->).
  destruct IH as (ys & ->); [intros z Hz; apply Hall; by right|].
  simpl. eauto.
Qed.

Lemma NoDup_fst_functional (mapping : list (Z * Z)) key v v' :
  NoDup (map fst mapping) ->
  In (key, v) mapping -> In (key, v') mapping -> v = v'.
Proof.
  induction mapping as [|[k0 v0] rest IH]; simpl; [intros _ []|].
  intros Hnd. apply NoDup_cons in Hnd as [Hk Hnd].
  rewrite list_elem_of_In in Hk.
  intros [E1|H1] [E2|H2]; [congruence| | |by apply IH].
  - injection E1 as -> ->. destruct Hk. apply in_map_iff. by exists (key, v').
  - injection E2 as -> ->. destruct Hk. apply in_map_iff. by exists (key, v).
Qed.

(** How [get_zigzag_physical_layout] arrives at the layout it returns. *)
Lemma get_zigzag_physical_layout_selected
    {num : Type} `{Number num} `{Rustworkx} `{PythonRuntime}
    fuel num_orbitals (backend : BackendV2 (option Z) num) score_layouts
    num_ancillas bad_readout_qubits bad_czgate_edges layout k :
  get_zigzag_physical_layout fuel num_orbitals backend score_layouts
    num_ancillas bad_readout_qubits bad_czgate_edges
    = Some (Ok (layout, k)) ->
  exists G layouts selected two_q_gate_name,
    create_lucj_zigzag_layout fuel (num_orbitals + num_ancillas)
      (backend_cmap_pygraph backend) = Some (Ok (G, k)) /\
    map_res (layout_of_mapping (2 * (num_orbitals + num_ancillas) + k))
      (vf2_mapping (backend_cmap_pygraph backend) G) = Ok layouts /\
    set_pop (List.filter (fun g => py_in g (basis_gates backend))
               IBM_TWO_Q_GATES) = Ok two_q_gate_name /\
    layout = py_slice_to selected (- k) /\
    In selected layouts /\
    (score_layouts = true ->
     exists scores score,
       lightweight_layout_error_scoring backend (edge_list G) layouts
         two_q_gate_name bad_readout_qubits bad_czgate_edges = Ok scores /\
       py_index scores 0 = Ok (selected, score)).
Proof.
  unfold get_zigzag_physical_layout.
  destruct (create_lucj_zigzag_layout _ _ _) as [[[G k0]|e]|] eqn:Hlucj;
    [|discriminate..].
  destruct (map_res _ _) as [layouts|] eqn:Hlayouts; simpl; [|discriminate].
  destruct (set_pop _) as [two_q_gate_name|] eqn:Hpop; simpl; [|discriminate].
  destruct score_layouts.
  - destruct (lightweight_layout_error_scoring _ _ _ _ _ _) as [scores|]
      eqn:Hscores; simpl; [|discriminate].
    destruct (py_index scores 0) as [[selected score]|] eqn:Hbest; simpl;
      [|discriminate].
    intros [= <- <-]. exists G, layouts, selected, two_q_gate_name.
    repeat split; auto; [|eauto].
    apply py_index_In in Hbest.
    by destruct (scoring_entries _ _ _ _ _ _ _ Hscores _ Hbest) as [? _].
  - destruct (py_index layouts 0) as [selected|] eqn:Hfirst; simpl;
      [|discriminate].
    intros [= <- <-]. exists G, layouts, selected, two_q_gate_name.
    repeat split; auto; [|discriminate]. by apply py_index_In in Hfirst.
Qed.

(** The layout of an embedding holds, at every node of the embedded graph,
    the node of the host it is mapped from. *)
Lemma layout_of_embedding `{VF2MappingSpec} first second mapping selected :
  In mapping (vf2_mapping first second) ->
  layout_of_mapping (num_nodes second) mapping = Ok selected ->
  length selected = length (nodes second) /\
  (forall p, 0 <= p < num_nodes second ->
     exists key, selected !! Z.to_nat p = Some (Some key) /\
                 In (key, p) mapping).
Proof.
  intros Hin Hrun.
  destruct (vf2_mapping_spec _ _ _ Hin) as (_ & Hvals & _ & Hall & _).
  unfold layout_of_mapping in Hrun.
  destruct (fill_layout_lookup mapping (py_repeat None (num_nodes second))
              Hvals) as (layout & Hrun' & Hlen & Hitems & _).
  { intros key value Hkv. unfold py_repeat. rewrite repeat_length.
    unfold num_nodes in *. rewrite Nat2Z.id. apply Hall.
    apply in_map_iff. by exists (key, value). }
  rewrite Hrun in Hrun'. injection Hrun' as <-.
  split.
  { rewrite Hlen. unfold py_repeat, num_nodes.
    by rewrite repeat_length, Nat2Z.id. }
  intros p Hp. apply Hall in Hp. apply in_map_iff in Hp as ([key v] & Hv & Hkv).
  simpl in Hv. subst v. exists key. split; [by apply Hitems|exact Hkv].
Qed.

(** X9: with a library that yields embeddings, a layout returned together
    with [k > 0] connecting qubits is a proper initial layout.  It has
    [2 * (num_orbitals + num_ancillas)] entries, all of them physical qubits
    of the backend and pairwise distinct, and neighbours in each of the two
    virtual chains sit on coupled physical qubits. *)
Theorem get_zigzag_physical_layout_valid
    {num : Type} `{Number num} `{VF2MappingSpec} `{PythonRuntime}
    (fuel : nat) (num_orbitals : Z) (backend : BackendV2 (option Z) num)
    (score_layouts : bool) (num_ancillas : Z)
    (bad_readout_qubits : list (option Z))
    (bad_czgate_edges : list (py_seq (option Z)))
    (layout : list (option Z)) (k : Z) :
  get_zigzag_physical_layout fuel num_orbitals backend score_layouts
    num_ancillas bad_readout_qubits bad_czgate_edges
    = Some (Ok (layout, k)) ->
  0 < k ->
  Z.of_nat (length layout) = 2 * (num_orbitals + num_ancillas) /\
  NoDup layout /\
  (forall p, 0 <= p < 2 * (num_orbitals + num_ancillas) ->
     exists q, py_index layout p = Ok (Some q) /\
               0 <= q < num_nodes (backend_cmap_pygraph backend)) /\
  (forall p,
     0 <= p < num_orbitals + num_ancillas - 1 \/
     num_orbitals + num_ancillas <= p
       < 2 * (num_orbitals + num_ancillas) - 1 ->
     exists q q',
       py_index layout p = Ok (Some q) /\
       py_index layout (p + 1) = Ok (Some q') /\
       adjacent (backend_cmap_pygraph backend) q q').
Proof.
  intros Hrun Hk.
  apply get_zigzag_physical_layout_selected in Hrun
    as (G & layouts & selected & name & Hlucj & Hlayouts & _ & -> & Hsel & _).
  set (N := num_orbitals + num_ancillas) in *.
  set (cmap := backend_cmap_pygraph backend) in *.
  apply create_lucj_zigzag_layout_graph in Hlucj as (HG & _ & HN & Hnum).
  specialize (HN Hk).
  replace (2 * Z.max 0 N + k) with (2 * N + k) in Hnum by lia.
  destruct (map_res_In _ _ _ Hlayouts _ Hsel) as (mapping & Hmap & Hlay).
  rewrite <- Hnum in Hlay.
  destruct (layout_of_embedding _ _ _ _ Hmap Hlay) as [Hlen Hpos].
  destruct (vf2_mapping_spec _ _ _ Hmap) as (Hkeys & _ & Hrange & _ & Hadj).
  assert (Hslice : py_slice_to selected (- k) = take (Z.to_nat (2 * N)) selected).
  { unfold py_slice_to. replace (- k <? 0) with true by lia.
    f_equal. unfold num_nodes in Hnum. lia. }
  rewrite Hslice.
  assert (Hat : forall p, 0 <= p < 2 * N ->
    exists key, take (Z.to_nat (2 * N)) selected !! Z.to_nat p
                = Some (Some key) /\ In (key, p) mapping).
  { intros p Hp. destruct (Hpos p) as (key & Hl & Hi); [lia|].
    exists key. split; [|exact Hi]. rewrite lookup_take_lt by lia. exact Hl. }
  split; [|split; [|split]].
  - rewrite length_take. unfold num_nodes in Hnum. lia.
  - apply NoDup_alt. intros i j x Hi Hj.
    pose proof (lookup_lt_Some _ _ _ Hi) as Hi'.
    pose proof (lookup_lt_Some _ _ _ Hj) as Hj'.
    rewrite length_take in Hi', Hj'.
    destruct (Hat (Z.of_nat i)) as (ki & Hli & Hini); [lia|].
    destruct (Hat (Z.of_nat j)) as (kj & Hlj & Hinj); [lia|].
    rewrite Nat2Z.id in Hli, Hlj.
    assert (ki = kj) as -> by congruence.
    apply Nat2Z.inj. by apply (NoDup_fst_functional mapping kj).
  - intros p Hp. destruct (Hat p Hp) as (key & Hl & Hi). exists key.
    split; [apply py_index_lookup; [lia|exact Hl]|].
    apply Hrange. apply in_map_iff. by exists (key, p).
  - intros p Hp.
    destruct (Hat p) as (q & Hl & Hi); [lia|].
    destruct (Hat (p + 1)) as (q' & Hl' & Hi'); [lia|].
    exists q, q'. split; [apply py_index_lookup; [lia|exact Hl]|].
    split; [apply py_index_lookup; [lia|exact Hl']|].
    apply (Hadj q p q' (p + 1) Hi Hi'). rewrite HG.
    left. unfold zigzag_graph. cbn [edge_list]. apply in_or_app. left.
    apply two_chains_edge. lia.
Qed.

Lemma get_zigzag_physical_layout_valid_witness :
  let layout := [Some 2; Some 0] in
  Z.of_nat (length layout) = 2 * (1 + 0) /\
  NoDup layout /\
  (forall p, 0 <= p < 2 * (1 + 0) ->
     exists q, py_index layout p = Ok (Some q) /\
               0 <= q < num_nodes (backend_cmap_pygraph line4_layout_backend)) /\
  (forall p,
     0 <= p < 1 + 0 - 1 \/ 1 + 0 <= p < 2 * (1 + 0) - 1 ->
     exists q q',
       py_index layout p = Ok (Some q) /\
       py_index layout (p + 1) = Ok (Some q') /\
       adjacent (backend_cmap_pygraph line4_layout_backend) q q').
Proof.
  apply (@get_zigzag_physical_layout_valid Z Z_number exhaustive_rustworkx
           exhaustive_vf2_mapping_spec first_element_pop 3 1
           line4_layout_backend true 0 [] [] [Some 2; Some 0] 1).
  - vm_compute. reflexivity.
  - lia.
Defined.

(** The layouts are always built when the library yields embeddings. *)
Lemma zigzag_layouts_built `{VF2MappingSpec} fuel num_orbitals cmap G k :
  create_lucj_zigzag_layout fuel num_orbitals cmap = Some (Ok (G, k)) ->
  exists layouts,
    map_res (layout_of_mapping (2 * num_orbitals + k)) (vf2_mapping cmap G)
    = Ok layouts.
Proof.
  intros Hlucj.
  apply create_lucj_zigzag_layout_graph in Hlucj as (_ & Hk & HN & Hnum).
  apply map_res_Ok. intros mapping Hmap.
  destruct (vf2_mapping_spec _ _ _ Hmap) as (_ & Hvals & _ & Hall & _).
  destruct (proj1 (layout_of_mapping_bounds_aux (2 * num_orbitals + k) mapping))
    as (layout & Hrun & _); [|eauto].
  intros key value Hin.
  assert (Hv : 0 <= value < num_nodes G).
  { apply Hall. apply in_map_iff. by exists (key, value). }
  lia.
Qed.

(** X10: on a backend none of whose basis gates is ["cx"], ["ecr"] or
    ["cz"], [get_zigzag_physical_layout] raises [KeyError] once the zigzag
    search has returned, whatever its other arguments are. *)
Theorem get_zigzag_physical_layout_no_two_q_gate
    {num : Type} `{Number num} `{VF2MappingSpec} `{PythonRuntimeSpec}
    (fuel : nat) (num_orbitals : Z) (backend : BackendV2 (option Z) num)
    (score_layouts : bool) (num_ancillas : Z)
    (bad_readout_qubits : list (option Z))
    (bad_czgate_edges : list (py_seq (option Z))) (G : PyGraph) (k : Z) :
  create_lucj_zigzag_layout fuel (num_orbitals + num_ancillas)
    (backend_cmap_pygraph backend) = Some (Ok (G, k)) ->
  (forall g, In g IBM_TWO_Q_GATES -> ~ In g (basis_gates backend)) ->
  get_zigzag_physical_layout fuel num_orbitals backend score_layouts
    num_ancillas bad_readout_qubits bad_czgate_edges = Some (Err KeyError).
Proof.
  intros Hlucj Hnone. unfold get_zigzag_physical_layout. rewrite Hlucj.
  destruct (zigzag_layouts_built _ _ _ _ _ Hlucj) as (layouts & ->).
  cbn [bind].
  assert (Hempty : List.filter (fun g => py_in g (basis_gates backend))
                     IBM_TWO_Q_GATES = []).
  { induction IBM_TWO_Q_GATES as [|g gs IH]; [reflexivity|]. simpl.
    destruct (py_in g (basis_gates backend)) eqn:Hg.
    - apply py_in_spec in Hg. destruct (Hnone g); [by left|exact Hg].
    - apply IH. intros g' Hg'. apply Hnone. by right. }
  rewrite Hempty, set_pop_empty. reflexivity.
Qed.

Lemma get_zigzag_physical_layout_no_two_q_gate_witness :
  @get_zigzag_physical_layout Z Z_number exhaustive_rustworkx
    first_element_pop 3 1 line4_no_two_q_backend true 0 [] []
  = Some (Err KeyError).
Proof.
  apply (@get_zigzag_physical_layout_no_two_q_gate Z Z_number
           exhaustive_rustworkx exhaustive_vf2_mapping_spec
           first_element_pop first_element_pop_spec 3 1
           line4_no_two_q_backend true 0 [] []
           {| nodes := [0; 1; 2]; edge_list := [(0, 2); (2, 1)] |} 1).
  - vm_compute. reflexivity.
  - intros g Hg Hb. simpl in Hg, Hb.
    destruct Hg as [<-|[<-|[<-|[]]]];
      destruct Hb as [Hb|[Hb|[Hb|[Hb|[]]]]]; discriminate Hb.
Defined.




(** X12: with [score_layouts=True] the returned layout is cut from a layout
    whose error score is no larger than the score of any layout that passed
    the filters. *)
Theorem get_zigzag_physical_layout_best
    {num : Type} `{NumberOrder num} `{Rustworkx} `{PythonRuntime}
    (fuel : nat) (num_orbitals : Z) (backend : BackendV2 (option Z) num)
    (num_ancillas : Z) (bad_readout_qubits : list (option Z))
    (bad_czgate_edges : list (py_seq (option Z)))
    (layout : list (option Z)) (k : Z) :
  get_zigzag_physical_layout fuel num_orbitals backend true num_ancillas
    bad_readout_qubits bad_czgate_edges = Some (Ok (layout, k)) ->
  exists G layouts two_q_gate_name scores selected score,
    map_res (layout_of_mapping (2 * (num_orbitals + num_ancillas) + k))
      (vf2_mapping (backend_cmap_pygraph backend) G) = Ok layouts /\
    lightweight_layout_error_scoring backend (edge_list G) layouts
      two_q_gate_name bad_readout_qubits bad_czgate_edges = Ok scores /\
    In (selected, score) scores /\
    layout = py_slice_to selected (- k) /\
    (forall other other_score, In (other, other_score) scores ->
       num_le score other_score) /\
    (forall other, In other layouts ->
       passes_filters (edge_list G) bad_readout_qubits bad_czgate_edges other
         = true ->
       exists other_score,
         In (other, other_score) scores /\ num_le score other_score).
Proof.
  intros Hrun.
  apply get_zigzag_physical_layout_selected in Hrun
    as (G & layouts & selected & name & _ & Hlayouts & _ & -> & _ & Hsc).
  destruct (Hsc eq_refl) as (scores & score & Hscores & Hbest).
  exists G, layouts, name, scores, selected, score.
  assert (Hmin : forall other other_score, In (other, other_score) scores ->
            num_le score other_score).
  { unfold lightweight_layout_error_scoring in Hscores.
    destruct (for_each layouts _ []) as [unsorted|]; simpl in Hscores;
      [|discriminate].
    injection Hscores as <-.
    pose proof (sorted_sorted snd unsorted) as Hsorted.
    destruct (sorted snd unsorted) as [|first rest]; [discriminate|].
    injection Hbest as ->.
    apply StronglySorted_inv in Hsorted as [_ Hall].
    rewrite List.Forall_forall in Hall.
    intros other other_score [[= <- <-]|Hin]; [|by apply (Hall _ Hin)].
    unfold num_le. destruct (num_lt score score) eqn:Hlt; [|reflexivity].
    by rewrite (num_lt_asym _ _ Hlt) in Hlt. }
  repeat split; auto; [by apply py_index_In in Hbest|].
  intros other Hin Hpass.
  assert (Hmem : In other (map fst scores)).
  { unfold lightweight_layout_error_scoring in Hscores.
    destruct (for_each layouts _ []) as [unsorted|] eqn:Hloop;
      simpl in Hscores; [|discriminate].
    injection Hscores as <-.
    apply (Permutation_in _ (Permutation_sym
             (Permutation_map fst (sorted_Permutation snd unsorted)))).
    apply scoring_loop_layouts in Hloop. simpl in Hloop. rewrite Hloop.
    apply filter_In. auto. }
  apply in_map_iff in Hmem as ([o s] & <- & Hos). simpl. eauto.
Qed.

Lemma get_zigzag_physical_layout_best_witness :
  exists G layouts two_q_gate_name scores selected score,
    map_res (layout_of_mapping (2 * (1 + 0) + 1))
      (@vf2_mapping exhaustive_rustworkx
         (backend_cmap_pygraph line4_layout_backend) G) = Ok layouts /\
    @lightweight_layout_error_scoring _ Z _ Z_number line4_layout_backend
      (edge_list G) layouts two_q_gate_name [] [] = Ok scores /\
    In (selected, score) scores /\
    [Some 2; Some 0] = py_slice_to selected (- 1) /\
    (forall other other_score, In (other, other_score) scores ->
       @num_le Z Z_number score other_score) /\
    (forall other, In other layouts ->
       passes_filters (edge_list G) [] [] other = true ->
       exists other_score,
         In (other, other_score) scores /\
         @num_le Z Z_number score other_score).
Proof.
  apply (@get_zigzag_physical_layout_best Z Z_number Z_number_order
           exhaustive_rustworkx first_element_pop 3 1 line4_layout_backend
           0 [] [] [Some 2; Some 0] 1).
  vm_compute. reflexivity.
Defined.

(** ** Zero-noise extrapolation: the value at zero and failed fits *)

Lemma Z_number_laws : @NumberLaws Z Z_number.
Proof. constructor; simpl; intros; lia. Qed.

(** X13: the zero-noise value is read off the fitted parameters.  For the
    linear and the quadratic method it is the last parameter (the
    intercept); for the exponential method [a * exp(-b * x) + c] it is
    [a + c]. *)
Theorem zne_method_zero_val_is_intercept
    {num : Type} `{NumberLaws num} `{Scipy num}
    (method : string) (xdata ydata : list num) (f : model)
    (p0 : option (list Q)) (maxfev : option Z) (popt : list num) :
  supported_method method f p0 maxfev ->
  curve_fit {| cf_f := f; cf_xdata := xdata; cf_ydata := ydata;
               cf_p0 := p0; cf_maxfev := maxfev |} = Ok popt ->
  length popt = model_arity f ->
  exists zero_val,
    snd (zne_method method xdata ydata) = Ok (zero_val, ydata, popt, f) /\
    match f, popt with
    | linear_model_fn, [_; b] => zero_val = b
    | quadratic_model_fn, [_; _; c] => zero_val = c
    | exponential_model_fn, [a; _; c] => zero_val = num_add a c
    | _, _ => False
    end.
Proof.
  intros Hm Hfit Hlen.
  destruct Hm; simpl in Hlen;
    repeat (destruct popt as [|? popt]; try discriminate Hlen);
    unfold zne_method; simpl; rewrite Hfit; simpl;
    eexists; (split; [reflexivity|]).
  - unfold linear_model. by rewrite num_mul_zero, num_add_zero.
  - unfold quadratic_model.
    by rewrite num_pow_zero, !num_mul_zero, !num_add_zero.
  - unfold exponential_model.
    by rewrite num_mul_zero, num_exp_zero, num_mul_one.
Qed.

Lemma zne_method_zero_val_is_intercept_witness :
  exists zero_val,
    snd (@zne_method Z Z_number two_point_fit "quadratic" [1; 2; 3] [7; 9; 11])
    = Ok (zero_val, [7; 9; 11], [0; 2; 5], quadratic_model_fn) /\
    zero_val = 5.
Proof.
  apply (@zne_method_zero_val_is_intercept Z Z_number Z_number_laws
           two_point_fit "quadratic" [1; 2; 3] [7; 9; 11] quadratic_model_fn
           None None [0; 2; 5]).
  - constructor.
  - reflexivity.
  - reflexivity.
Defined.

(** X14: [zne_method] catches nothing.  When [curve_fit] raises, the same
    exception leaves [zne_method] after that one call; and parameters that
    do not match the model function make the evaluation at [0] raise
    [TypeError]. *)
Theorem zne_method_failed_fit
    {num : Type} `{Number num} `{Scipy num}
    (method : string) (xdata ydata : list num) (f : model)
    (p0 : option (list Q)) (maxfev : option Z) :
  supported_method method f p0 maxfev ->
  let call := {| cf_f := f; cf_xdata := xdata; cf_ydata := ydata;
                 cf_p0 := p0; cf_maxfev := maxfev |} in
  (forall e, curve_fit call = Err e ->
     zne_method method xdata ydata = ([call], Err e)) /\
  (forall popt, curve_fit call = Ok popt -> length popt <> model_arity f ->
     zne_method method xdata ydata = ([call], Err TypeError)).
Proof.
  intros Hm call. subst call. split.
  - intros e Hfit. destruct Hm; unfold zne_method; simpl; by rewrite Hfit.
  - intros popt Hfit Hlen.
    destruct Hm; unfold zne_method; simpl; rewrite Hfit; simpl;
      simpl in Hlen;
      repeat (destruct popt as [|? popt]; try reflexivity;
              try (by destruct Hlen)).
Qed.

Lemma zne_method_failed_fit_witness :
  let call := {| cf_f := exponential_model_fn; cf_xdata := [1; 2; 3];
                 cf_ydata := [7; 9; 11];
                 cf_p0 := Some [1%Q; (1 # 10)%Q; 0%Q];
                 cf_maxfev := Some 5000 |} in
  @zne_method Z Z_number two_point_fit "exponential" [1; 2; 3] [7; 9; 11]
  = ([call], Err (LibraryError 3)).
Proof.
  apply (@zne_method_failed_fit Z Z_number two_point_fit "exponential"
           [1; 2; 3] [7; 9; 11] exponential_model_fn
           (Some [1%Q; (1 # 10)%Q; 0%Q]) (Some 5000)).
  - constructor.
  - reflexivity.
Defined.

(** ** The object store: what a result shares with the arguments *)

Section StoreSharing.
Context {qubit num : Type} `{EqDecision qubit} `{Number num} `{Scipy num}.
Implicit Types (h : heap qubit num) (l : positive).

Lemma reads_ret {A : Type} (a : A) : reads (qubit:=qubit) (num:=num) (ret a).
Proof. by intros h. Qed.

Lemma reads_lift {A : Type} (r : res A) :
  reads (qubit:=qubit) (num:=num) (lift r).
Proof. by intros h. Qed.

Lemma reads_load l : reads (qubit:=qubit) (num:=num) (load l).
Proof. intros h. unfold load. by destruct (h !! l). Qed.

Lemma reads_bind {A B : Type} (m : M qubit num A) (k : A -> M qubit num B) :
  reads m -> (forall a, reads (k a)) -> reads (bindM m k).
Proof.
  intros Hm Hk h. unfold bindM. specialize (Hm h).
  destruct (m h) as [h' [a|e]]; simpl in *; subst; [apply Hk|reflexivity].
Qed.

Lemma reads_load_as {A : Type} (f : obj qubit num -> res A) l :
  reads (qubit:=qubit) (num:=num) (bindM (load l) (fun o => lift (f o))).
Proof. apply reads_bind; [apply reads_load|intros o; apply reads_lift]. Qed.

Lemma reads_any_bad_readout_h (layout : list qubit) l :
  reads (qubit:=qubit) (num:=num) (any_bad_readout_h layout l).
Proof.
  unfold any_bad_readout_h. destruct layout; [apply reads_ret|].
  apply reads_bind; [apply reads_load_as|intros ?; apply reads_ret].
Qed.

Lemma reads_skip_bad_czgate_h (layout : list qubit) edges l :
  reads (qubit:=qubit) (num:=num) (skip_bad_czgate_h layout edges l).
Proof.
  unfold skip_bad_czgate_h. destruct edges; [apply reads_ret|].
  repeat (apply reads_bind; [first [apply reads_lift|apply reads_load_as]|
                             intros ?]).
  apply reads_lift.
Qed.

Lemma reads_map_h_entry_key (es : list positive) h h1 keyed :
  map_h (qubit:=qubit) (num:=num) entry_key es h = (h1, Ok keyed) ->
  h1 = h /\ map fst keyed = es.
Proof.
  revert h1 keyed. induction es as [|e es IH]; intros h1 keyed; simpl.
  - by intros [= <- <-].
  - unfold bindM at 1, entry_key at 1. unfold bindM at 1, load at 1.
    destruct (h !! e) as [o|]; [|discriminate]. unfold bindM at 1, lift at 1.
    destruct (as_entry o) as [p|]; [|discriminate]. unfold ret at 1.
    unfold bindM at 1.
    destruct (map_h entry_key es h) as [h2 [ys|]] eqn:Hrest; [|discriminate].
    destruct (IH _ _ eq_refl) as [-> <-]. by intros [= <- <-].
Qed.

(** When one of the reads of a computation is taken out, the store is as
    before. *)
Lemma bindM_reads_Ok {A B : Type} (m : M qubit num A) (k : A -> M qubit num B)
    h h' b :
  reads m -> bindM m k h = (h', Ok b) ->
  exists a, m h = (h, Ok a) /\ k a h = (h', Ok b).
Proof.
  intros Hm. unfold bindM. specialize (Hm h).
  destruct (m h) as [h1 [a|e]]; simpl in Hm; subst; [eauto|discriminate].
Qed.

Lemma score_layout_h_points_to refs h0 h h' props virtual_edges
    two_q_gate_name bad_readout_qubits bad_czgate_edges scores r es :
  h0 ⊆ h -> h0 !! scores = None -> h !! scores = Some (Refs es) ->
  entries_point_to refs h0 h es -> In r refs ->
  score_layout_h props virtual_edges two_q_gate_name bad_readout_qubits
    bad_czgate_edges scores r h = (h', Ok tt) ->
  h0 ⊆ h' /\ exists es', h' !! scores = Some (Refs es') /\
                         entries_point_to refs h0 h' es'.
Proof.
  intros Hh Hs0 Hs Hes Hr Hrun. unfold score_layout_h in Hrun.
  apply bindM_reads_Ok in Hrun as (layout & _ & Hrun);
    [|apply reads_load_as].
  apply bindM_reads_Ok in Hrun as (any_bad & _ & Hrun);
    [|apply reads_any_bad_readout_h].
  destruct any_bad; [injection Hrun as <-; eauto|].
  apply bindM_reads_Ok in Hrun as (edges & _ & Hrun);
    [|apply reads_load_as].
  apply bindM_reads_Ok in Hrun as (skip & _ & Hrun);
    [|apply reads_skip_bad_czgate_h].
  destruct skip; [injection Hrun as <-; eauto|].
  apply bindM_reads_Ok in Hrun as (t2 & _ & Hrun); [|apply reads_lift].
  apply bindM_reads_Ok in Hrun as (tm & _ & Hrun); [|apply reads_lift].
  unfold bindM, alloc, list_append in Hrun.
  assert (Hne : fresh (dom h) <> scores) by (by eapply fresh_ne).
  rewrite lookup_insert_ne, Hs in Hrun by exact Hne.
  injection Hrun as <-. split; [|eexists; split; [apply lookup_insert_eq|]].
  - apply insert_subseteq_r; [exact Hs0|].
    apply insert_subseteq_r; [by apply fresh_not_bound|exact Hh].
  - intros e He. apply in_app_or in He as [He|[<-|[]]].
    + destruct (Hes e He) as (He0 & r' & sc & Hb & Hr'). split; [exact He0|].
      exists r', sc. split; [|exact Hr'].
      rewrite lookup_insert_ne by congruence.
      rewrite lookup_insert_ne; [exact Hb|]. by eapply fresh_ne.
    + split; [by apply fresh_not_bound|]. eexists _, _. split; [|exact Hr].
      rewrite lookup_insert_ne by (by apply not_eq_sym).
      apply lookup_insert_eq.
Qed.

Lemma for_each_h_points_to refs h0 props virtual_edges two_q_gate_name
    bad_readout_qubits bad_czgate_edges scores (todo : list positive) :
  h0 !! scores = None -> (forall r, In r todo -> In r refs) ->
  forall h h' es,
    h0 ⊆ h -> h !! scores = Some (Refs es) -> entries_point_to refs h0 h es ->
    for_each_h todo
      (score_layout_h props virtual_edges two_q_gate_name bad_readout_qubits
         bad_czgate_edges scores) h = (h', Ok tt) ->
    h0 ⊆ h' /\ exists es', h' !! scores = Some (Refs es') /\
                           entries_point_to refs h0 h' es'.
Proof.
  intros Hs0. induction todo as [|r todo IH]; intros Hsub h h' es Hh Hs Hes;
    simpl.
  - intros [= <-]. eauto.
  - unfold bindM at 1.
    destruct (score_layout_h _ _ _ _ _ _ r h) as [h1 [[]|]] eqn:Hstep;
      [|discriminate].
    destruct (score_layout_h_points_to refs h0 h h1 _ _ _ _ _ _ _ _
                Hh Hs0 Hs Hes (Hsub r (or_introl eq_refl)) Hstep)
      as (Hh1 & es1 & Hs1 & Hes1).
    apply (IH (fun r' Hr' => Hsub r' (or_intror Hr')) h1 h' es1); auto.
Qed.

End StoreSharing.

Section StoreSharingResults.
Context {qubit num : Type} `{EqDecision qubit} `{Number num} `{Scipy num}.
Implicit Types (h : heap qubit num) (l : positive).

Lemma load_refs_inv h h' l rs :
  load_refs (qubit:=qubit) (num:=num) l h = (h', Ok rs) ->
  h' = h /\ h !! l = Some (Refs rs).
Proof.
  unfold load_refs, bindM, load, lift.
  destruct (h !! l) as [[]|]; simpl; intros [=]; subst; auto.
Qed.

Lemma zne_fit_h_shares f p0 maxfev xdata ydata h h' zero_val y p g :
  zne_fit_h f p0 maxfev xdata ydata h = (h', Ok (zero_val, y, p, g)) ->
  y = ydata /\ g = f /\ h !! p = None /\
  exists popt, h' = <[p := Nums popt]> h.
Proof.
  unfold zne_fit_h. intros Hrun.
  apply bindM_reads_Ok in Hrun as (xs & _ & Hrun); [|apply reads_load_as].
  apply bindM_reads_Ok in Hrun as (ys & _ & Hrun); [|apply reads_load_as].
  apply bindM_reads_Ok in Hrun as (popt & _ & Hrun); [|apply reads_lift].
  unfold bindM, alloc, lift, ret in Hrun.
  destruct (call_model f (num_of_int 0) popt); [|discriminate].
  injection Hrun as <- <- <- <- <-.
  repeat split; [by apply fresh_not_bound|by exists popt].
Qed.

End StoreSharingResults.

(** X15: [zne_method] hands back the caller's own [ydata] object, not a
    copy (for a call without [ydata], the shared default list), next to the
    parameter array of the fit, which did not exist before the call; that
    new array is the only change to the store. *)
Theorem zne_method_h_returns_argument
    {qubit num : Type} `{EqDecision qubit} `{Number num} `{Scipy num}
    (method : string) (xdata ydata : positive) (h h' : heap qubit num)
    (zero_val : num) (y p : positive) (f : model) :
  zne_method_h method xdata ydata h = (h', Ok (zero_val, y, p, f)) ->
  y = ydata /\ h !! p = None /\ exists popt, h' = <[p := Nums popt]> h.
Proof.
  unfold zne_method_h. intros Hrun.
  repeat (match type of Hrun with
          | (if ?c then _ else _) _ = _ => destruct c
          end);
    try discriminate Hrun;
    apply zne_fit_h_shares in Hrun as (Hy & _ & Hp & Hh); auto.
Qed.

Lemma zne_method_h_returns_argument_witness :
  @zne_method_h Z Z Z_number two_point_fit "linear" 1%positive 2%positive
    zne_store_a
  = (<[3%positive := Nums [2; 5]]> zne_store_a,
     Ok (5, 2%positive, 3%positive, linear_model_fn)) /\
  2%positive = 2%positive /\ zne_store_a !! 3%positive = None /\
  exists popt,
    <[3%positive := Nums [2; 5]]> zne_store_a
    = <[3%positive := Nums popt]> zne_store_a.
Proof.
  assert (Hrun : @zne_method_h Z Z Z_number two_point_fit "linear" 1%positive
                   2%positive zne_store_a
                 = (<[3%positive := Nums [2; 5]]> zne_store_a,
                    Ok (5, 2%positive, 3%positive, linear_model_fn)))
    by (vm_compute; reflexivity).
  split; [exact Hrun|].
  exact (@zne_method_h_returns_argument Z Z _ Z_number two_point_fit "linear"
           1%positive 2%positive zne_store_a _ 5 2%positive 3%positive
           linear_model_fn Hrun).
Defined.

(** X16: the list that [lightweight_layout_error_scoring] returns and the
    [[layout, score]] entries in it are new objects, but the layout in each
    entry is one of the caller's own layout objects from
    [physical_layouts], not a copy. *)
Theorem lightweight_layout_error_scoring_h_shares_layouts
    {qubit num : Type} `{EqDecision qubit} `{Number num}
    (backend : BackendV2 qubit num)
    (virtual_edges physical_layouts : positive) (two_q_gate_name : string)
    (bad_readout_qubits bad_czgate_edges : positive)
    (h h' : heap qubit num) (refs : list positive) (l : positive) :
  h !! physical_layouts = Some (Refs refs) ->
  lightweight_layout_error_scoring_h backend virtual_edges physical_layouts
    two_q_gate_name bad_readout_qubits bad_czgate_edges h = (h', Ok l) ->
  h !! l = None /\
  exists es,
    h' !! l = Some (Refs es) /\
    forall e, In e es ->
      h !! e = None /\
      exists r score, h' !! e = Some (Entry r score) /\ In r refs.
Proof.
  intros Hpl Hrun. unfold lightweight_layout_error_scoring_h in Hrun.
  unfold bindM at 1, alloc at 1 in Hrun.
  set (s := fresh (dom h)) in Hrun.
  assert (Hs0 : h !! s = None) by (by apply fresh_not_bound).
  assert (Hne : s <> physical_layouts) by (by eapply fresh_ne).
  set (h1 := <[s := Refs []]> h) in Hrun.
  assert (Hh1 : h ⊆ h1) by (by apply insert_subseteq).
  rewrite (bindM_Ok _ _ h1 h1 refs) in Hrun
    by (apply load_refs_Ok; unfold h1; by rewrite lookup_insert_ne).
  unfold bindM at 1 in Hrun.
  destruct (for_each_h refs _ h1) as [h2 [[]|]] eqn:Hloop; [|discriminate].
  destruct (for_each_h_points_to refs h _ _ _ _ _ s refs Hs0
              (fun r Hr => Hr) h1 h2 [] Hh1 (lookup_insert_eq _ _ _)
              ltac:(intros e []) Hloop) as (Hh2 & es & Hs2 & Hes).
  rewrite (bindM_Ok _ _ h2 h2 es) in Hrun by (by apply load_refs_Ok).
  unfold bindM at 1 in Hrun.
  destruct (map_h entry_key es h2) as [h3 [keyed|]] eqn:Hkeys;
    [|discriminate].
  apply reads_map_h_entry_key in Hkeys as [-> Hkeyed].
  unfold alloc in Hrun. injection Hrun as <- <-.
  split; [by apply fresh_not_bound|]. eexists. split; [apply lookup_insert_eq|].
  intros e He. apply in_map_iff in He as (p & <- & Hp).
  apply In_sorted in Hp.
  assert (Hin : In (fst p) es) by (rewrite <- Hkeyed; by apply in_map).
  destruct (Hes _ Hin) as (He0 & r & score & Hb & Hr).
  split; [exact He0|]. exists r, score. split; [|exact Hr].
  rewrite lookup_insert_ne; [exact Hb|]. by eapply fresh_ne.
Qed.

Lemma lightweight_layout_error_scoring_h_shares_layouts_witness :
  let run := @lightweight_layout_error_scoring_h Z Z _ Z_number line4
               1%positive 2%positive "cz" 3%positive 4%positive
               scoring_store_a in
  scoring_store_a !! 2%positive = Some (Refs [5; 6; 7; 6]%positive) /\
  (exists l, snd run = Ok l /\
     scoring_store_a !! l = None /\
     exists es,
       fst run !! l = Some (Refs es) /\
       forall e, In e es ->
         scoring_store_a !! e = None /\
         exists r score, fst run !! e = Some (Entry r score) /\
                         In r [5; 6; 7; 6]%positive).
Proof.
  intros run. split; [reflexivity|].
  destruct run as [h' [l|e]] eqn:Hrun; [|vm_compute in Hrun; discriminate].
  exists l. split; [reflexivity|].
  exact (@lightweight_layout_error_scoring_h_shares_layouts Z Z _ Z_number
           line4 1%positive 2%positive "cz" 3%positive 4%positive
           scoring_store_a h' [5; 6; 7; 6]%positive l eq_refl Hrun).
Defined.

(** ** The counts drawn by [plot_counts_barplot] *)

Lemma dict_setitem_new {K V : Type} `{EqDecision K} (d : list (K * V)) k v :
  ~ In k (map fst d) -> dict_setitem d k v = d ++ [(k, v)].
Proof.
  induction d as [|[k' v'] d IH]; intros Hk; simpl; [reflexivity|].
  rewrite bool_decide_eq_false_2 by (intros ->; apply Hk; by left).
  rewrite IH; [reflexivity|]. intros Hin. apply Hk. by right.
Qed.

Lemma py_dict_from {K V : Type} `{EqDecision K} (items acc : list (K * V)) :
  List.NoDup (map fst (acc ++ items)) ->
  fold_left (fun d item => dict_setitem d (fst item) (snd item)) items acc
  = acc ++ items.
Proof.
  revert acc. induction items as [|[k v] items IH]; intros acc Hnd; simpl.
  - by rewrite app_nil_r.
  - rewrite dict_setitem_new.
    + rewrite IH; rewrite <- app_assoc; [reflexivity|exact Hnd].
    + rewrite map_app in Hnd. simpl in Hnd.
      apply List.NoDup_remove_2 in Hnd. intros Hin. apply Hnd.
      apply in_or_app. by left.
Qed.

Lemma py_dict_items {K V : Type} `{EqDecision K} (items : list (K * V)) :
  List.NoDup (map fst items) -> py_dict items = items.
Proof. intros Hnd. unfold py_dict. by rewrite py_dict_from. Qed.

Lemma StronglySorted_snoc {A : Type} (R : A -> A -> Prop) (l : list A) x :
  StronglySorted R l -> (forall y, In y l -> R y x) ->
  StronglySorted R (l ++ [x]).
Proof.
  induction 1 as [|a l Hl IH Ha]; intros Hx; simpl.
  - constructor; constructor.
  - constructor.
    + apply IH. intros y Hy. apply Hx. by right.
    + apply List.Forall_forall. intros y Hy.
      apply in_app_or in Hy as [Hy|[<-|[]]].
      * revert y Hy. by apply List.Forall_forall.
      * apply Hx. by left.
Qed.

Lemma StronglySorted_rev {A : Type} (R : A -> A -> Prop) (l : list A) :
  StronglySorted R l -> StronglySorted (fun a b => R b a) (rev l).
Proof.
  induction 1 as [|a l Hl IH Ha]; simpl; [constructor|].
  apply StronglySorted_snoc; [exact IH|].
  intros y Hy. apply in_rev in Hy. revert y Hy.
  by apply List.Forall_forall.
Qed.

Lemma StronglySorted_app_cross {A : Type} (R : A -> A -> Prop)
    (l1 l2 : list A) :
  StronglySorted R (l1 ++ l2) ->
  StronglySorted R l1 /\ forall a b, In a l1 -> In b l2 -> R a b.
Proof.
  induction l1 as [|x l1 IH]; simpl; intros Hs.
  - split; [constructor|intros a b []].
  - apply StronglySorted_inv in Hs as [Hs Hx].
    destruct (IH Hs) as [H1 H2]. split.
    + constructor; [exact H1|].
      apply List.Forall_forall. intros y Hy.
      apply (proj1 (List.Forall_forall _ _) Hx). apply in_or_app. by left.
    + intros a b [<-|Ha] Hb; [|by apply H2].
      apply (proj1 (List.Forall_forall _ _) Hx). apply in_or_app. by right.
Qed.

Lemma sorted_reverse_sorted {A num : Type} `{NumberOrder num}
    (key : A -> num) (l : list A) :
  StronglySorted (fun a b => num_le (key b) (key a)) (sorted_reverse key l).
Proof.
  unfold sorted_reverse.
  apply (StronglySorted_rev (fun a b => num_le (key a) (key b))).
  apply sorted_sorted.
Qed.

Lemma sorted_reverse_Permutation {A num : Type} `{Number num}
    (key : A -> num) (l : list A) :
  Permutation (sorted_reverse key l) l.
Proof.
  unfold sorted_reverse. rewrite <- Permutation_rev, sorted_Permutation.
  symmetry. apply Permutation_rev.
Qed.

Lemma sorted_reverse_ties {A num : Type} `{NumberOrder num} (key : A -> num)
    (v : num) (l : list A) :
  List.filter (fun a => num_tie (key a) v) (sorted_reverse key l)
  = List.filter (fun a => num_tie (key a) v) l.
Proof.
  unfold sorted_reverse.
  by rewrite List.filter_rev, sorted_ties, List.filter_rev, rev_involutive.
Qed.

Lemma py_slice_to_split {A : Type} (l : list A) (stop : Z) :
  exists rest, l = py_slice_to l stop ++ rest.
Proof.
  unfold py_slice_to. eexists. symmetry. apply firstn_skipn.
Qed.

Lemma py_slice_to_length {A : Type} (l : list A) (stop : Z) :
  0 <= stop ->
  length (py_slice_to l stop)
  = Z.to_nat (Z.min stop (Z.of_nat (length l))).
Proof.
  intros Hs. unfold py_slice_to. replace (stop <? 0) with false by lia.
  rewrite length_firstn. lia.
Qed.

Section CountsBarplotFacts.
Context {num : Type} `{Number num}.

Lemma counts_bars_from (optimal_solutions : option (list string))
    (values : list num) (sc : list (string * num)) (lo : Z) :
  0 <= lo ->
  (forall i x, map snd sc !! i = Some x ->
               values !! (Z.to_nat lo + i)%nat = Some x) ->
  exists bars,
    map_res (fun '(i, state) =>
               let* value := py_index values i in
               Ok {| bar_x := i; bar_height := value;
                     bar_alpha := if is_optimal optimal_solutions state
                                  then 1%Q else (1 # 2)%Q |})
      (combine (py_range lo (lo + Z.of_nat (length sc))) (map fst sc))
    = Ok bars /\
    map bar_x bars = py_range lo (lo + Z.of_nat (length sc)) /\
    map bar_height bars = map snd sc /\
    map bar_alpha bars
    = map (fun p => if is_optimal optimal_solutions (fst p)
                    then 1%Q else (1 # 2)%Q) sc.
Proof.
  revert lo. induction sc as [|[s v] sc IH]; intros lo Hlo Hvals.
  - simpl. rewrite Z.add_0_r, py_range_empty by lia. by exists [].
  - rewrite py_range_cons by (simpl; lia). cbn [map fst combine map_res].
    rewrite (py_index_lookup values lo v Hlo)
      by (rewrite <- (Nat.add_0_r (Z.to_nat lo)); by apply Hvals).
    cbn [bind].
    replace (lo + Z.of_nat (length ((s, v) :: sc)))
      with (lo + 1 + Z.of_nat (length sc)) by (simpl; lia).
    destruct (IH (lo + 1)) as (bars & -> & Hx & Hh & Ha); [lia| |].
    + intros i x Hi.
      replace (Z.to_nat (lo + 1) + i)%nat with (Z.to_nat lo + S i)%nat by lia.
      by apply Hvals.
    + cbn [bind]. eexists. split; [reflexivity|]. simpl.
      by rewrite Hx, Hh, Ha.
Qed.

End CountsBarplotFacts.

(** X17: [plot_counts_barplot] shows the [top_n] largest counts.  For a
    dict of counts and [top_n >= 0] the bitstrings kept are
    [min(top_n, len(counts_dict))] items of the dict, in descending order of
    count with equal counts in dict order, and no bitstring left out has a
    larger count than one that is kept. *)
Theorem sorted_counts_top_n
    {num : Type} `{NumberOrder num}
    (counts_dict : list (string * num)) (top_n : Z) :
  List.NoDup (map fst counts_dict) -> 0 <= top_n ->
  let shown := sorted_counts counts_dict top_n in
  length shown = Z.to_nat (Z.min top_n (Z.of_nat (length counts_dict))) /\
  StronglySorted (fun a b => num_le (snd b) (snd a)) shown /\
  exists rest,
    Permutation (shown ++ rest) counts_dict /\
    (forall a b, In a shown -> In b rest -> num_le (snd b) (snd a)) /\
    (forall v, List.filter (fun a => num_tie (snd a) v) (shown ++ rest)
               = List.filter (fun a => num_tie (snd a) v) counts_dict).
Proof.
  intros Hnd Htop shown. subst shown. unfold sorted_counts.
  pose proof (sorted_reverse_Permutation snd counts_dict) as Hperm.
  pose proof (sorted_reverse_sorted snd counts_dict) as Hsorted.
  destruct (py_slice_to_split (sorted_reverse snd counts_dict) top_n)
    as (rest & Hsplit).
  assert (Hkeys : List.NoDup
                    (map fst (py_slice_to (sorted_reverse snd counts_dict)
                                top_n))).
  { assert (Hall : List.NoDup (map fst (sorted_reverse snd counts_dict))).
    { eapply Permutation_NoDup; [|exact Hnd].
      apply Permutation_map. by symmetry. }
    rewrite Hsplit, map_app in Hall. by apply List.NoDup_app_remove_r in Hall. }
  rewrite (py_dict_items _ Hkeys).
  rewrite Hsplit in Hsorted. apply StronglySorted_app_cross in Hsorted
    as [Hshown Hcross].
  split; [|split; [exact Hshown|exists rest; repeat split]].
  - rewrite py_slice_to_length by exact Htop.
    by rewrite (Permutation_length Hperm).
  - by rewrite <- Hsplit.
  - exact Hcross.
  - intros v. rewrite <- Hsplit. apply sorted_reverse_ties.
Qed.

Lemma sorted_counts_top_n_witness :
  @sorted_counts Z Z_number four_counts 2 = [("01", 9); ("00", 5)] /\
  length (@sorted_counts Z Z_number four_counts 2) = 2%nat /\
  StronglySorted (fun a b => @num_le Z Z_number (snd b) (snd a))
    (@sorted_counts Z Z_number four_counts 2) /\
  exists rest,
    Permutation (@sorted_counts Z Z_number four_counts 2 ++ rest)
      four_counts /\
    (forall a b, In a (@sorted_counts Z Z_number four_counts 2) ->
                 In b rest -> @num_le Z Z_number (snd b) (snd a)) /\
    (forall v,
       List.filter (fun a => @num_tie Z Z_number (snd a) v)
         (@sorted_counts Z Z_number four_counts 2 ++ rest)
       = List.filter (fun a => @num_tie Z Z_number (snd a) v) four_counts).
Proof.
  split; [vm_compute; reflexivity|].
  apply (@sorted_counts_top_n Z Z_number Z_number_order four_counts 2).
  - apply (proj1 (NoDup_ListNoDup _)). apply (bool_decide_unpack _).
    vm_compute. exact I.
  - lia.
Defined.

(** X18: the bar loop of [plot_counts_barplot] never raises.  It draws one
    bar for every bitstring kept, at the positions [0, 1, 2, ...] in the
    order of the kept counts, each as high as the count of its own
    bitstring; a bar is opaque when [optimal_solutions] lists its bitstring
    and half transparent otherwise, so all are half transparent when
    [optimal_solutions] is [None] or empty. *)
Theorem counts_bars_drawn
    {num : Type} `{Number num}
    (counts_dict : list (string * num))
    (optimal_solutions : option (list string)) (top_n : Z) :
  let kept := sorted_counts counts_dict top_n in
  exists bars,
    counts_bars counts_dict optimal_solutions top_n = Ok bars /\
    map bar_x bars = py_range 0 (Z.of_nat (length kept)) /\
    map bar_height bars = map snd kept /\
    Forall2 (fun bar item =>
               let listed := exists solutions,
                               optimal_solutions = Some solutions /\
                               In (fst item) solutions in
               (listed -> bar_alpha bar = 1%Q) /\
               (~ listed -> bar_alpha bar = (1 # 2)%Q)) bars kept.
Proof.
  intros kept. unfold counts_bars. fold kept. rewrite length_map.
  destruct (counts_bars_from optimal_solutions (map snd kept) kept 0)
    as (bars & Hrun & Hx & Hh & Ha); [lia|by intros i x|].
  rewrite Z.add_0_l in Hrun, Hx. exists bars.
  split; [exact Hrun|]. split; [exact Hx|]. split; [exact Hh|].
  clear Hrun Hx Hh. revert bars Ha.
  induction kept as [|item kept' IH]; intros [|bar bars]; simpl;
    intros [=]; constructor; [|by apply IH].
  match goal with Hb : bar_alpha bar = _ |- _ => rewrite Hb end.
  unfold is_optimal. destruct optimal_solutions as [solutions|].
  - destruct (py_in (fst item) solutions) eqn:Hin.
    + split; [reflexivity|]. intros Hno. destruct Hno.
      exists solutions. split; [reflexivity|]. by apply py_in_spec.
    + split; [|reflexivity]. intros (solutions' & [= <-] & Hin').
      apply py_in_spec in Hin'. congruence.
  - split; [|reflexivity]. intros (solutions & [=] & _).
Qed.

Lemma counts_bars_drawn_witness :
  exists bars,
    @counts_bars Z Z_number four_counts (Some ["01"%string]) 2 = Ok bars /\
    map bar_x bars
    = py_range 0 (Z.of_nat (length (@sorted_counts Z Z_number four_counts 2)))
    /\
    map bar_height bars = map snd (@sorted_counts Z Z_number four_counts 2) /\
    Forall2 (fun bar item =>
               let listed := exists solutions,
                               Some ["01"%string] = Some solutions /\
                               In (fst item) solutions in
               (listed -> bar_alpha bar = 1%Q) /\
               (~ listed -> bar_alpha bar = (1 # 2)%Q))
      bars (@sorted_counts Z Z_number four_counts 2).
Proof.
  exact (@counts_bars_drawn Z Z_number four_counts (Some ["01"%string]) 2).
Defined.
